(** * The RTSP control plane of shairport-sync (rtsp.c): a shallow embedding

    The development follows the layout of [rtsp.c]: machine integers and C
    strings first, then the producer/consumer queue, the reference-counted
    messages and the metadata fan-out, the message codec, the method
    handlers, the Apple challenge and the conversation loop.  Properties are
    stated and proved after the definitions. *)

From Stdlib Require Import ZArith Lia Ascii DecimalString.
From stdpp Require Import base option list gmap strings.

Open Scope Z_scope.

(* ================================================================== *)
(** * Machine integers *)
(* ================================================================== *)

(** [uint32_t] arithmetic wraps modulo 2^32, [uint16_t] modulo 2^16. *)
Definition wrap32 (z : Z) : Z := z mod 2 ^ 32.
Definition wrap16 (z : Z) : Z := z mod 2 ^ 16.

(** Conversion of a wide value to [int] keeps the low 32 bits, read as a
    two's complement number. *)
Definition to_int (z : Z) : Z := (z + 2 ^ 31) mod 2 ^ 32 - 2 ^ 31.

Definition LONG_MAX : Z := 2 ^ 63 - 1.
Definition LONG_MIN : Z := - 2 ^ 63.

(** errno values of <errno.h> on Linux. *)
Definition EAGAIN : Z := 11.
Definition EWOULDBLOCK : Z := 11.
Definition EBUSY : Z := 16.
Definition EINTR : Z := 4.
Definition ECONNRESET : Z := 104.

(* ================================================================== *)
(** * C strings *)
(* ================================================================== *)

(** A buffer is a [string] that may hold NUL characters; the C string at a
    pointer is the buffer from there up to the first NUL. *)
Module CStr.

Definition NUL : ascii := "000"%char.
Definition CR : ascii := "013"%char.
Definition LF : ascii := "010"%char.
Definition TAB : ascii := "009"%char.
Definition SP : ascii := " "%char.

Definition code (c : ascii) : Z := Z.of_nat (nat_of_ascii c).

Fixpoint cstr (b : string) : string :=
  match b with
  | EmptyString => EmptyString
  | String c b' => if Ascii.eqb c NUL then EmptyString else String c (cstr b')
  end.

Definition strlen (b : string) : Z := Z.of_nat (String.length (cstr b)).

Fixpoint sdrop (n : nat) (s : string) : string :=
  match n, s with
  | O, _ => s
  | S n', String _ s' => sdrop n' s'
  | S _, EmptyString => EmptyString
  end.

Fixpoint stake (n : nat) (s : string) : string :=
  match n, s with
  | S n', String c s' => String c (stake n' s')
  | _, _ => EmptyString
  end.

(** [strncmp(s, lit, strlen(lit)) == 0]: the literal is a prefix of [s]. *)
Definition has_prefix (lit s : string) : bool := String.prefix lit (cstr s).

(** [strcmp(a, b) == 0]. *)
Definition streq (a b : string) : bool := String.eqb (cstr a) (cstr b).

Definition tolower (c : ascii) : ascii :=
  let n := nat_of_ascii c in
  if ((65 <=? n) && (n <=? 90))%nat then ascii_of_nat (n + 32) else c.

Fixpoint lower (s : string) : string :=
  match s with
  | EmptyString => EmptyString
  | String c s' => String (tolower c) (lower s')
  end.

(** [strcasecmp(a, b) == 0]. *)
Definition strcaseeq (a b : string) : bool :=
  String.eqb (lower (cstr a)) (lower (cstr b)).

(** [strstr(hay, needle)]: offset of the first occurrence, if any. *)
Definition strstr (hay needle : string) : option nat :=
  String.index 0 needle (cstr hay).

(** [strchr(s, c)] for a character [c] other than NUL. *)
Fixpoint strchr (s : string) (c : ascii) : option nat :=
  match s with
  | EmptyString => None
  | String d s' =>
      if Ascii.eqb d NUL then None
      else if Ascii.eqb d c then Some O
      else S <$> strchr s' c
  end.

Definition isspace (c : ascii) : bool :=
  let n := nat_of_ascii c in ((n =? 32) || ((9 <=? n) && (n <=? 13)))%nat.

Definition isdigit (c : ascii) : bool :=
  let n := nat_of_ascii c in ((48 <=? n) && (n <=? 57))%nat.

Fixpoint skip_space (s : string) : string :=
  match s with
  | String c s' => if isspace c then skip_space s' else s
  | EmptyString => EmptyString
  end.

Fixpoint digits (s : string) (acc : Z) : Z :=
  match s with
  | String c s' => if isdigit c then digits s' (acc * 10 + (code c - 48)) else acc
  | EmptyString => acc
  end.

(** [strtol(s, NULL, 10)]: leading white space, an optional sign, decimal
    digits; the result saturates at the range of [long]. *)
Definition strtol (s : string) : Z :=
  let v :=
    match skip_space (cstr s) with
    | String "-" s' => - digits s' 0
    | String "+" s' => digits s' 0
    | s' => digits s' 0
    end in
  Z.max LONG_MIN (Z.min LONG_MAX v).

(** [atoi(s)] is [(int) strtol(s, NULL, 10)]. *)
Definition atoi (s : string) : Z := to_int (strtol s).

(** Modelled from the spec: [uatoi] of common.c, which is not under src/;
    the spec has the number read as an unsigned 32-bit value. *)
Definition uatoi (s : string) : Z := wrap32 (strtol s).

(** The successive results of [strsep(&s, delims)] on a non-NULL [s]: the
    fields between delimiters, empty fields included, at least one. *)
Fixpoint strsep_fields (delims : list ascii) (s : string) : list string :=
  match s with
  | EmptyString => [EmptyString]
  | String c s' =>
      if bool_decide (c ∈ delims) then EmptyString :: strsep_fields delims s'
      else
        match strsep_fields delims s' with
        | f :: fs => String c f :: fs
        | [] => [String c EmptyString]
        end
  end.

Definition CRLF : string := String CR (String LF EmptyString).

(** [printf("%d")] of an [int]. *)
Definition fmt_d (z : Z) : string := NilZero.string_of_int (Z.to_int z).

End CStr.

(* ================================================================== *)
(** * Messages and metadata packages *)
(* ================================================================== *)

(** [rtsp_message].  [name[i]] and [value[i]] for [i < nheaders] are kept as
    the list [headers]; [content] is [None] for a NULL pointer. *)
Record rtsp_message := mk_msg {
  index_number : Z;
  referenceCount : Z;
  headers : list (string * string);
  contentlength : Z;
  content : option string;
  method : string;
  respcode : Z
}.

Definition nheaders (msg : rtsp_message) : Z := Z.of_nat (length (headers msg)).

(** [metadata_package]; [mp_data] and [mp_carrier] are addresses, 0 for NULL. *)
Record metadata_package := mk_pack {
  mp_type : Z;
  mp_code : Z;
  mp_data : Z;
  mp_length : Z;
  mp_carrier : Z
}.

(* ================================================================== *)
(** * The producer/consumer queue *)
(* ================================================================== *)

Module PcQueue.

(** [pc_queue]: the ring [items] holds [capacity] slots. *)
Record pc_queue := mk_queue {
  item_size : Z;
  count : Z;
  capacity : Z;
  toq : Z;
  eoq : Z;
  items : list metadata_package
}.

Definition pc_queue_init (items : list metadata_package) (item_size : Z)
    (number_of_items : Z) : pc_queue :=
  {| item_size := item_size; count := 0; capacity := number_of_items;
     toq := 0; eoq := 0; items := items |}.

(** [pc_queue_add_item].  [lock_rc] is what taking [pc_queue_lock] returned
    ([debug_mutex_lock] when [block] is 0, [pthread_mutex_lock] otherwise).
    The result is the return value and the queue afterwards.  The slot
    written is [items[eoq]]; outside the ring the C code writes out of
    bounds, here nothing is stored. *)
Definition pc_queue_add_item (the_queue : option pc_queue)
    (the_stuff : metadata_package) (block : Z) (lock_rc : Z)
    : Z * option pc_queue :=
  match the_queue with
  | Some q =>
      if (block =? 0) && (lock_rc =? EBUSY) then (EBUSY, Some q)
      else if count q <? capacity q then
        let i := eoq q in
        let items' := <[Z.to_nat i := the_stuff]> (items q) in
        let i := wrap32 (i + 1) in
        let i := if i =? capacity q then 0 else i in
        (0, Some {| item_size := item_size q; count := wrap32 (count q + 1);
                    capacity := capacity q; toq := toq q; eoq := i;
                    items := items' |})
      else (EWOULDBLOCK, Some q)
  | None => (0, None)
  end.

(** [pc_queue_get_item] waits on the item-added condition while the queue is
    empty: [GetWaiting] is a call that has not returned, the queue as it
    was.  [GetReturned rc the_stuff q] is a return with the item copied out
    ([None] when nothing was copied). *)
Inductive get_outcome :=
| GetWaiting
| GetReturned (rc : Z) (the_stuff : option metadata_package) (q : option pc_queue).

Definition pc_queue_get_item (the_queue : option pc_queue) : get_outcome :=
  match the_queue with
  | Some q =>
      if count q =? 0 then GetWaiting
      else
        let i := toq q in
        let the_stuff := items q !! Z.to_nat i in
        let i := wrap32 (i + 1) in
        let i := if i =? capacity q then 0 else i in
        GetReturned 0 the_stuff
          (Some {| item_size := item_size q; count := wrap32 (count q - 1);
                   capacity := capacity q; toq := i; eoq := eoq q;
                   items := items q |})
  | None => GetReturned 0 None None
  end.

(** Operations applied to one queue, in the order in which they hold the
    queue lock. *)
Inductive queue_op :=
| OpAdd (the_stuff : metadata_package) (block lock_rc : Z)
| OpGet.

Definition apply_op (q : pc_queue) (op : queue_op) : pc_queue :=
  match op with
  | OpAdd x block lock_rc =>
      match snd (pc_queue_add_item (Some q) x block lock_rc) with
      | Some q' => q'
      | None => q
      end
  | OpGet =>
      match pc_queue_get_item (Some q) with
      | GetReturned _ _ (Some q') => q'
      | _ => q
      end
  end.

Definition run_ops (q : pc_queue) (ops : list queue_op) : pc_queue :=
  foldl apply_op q ops.

(** The lock was obtained: the call got past the early [EBUSY] return. *)
Definition lock_taken (block lock_rc : Z) : Prop :=
  block = 0 -> lock_rc <> EBUSY.

Definition ring_ok (q : pc_queue) : Prop :=
  0 <= count q <= capacity q /\ 0 <= toq q < capacity q /\ 0 <= eoq q < capacity q.

End PcQueue.

(* ================================================================== *)
(** * Configuration *)
(* ================================================================== *)

(** The fields of the global [config] that [rtsp.c] reads, and the
    compile-time switches [CONFIG_METADATA_HUB] and [CONFIG_MQTT]. *)
Record configuration := mk_config {
  metadata_enabled : Z;
  metadata_sockmsglength : Z;
  allow_session_interruption : Z;
  get_coverart : Z;
  airplay_volume_text : string;   (* [config.airplay_volume] printed with "%.6f" *)
  password : option string;
  hw_addr : list ascii;
  CONFIG_METADATA_HUB : bool;
  CONFIG_MQTT : bool
}.

(* ================================================================== *)
(** * Reference counting and the metadata fan-out *)
(* ================================================================== *)

Module Metadata.
Import PcQueue.

(** The heap as far as the metadata path touches it: the live messages by
    address and the buffers obtained from [malloc]. *)
Record heap := mk_heap {
  msgs : gmap Z rtsp_message;
  bufs : gmap Z (list ascii)
}.

Definition set_referenceCount (c : Z) (m : rtsp_message) : rtsp_message :=
  {| index_number := index_number m; referenceCount := c;
     headers := headers m; contentlength := contentlength m;
     content := content m; method := method m; respcode := respcode m |}.

(** [msg_retain].  An address that is not a live message is left alone
    (the C code would touch freed memory). *)
Definition msg_retain (msg : Z) (ms : gmap Z rtsp_message) : gmap Z rtsp_message :=
  if 65536 <? msg then
    match ms !! msg with
    | Some m => <[msg := set_referenceCount (wrap32 (referenceCount m + 1)) m]> ms
    | None => ms
    end
  else ms.

(** [msg_free(&p)]: the new value of [p] and the store.  When the count
    reaches zero the message is deallocated and [p] is overwritten with a
    version of the index number. *)
Definition msg_free (msgh : Z) (ms : gmap Z rtsp_message) : Z * gmap Z rtsp_message :=
  if 65536 <? msgh then
    match ms !! msgh with
    | Some m =>
        let c := wrap32 (referenceCount m - 1) in
        if c =? 0 then
          let index := Z.land (index_number m) 65535 in
          let index := if index =? 0 then 65536 else index in
          (index, delete msgh ms)
        else (msgh, <[msgh := set_referenceCount c m]> ms)
    | None => (msgh, ms)
    end
  else (msgh, ms).

(** [memdup(data, length)]: [malloc_ret] is the address [malloc] returned,
    0 when it failed. *)
Definition memdup (data_bytes : list ascii) (length : Z) (malloc_ret : Z)
    (bs : gmap Z (list ascii)) : Z * gmap Z (list ascii) :=
  if malloc_ret =? 0 then (0, bs)
  else (malloc_ret, <[malloc_ret := take (Z.to_nat length) data_bytes]> bs).

Definition free (p : Z) (bs : gmap Z (list ascii)) : gmap Z (list ascii) :=
  delete p bs.

(** [send_metadata_to_queue].  [data] is the address passed and
    [data_bytes] the bytes found there. *)
Definition send_metadata_to_queue (queue : option pc_queue) (type code : Z)
    (data : Z) (data_bytes : list ascii) (length : Z) (carrier : Z) (block : Z)
    (lock_rc malloc_ret : Z) (h : heap) : Z * option pc_queue * heap :=
  let pack_data := data in
  let '(pack_data, h) :=
    if negb (carrier =? 0) then
      (pack_data, {| msgs := msg_retain carrier (msgs h); bufs := bufs h |})
    else if negb (data =? 0) then
      let '(p, bs) := memdup data_bytes length malloc_ret (bufs h) in
      (p, {| msgs := msgs h; bufs := bs |})
    else (pack_data, h) in
  let pack := {| mp_type := type; mp_code := code; mp_data := pack_data;
                 mp_length := length; mp_carrier := carrier |} in
  let '(rc, queue) := pc_queue_add_item queue pack block lock_rc in
  let h :=
    if negb (rc =? 0) then
      if negb (carrier =? 0) then
        {| msgs := snd (msg_free carrier (msgs h)); bufs := bufs h |}
      else if negb (pack_data =? 0) then
        {| msgs := msgs h; bufs := free pack_data (bufs h) |}
      else h
    else h in
  (rc, queue, h).

Inductive sink := Pipe | Multicast | Hub | Mqtt.

(** What the environment answers during one enqueue. *)
Record sink_env := mk_sink_env { lock_rc : Z; malloc_ret : Z }.

Record md_state := mk_md {
  metadata_queue : pc_queue;
  metadata_multicast_queue : pc_queue;
  metadata_hub_queue : pc_queue;
  metadata_mqtt_queue : pc_queue;
  md_heap : heap
}.

Definition or_queue (q : pc_queue) (o : option pc_queue) : pc_queue :=
  match o with Some q' => q' | None => q end.

(** [send_metadata].  [rc] starts out uninitialised: [rc_uninit] is the
    value it happens to hold. *)
Definition send_metadata (cfg : configuration) (env : sink -> sink_env)
    (rc_uninit : Z) (type code : Z) (data : Z) (data_bytes : list ascii)
    (length : Z) (carrier : Z) (block : Z) (st : md_state) : Z * md_state :=
  let to_queue s q h :=
    send_metadata_to_queue (Some q) type code data data_bytes length carrier
      block (lock_rc (env s)) (malloc_ret (env s)) h in
  let rc := rc_uninit in
  let '(rc, st) :=
    if negb (metadata_enabled cfg =? 0) then
      let '(rc, q, h) := to_queue Pipe (metadata_queue st) (md_heap st) in
      let st := {| metadata_queue := or_queue (metadata_queue st) q;
                   metadata_multicast_queue := metadata_multicast_queue st;
                   metadata_hub_queue := metadata_hub_queue st;
                   metadata_mqtt_queue := metadata_mqtt_queue st; md_heap := h |} in
      let '(rc, q, h) := to_queue Multicast (metadata_multicast_queue st) (md_heap st) in
      (rc, {| metadata_queue := metadata_queue st;
              metadata_multicast_queue := or_queue (metadata_multicast_queue st) q;
              metadata_hub_queue := metadata_hub_queue st;
              metadata_mqtt_queue := metadata_mqtt_queue st; md_heap := h |})
    else (rc, st) in
  let '(rc, st) :=
    if CONFIG_METADATA_HUB cfg then
      let '(rc, q, h) := to_queue Hub (metadata_hub_queue st) (md_heap st) in
      (rc, {| metadata_queue := metadata_queue st;
              metadata_multicast_queue := metadata_multicast_queue st;
              metadata_hub_queue := or_queue (metadata_hub_queue st) q;
              metadata_mqtt_queue := metadata_mqtt_queue st; md_heap := h |})
    else (rc, st) in
  if CONFIG_MQTT cfg then
    let '(rc, q, h) := to_queue Mqtt (metadata_mqtt_queue st) (md_heap st) in
    (rc, {| metadata_queue := metadata_queue st;
            metadata_multicast_queue := metadata_multicast_queue st;
            metadata_hub_queue := metadata_hub_queue st;
            metadata_mqtt_queue := or_queue (metadata_mqtt_queue st) q; md_heap := h |})
  else (rc, st).

End Metadata.

(* ================================================================== *)
(** * The multicast sink *)
(* ================================================================== *)

Module Multicast.

(** [config.metadata_sockmsglength] is a [size_t]; arithmetic on it, and on
    a [uint32_t] combined with it, is done modulo 2^64. *)
Definition size_wrap (z : Z) : Z := z mod 2 ^ 64.

Definition byte_of (z : Z) : ascii := ascii_of_N (Z.to_N (Z.land z 255)).

(** The four bytes that [v = htonl(x); memcpy(ptr, &v, 4)] stores. *)
Definition htonl_bytes (x : Z) : list ascii :=
  [byte_of (Z.shiftr x 24); byte_of (Z.shiftr x 16); byte_of (Z.shiftr x 8); byte_of x].

Definition ssncchnk : list ascii := String.list_ascii_of_string "ssncchnk".

(** The [do ... while (1)] loop of the chunked branch.  One datagram is
    sent per turn; [fuel] bounds the number of turns, and [None] is a loop
    that has not ended within it. *)
Fixpoint chunk_loop (fuel : nat) (sockmsglength : Z) (type code : Z)
    (chunk_total : Z) (chunk_ix : Z) (remaining : Z) (data_crsr : list ascii)
    : option (list (list ascii)) :=
  match fuel with
  | O => None
  | S fuel' =>
      let datalen := remaining in
      let datalen :=
        if size_wrap (sockmsglength - 24) <? datalen
        then size_wrap (sockmsglength - 24) else datalen in
      let dgram :=
        ssncchnk ++ htonl_bytes chunk_ix ++ htonl_bytes chunk_total ++
        htonl_bytes type ++ htonl_bytes code ++ take (Z.to_nat datalen) data_crsr in
      let data_crsr := drop (Z.to_nat datalen) data_crsr in
      let chunk_ix := wrap32 (chunk_ix + 1) in
      let remaining := wrap32 (remaining - datalen) in
      if remaining =? 0 then Some [dgram]
      else
        match chunk_loop fuel' sockmsglength type code chunk_total chunk_ix
                remaining data_crsr with
        | Some rest => Some (dgram :: rest)
        | None => None
        end
  end.

(** [metadata_multicast_process]: the datagrams handed to [sendto], in
    order.  [data] holds the bytes at the [data] pointer. *)
Definition metadata_multicast_process (metadata_sock : Z) (sockmsglength : Z)
    (type code : Z) (data : list ascii) (length : Z)
    : option (list (list ascii)) :=
  if (0 <=? metadata_sock) && (length <? size_wrap (sockmsglength - 8)) then
    Some [htonl_bytes type ++ htonl_bytes code ++ take (Z.to_nat length) data]
  else if 0 <=? metadata_sock then
    let chunk_ix := 0 in
    let chunk_total := wrap32 (length / size_wrap (sockmsglength - 24)) in
    let chunk_total :=
      if size_wrap (chunk_total * size_wrap (sockmsglength - 24)) <? length
      then wrap32 (chunk_total + 1) else chunk_total in
    chunk_loop (S (Z.to_nat length)) sockmsglength type code chunk_total
      chunk_ix length data
  else Some [].

(** The payload slice of a chunk datagram, and its two counters. *)
Definition chunk_payload (dgram : list ascii) : list ascii := drop 24 dgram.
Definition chunk_header (ix total type code : Z) : list ascii :=
  ssncchnk ++ htonl_bytes ix ++ htonl_bytes total ++ htonl_bytes type ++ htonl_bytes code.

End Multicast.

(* ================================================================== *)
(** * The message codec *)
(* ================================================================== *)

Module Codec.
Import CStr.

Inductive rtsp_read_request_response :=
| rtsp_read_request_response_ok
| rtsp_read_request_response_immediate_shutdown_requested
| rtsp_read_request_response_bad_packet
| rtsp_read_request_response_channel_closed
| rtsp_read_request_response_read_error
| rtsp_read_request_response_error.

(** [nextline(in, inbuf)] on a buffer holding exactly [inbuf] bytes: [None]
    for a NULL result; otherwise the bytes before the returned pointer, with
    the NULs parked on the line ending, and the bytes from the pointer on. *)
Fixpoint nextline (s : string) (inbuf : nat) : option (string * string) :=
  match inbuf, s with
  | S n, String c s' =>
      if Ascii.eqb c CR then
        match s' with
        | String c2 s'' =>
            if Ascii.eqb c2 LF && negb (n =? 0)%nat
            then Some (String NUL (String NUL EmptyString), s'')
            else Some (String NUL EmptyString, s')
        | EmptyString => Some (String NUL EmptyString, EmptyString)
        end
      else if Ascii.eqb c LF then Some (String NUL EmptyString, s')
      else
        match nextline s' n with
        | Some (l, r) => Some (String c l, r)
        | None => None
        end
  | _, _ => None
  end.

(** [msg_init]: a zeroed message with one reference; the second component
    is the global [msg_indexes] afterwards.  (Failure of [malloc] ends the
    process through [die].) *)
Definition msg_init (msg_indexes : Z) : rtsp_message * Z :=
  ({| index_number := msg_indexes; referenceCount := 1; headers := [];
      contentlength := 0; content := None; method := EmptyString;
      respcode := 0 |}, to_int (msg_indexes + 1)).

Definition set_headers (hs : list (string * string)) (m : rtsp_message) : rtsp_message :=
  {| index_number := index_number m; referenceCount := referenceCount m;
     headers := hs; contentlength := contentlength m; content := content m;
     method := method m; respcode := respcode m |}.

Definition set_method (s : string) (m : rtsp_message) : rtsp_message :=
  {| index_number := index_number m; referenceCount := referenceCount m;
     headers := headers m; contentlength := contentlength m; content := content m;
     method := s; respcode := respcode m |}.

Definition set_respcode (c : Z) (m : rtsp_message) : rtsp_message :=
  {| index_number := index_number m; referenceCount := referenceCount m;
     headers := headers m; contentlength := contentlength m; content := content m;
     method := method m; respcode := c |}.

Definition set_content (p : option string) (n : Z) (m : rtsp_message) : rtsp_message :=
  {| index_number := index_number m; referenceCount := referenceCount m;
     headers := headers m; contentlength := n; content := p;
     method := method m; respcode := respcode m |}.

(** [msg_add_header]: the return value and the message afterwards. *)
Definition msg_add_header (msg : rtsp_message) (name value : string)
    : Z * rtsp_message :=
  if 16 <=? nheaders msg then (1, msg)
  else (0, set_headers (headers msg ++ [(cstr name, cstr value)]) msg).

(** [msg_get_header]: the value of the first header whose name matches,
    case-insensitively. *)
Fixpoint get_header (hs : list (string * string)) (name : string) : option string :=
  match hs with
  | [] => None
  | (n, v) :: hs' => if strcaseeq n name then Some v else get_header hs' name
  end.

Definition msg_get_header (msg : rtsp_message) (name : string) : option string :=
  get_header (headers msg) name.

(** The tokens [strtok_r(line, " ", &sp)] yields one after another. *)
Definition strtok_tokens (line : string) : list string :=
  filter (fun t => t <> EmptyString) (strsep_fields [SP] (cstr line)).

(** [msg_handle_line(pmsg, line)]: the return value and [*pmsg] afterwards,
    together with [msg_indexes]. *)
Definition msg_handle_line (msg_indexes : Z) (pmsg : option rtsp_message)
    (line : string) : Z * option rtsp_message * Z :=
  match pmsg with
  | None =>
      let '(msg, msg_indexes) := msg_init msg_indexes in
      match strtok_tokens line with
      | p :: _ :: v :: _ =>
          let msg := set_method (stake 15 p) msg in
          if streq v "RTSP/1.0" then (-1, Some msg, msg_indexes)
          else (0, None, msg_indexes)
      | _ => (0, None, msg_indexes)
      end
  | Some msg =>
      if negb (strlen line =? 0) then
        match strstr line ": " with
        | None => (0, None, msg_indexes)
        | Some p =>
            let line := cstr line in
            (-1, Some (snd (msg_add_header msg (stake p line) (sdrop (p + 2) line))),
             msg_indexes)
        end
      else
        match msg_get_header msg "Content-Length" with
        | Some cl => (atoi cl, Some msg, msg_indexes)
        | None => (0, Some msg, msg_indexes)
        end
  end.

End Codec.

Module Reader.
Import CStr Codec.

(** What a call of [read] on the connection's socket does: [Arrives] with
    no bytes is end of file. *)
Inductive read_outcome :=
| Arrives (bytes : string)
| Fails (errno : Z).

(** What a turn of a read loop observes besides the socket: [conn->stop],
    which other threads set, and the clock. *)
Record turn_env := mk_turn_env { stop_seen : Z; time_now : Z }.

(** [read(fd, p, count)] against the socket: the return value, the bytes
    stored, [errno], and the socket afterwards (bytes beyond [count] stay
    available).  [None]: nothing will ever arrive, the call blocks. *)
Definition do_read (count : Z) (socket : list read_outcome)
    : option (Z * string * Z * list read_outcome) :=
  match socket with
  | [] => None
  | Fails errno :: socket' => Some (-1, EmptyString, errno, socket')
  | Arrives bytes :: socket' =>
      let n := Z.to_nat count in
      if (n <? String.length bytes)%nat then
        Some (count, stake n bytes, 0, Arrives (sdrop n bytes) :: socket')
      else Some (Z.of_nat (String.length bytes), bytes, 0, socket')
  end.

(** The inner [while (msg_size < 0 && (next = nextline(buf, inbuf)))] loop.
    [buf] holds the [inbuf] bytes read so far.  The first component of the
    result tells whether the loop was left through the [bad_packet] jump. *)
Fixpoint handle_lines (fuel : nat) (msg_indexes : Z) (buf : string)
    (the_packet : option rtsp_message) (msg_size : Z)
    : bool * string * option rtsp_message * Z * Z :=
  match fuel with
  | O => (false, buf, the_packet, msg_size, msg_indexes)
  | S fuel' =>
      if msg_size <? 0 then
        match nextline buf (String.length buf) with
        | Some (line, next) =>
            let '(msg_size, the_packet, msg_indexes) :=
              msg_handle_line msg_indexes the_packet line in
            match the_packet with
            | None => (true, buf, the_packet, msg_size, msg_indexes)
            | Some _ => handle_lines fuel' msg_indexes next the_packet msg_size
            end
        | None => (false, buf, the_packet, msg_size, msg_indexes)
        end
      else (false, buf, the_packet, msg_size, msg_indexes)
  end.

Record read_result := mk_read_result {
  reply : rtsp_read_request_response;
  packet : option rtsp_message;
  rr_socket : list read_outcome;
  rr_turn : nat;
  rr_msg_indexes : Z;
  stal_sent : bool
}.

(** The [shutdown:] label reached with a reply other than [ok]: the packet
    is released and NULL is handed back. *)
Definition shutdown (reply : rtsp_read_request_response)
    (socket : list read_outcome) (turn : nat) (msg_indexes : Z) (stal : bool)
    : option read_result :=
  Some {| reply := reply; packet := None; rr_socket := socket; rr_turn := turn;
          rr_msg_indexes := msg_indexes; stal_sent := stal |}.

(** The body loop, [while (inbuf < msg_size)].  [warning_message_sent]
    records that the [ssnc]/[stal] metadata item was published. *)
Fixpoint read_body (fuel : nat) (env : nat -> turn_env) (turn : nat)
    (socket : list read_outcome) (msg_indexes : Z) (threshold_time : Z)
    (warning_message_sent : bool) (buf : string) (msg_size : Z)
    (the_packet : option rtsp_message) : option read_result :=
  let inbuf := Z.of_nat (String.length buf) in
  if inbuf <? msg_size then
    match fuel with
    | O => None
    | S fuel' =>
        let warning_message_sent :=
          if negb warning_message_sent && (threshold_time <? time_now (env turn))
          then true else warning_message_sent in
        if negb (stop_seen (env turn) =? 0) then
          shutdown rtsp_read_request_response_immediate_shutdown_requested
            socket (S turn) msg_indexes warning_message_sent
        else
          let read_chunk := msg_size - inbuf in
          let read_chunk := if 65536 <? read_chunk then 65536 else read_chunk in
          match do_read read_chunk socket with
          | None => None
          | Some (nread, bytes, errno, socket') =>
              if nread =? 0 then
                shutdown rtsp_read_request_response_error socket' (S turn)
                  msg_indexes warning_message_sent
              else if nread <? 0 then
                if (errno =? EINTR) || (errno =? EAGAIN) then
                  read_body fuel' env (S turn) socket' msg_indexes threshold_time
                    warning_message_sent buf msg_size the_packet
                else
                  shutdown rtsp_read_request_response_read_error socket' (S turn)
                    msg_indexes warning_message_sent
              else
                read_body fuel' env (S turn) socket' msg_indexes threshold_time
                  warning_message_sent (buf +:+ bytes) msg_size the_packet
          end
    end
  else
    Some {| reply := rtsp_read_request_response_ok;
            packet := set_content (Some buf) inbuf <$> the_packet;
            rr_socket := socket; rr_turn := turn; rr_msg_indexes := msg_indexes;
            stal_sent := warning_message_sent |}.

(** The header loop, [while (msg_size < 0)], followed by the rest of
    [rtsp_read_request].  [realloc_ok] tells whether growing the buffer
    succeeds and [now] is the clock when the body phase starts. *)
Fixpoint read_headers (fuel : nat) (env : nat -> turn_env) (turn : nat)
    (socket : list read_outcome) (msg_indexes : Z) (realloc_ok : bool) (now : Z)
    (buflen : Z) (buf : string) (the_packet : option rtsp_message) (msg_size : Z)
    : option read_result :=
  if msg_size <? 0 then
    match fuel with
    | O => None
    | S fuel' =>
        if negb (stop_seen (env turn) =? 0) then
          shutdown rtsp_read_request_response_immediate_shutdown_requested
            socket (S turn) msg_indexes false
        else
          let inbuf := Z.of_nat (String.length buf) in
          match do_read (buflen - inbuf) socket with
          | None => None
          | Some (nread, bytes, errno, socket') =>
              if nread =? 0 then
                shutdown rtsp_read_request_response_channel_closed socket'
                  (S turn) msg_indexes false
              else if nread <? 0 then
                if (errno =? EINTR) || (errno =? EAGAIN) then
                  read_headers fuel' env (S turn) socket' msg_indexes realloc_ok
                    now buflen buf the_packet msg_size
                else
                  shutdown rtsp_read_request_response_read_error socket' (S turn)
                    msg_indexes false
              else
                let buf := buf +:+ bytes in
                let '(bad, buf, the_packet, msg_size, msg_indexes) :=
                  handle_lines (String.length buf) msg_indexes buf the_packet
                    msg_size in
                if bad then
                  shutdown rtsp_read_request_response_bad_packet socket' (S turn)
                    msg_indexes false
                else
                  read_headers fuel' env (S turn) socket' msg_indexes realloc_ok
                    now buflen buf the_packet msg_size
          end
    end
  else if (buflen <? msg_size) && negb realloc_ok then
    shutdown rtsp_read_request_response_error socket turn msg_indexes false
  else
    read_body fuel env turn socket msg_indexes (now + 15000000000) false buf
      msg_size the_packet.

(** [rtsp_read_request].  [malloc_ok] tells whether the first buffer could
    be allocated.  [None] is a call that has not returned within [fuel]
    turns of its loops (it blocks in [read] once the socket has nothing
    more to give). *)
Definition rtsp_read_request (fuel : nat) (env : nat -> turn_env)
    (socket : list read_outcome) (msg_indexes : Z) (malloc_ok realloc_ok : bool)
    (now : Z) : option read_result :=
  let buflen := 4096 in
  if negb malloc_ok then
    shutdown rtsp_read_request_response_error socket O msg_indexes false
  else
    read_headers fuel env O socket msg_indexes realloc_ok now buflen
      EmptyString None (-1).

End Reader.

(* ================================================================== *)
(** * Connections and the playing-connection slot *)
(* ================================================================== *)

Module Conn.

Inductive stream_type := ast_unknown | ast_uncompressed | ast_apple_lossless.

(** [conn->stream].  [fmtp] holds the twelve [fmtp[i]]; [aesiv] and [aeskey]
    are the two 16-byte arrays. *)
Record stream_cfg := mk_stream {
  type : stream_type;
  fmtp : list Z;
  encrypted : Z;
  aesiv : list ascii;
  aeskey : list ascii
}.

Definition set_type (t : stream_type) (s : stream_cfg) : stream_cfg :=
  {| type := t; fmtp := fmtp s; encrypted := encrypted s; aesiv := aesiv s;
     aeskey := aeskey s |}.
Definition set_fmtp (f : list Z) (s : stream_cfg) : stream_cfg :=
  {| type := type s; fmtp := f; encrypted := encrypted s; aesiv := aesiv s;
     aeskey := aeskey s |}.
Definition set_encrypted (e : Z) (s : stream_cfg) : stream_cfg :=
  {| type := type s; fmtp := fmtp s; encrypted := e; aesiv := aesiv s;
     aeskey := aeskey s |}.
Definition set_aesiv (b : list ascii) (s : stream_cfg) : stream_cfg :=
  {| type := type s; fmtp := fmtp s; encrypted := encrypted s; aesiv := b;
     aeskey := aeskey s |}.
Definition set_aeskey (b : list ascii) (s : stream_cfg) : stream_cfg :=
  {| type := type s; fmtp := fmtp s; encrypted := encrypted s; aesiv := aesiv s;
     aeskey := b |}.

(** The fields of [rtsp_conn_info] that the request engine reads or
    writes.  Strings owned by the connection are [None] when NULL;
    [player_thread] is the pointer, 0 when NULL. *)
Record rtsp_conn_info := mk_conn {
  connection_number : Z;
  stop : Z;
  authorized : Z;
  auth_nonce : option string;
  stream : stream_cfg;
  max_frames_per_packet : Z;
  input_rate : Z;
  input_num_channels : Z;
  input_bit_depth : Z;
  input_bytes_per_frame : Z;
  minimum_latency : Z;
  maximum_latency : Z;
  remote_control_port : Z;
  remote_timing_port : Z;
  local_audio_port : Z;
  local_control_port : Z;
  local_timing_port : Z;
  rtp_running : Z;
  dacp_id : option string;
  dacp_active_remote : option string;
  UserAgent : option string;
  AirPlayVersion : Z;
  player_thread : Z
}.

Definition set_stop (v : Z) (c : rtsp_conn_info) : rtsp_conn_info :=
  {| connection_number := connection_number c; stop := v;
     authorized := authorized c; auth_nonce := auth_nonce c; stream := stream c;
     max_frames_per_packet := max_frames_per_packet c;
     input_rate := input_rate c; input_num_channels := input_num_channels c;
     input_bit_depth := input_bit_depth c;
     input_bytes_per_frame := input_bytes_per_frame c;
     minimum_latency := minimum_latency c; maximum_latency := maximum_latency c;
     remote_control_port := remote_control_port c;
     remote_timing_port := remote_timing_port c;
     local_audio_port := local_audio_port c;
     local_control_port := local_control_port c;
     local_timing_port := local_timing_port c; rtp_running := rtp_running c;
     dacp_id := dacp_id c; dacp_active_remote := dacp_active_remote c;
     UserAgent := UserAgent c; AirPlayVersion := AirPlayVersion c;
     player_thread := player_thread c |}.
Definition set_authorized (v : Z) (c : rtsp_conn_info) : rtsp_conn_info :=
  {| connection_number := connection_number c; stop := stop c; authorized := v;
     auth_nonce := auth_nonce c; stream := stream c;
     max_frames_per_packet := max_frames_per_packet c;
     input_rate := input_rate c; input_num_channels := input_num_channels c;
     input_bit_depth := input_bit_depth c;
     input_bytes_per_frame := input_bytes_per_frame c;
     minimum_latency := minimum_latency c; maximum_latency := maximum_latency c;
     remote_control_port := remote_control_port c;
     remote_timing_port := remote_timing_port c;
     local_audio_port := local_audio_port c;
     local_control_port := local_control_port c;
     local_timing_port := local_timing_port c; rtp_running := rtp_running c;
     dacp_id := dacp_id c; dacp_active_remote := dacp_active_remote c;
     UserAgent := UserAgent c; AirPlayVersion := AirPlayVersion c;
     player_thread := player_thread c |}.
Definition set_auth_nonce (v : option string) (c : rtsp_conn_info) : rtsp_conn_info :=
  {| connection_number := connection_number c; stop := stop c;
     authorized := authorized c; auth_nonce := v; stream := stream c;
     max_frames_per_packet := max_frames_per_packet c;
     input_rate := input_rate c; input_num_channels := input_num_channels c;
     input_bit_depth := input_bit_depth c;
     input_bytes_per_frame := input_bytes_per_frame c;
     minimum_latency := minimum_latency c; maximum_latency := maximum_latency c;
     remote_control_port := remote_control_port c;
     remote_timing_port := remote_timing_port c;
     local_audio_port := local_audio_port c;
     local_control_port := local_control_port c;
     local_timing_port := local_timing_port c; rtp_running := rtp_running c;
     dacp_id := dacp_id c; dacp_active_remote := dacp_active_remote c;
     UserAgent := UserAgent c; AirPlayVersion := AirPlayVersion c;
     player_thread := player_thread c |}.
Definition set_stream (v : stream_cfg) (c : rtsp_conn_info) : rtsp_conn_info :=
  {| connection_number := connection_number c; stop := stop c;
     authorized := authorized c; auth_nonce := auth_nonce c; stream := v;
     max_frames_per_packet := max_frames_per_packet c;
     input_rate := input_rate c; input_num_channels := input_num_channels c;
     input_bit_depth := input_bit_depth c;
     input_bytes_per_frame := input_bytes_per_frame c;
     minimum_latency := minimum_latency c; maximum_latency := maximum_latency c;
     remote_control_port := remote_control_port c;
     remote_timing_port := remote_timing_port c;
     local_audio_port := local_audio_port c;
     local_control_port := local_control_port c;
     local_timing_port := local_timing_port c; rtp_running := rtp_running c;
     dacp_id := dacp_id c; dacp_active_remote := dacp_active_remote c;
     UserAgent := UserAgent c; AirPlayVersion := AirPlayVersion c;
     player_thread := player_thread c |}.
Definition set_max_frames_per_packet (v : Z) (c : rtsp_conn_info) : rtsp_conn_info :=
  {| connection_number := connection_number c; stop := stop c;
     authorized := authorized c; auth_nonce := auth_nonce c; stream := stream c;
     max_frames_per_packet := v; input_rate := input_rate c;
     input_num_channels := input_num_channels c;
     input_bit_depth := input_bit_depth c;
     input_bytes_per_frame := input_bytes_per_frame c;
     minimum_latency := minimum_latency c; maximum_latency := maximum_latency c;
     remote_control_port := remote_control_port c;
     remote_timing_port := remote_timing_port c;
     local_audio_port := local_audio_port c;
     local_control_port := local_control_port c;
     local_timing_port := local_timing_port c; rtp_running := rtp_running c;
     dacp_id := dacp_id c; dacp_active_remote := dacp_active_remote c;
     UserAgent := UserAgent c; AirPlayVersion := AirPlayVersion c;
     player_thread := player_thread c |}.
Definition set_input_rate (v : Z) (c : rtsp_conn_info) : rtsp_conn_info :=
  {| connection_number := connection_number c; stop := stop c;
     authorized := authorized c; auth_nonce := auth_nonce c; stream := stream c;
     max_frames_per_packet := max_frames_per_packet c; input_rate := v;
     input_num_channels := input_num_channels c;
     input_bit_depth := input_bit_depth c;
     input_bytes_per_frame := input_bytes_per_frame c;
     minimum_latency := minimum_latency c; maximum_latency := maximum_latency c;
     remote_control_port := remote_control_port c;
     remote_timing_port := remote_timing_port c;
     local_audio_port := local_audio_port c;
     local_control_port := local_control_port c;
     local_timing_port := local_timing_port c; rtp_running := rtp_running c;
     dacp_id := dacp_id c; dacp_active_remote := dacp_active_remote c;
     UserAgent := UserAgent c; AirPlayVersion := AirPlayVersion c;
     player_thread := player_thread c |}.
Definition set_input_num_channels (v : Z) (c : rtsp_conn_info) : rtsp_conn_info :=
  {| connection_number := connection_number c; stop := stop c;
     authorized := authorized c; auth_nonce := auth_nonce c; stream := stream c;
     max_frames_per_packet := max_frames_per_packet c;
     input_rate := input_rate c; input_num_channels := v;
     input_bit_depth := input_bit_depth c;
     input_bytes_per_frame := input_bytes_per_frame c;
     minimum_latency := minimum_latency c; maximum_latency := maximum_latency c;
     remote_control_port := remote_control_port c;
     remote_timing_port := remote_timing_port c;
     local_audio_port := local_audio_port c;
     local_control_port := local_control_port c;
     local_timing_port := local_timing_port c; rtp_running := rtp_running c;
     dacp_id := dacp_id c; dacp_active_remote := dacp_active_remote c;
     UserAgent := UserAgent c; AirPlayVersion := AirPlayVersion c;
     player_thread := player_thread c |}.
Definition set_input_bit_depth (v : Z) (c : rtsp_conn_info) : rtsp_conn_info :=
  {| connection_number := connection_number c; stop := stop c;
     authorized := authorized c; auth_nonce := auth_nonce c; stream := stream c;
     max_frames_per_packet := max_frames_per_packet c;
     input_rate := input_rate c; input_num_channels := input_num_channels c;
     input_bit_depth := v; input_bytes_per_frame := input_bytes_per_frame c;
     minimum_latency := minimum_latency c; maximum_latency := maximum_latency c;
     remote_control_port := remote_control_port c;
     remote_timing_port := remote_timing_port c;
     local_audio_port := local_audio_port c;
     local_control_port := local_control_port c;
     local_timing_port := local_timing_port c; rtp_running := rtp_running c;
     dacp_id := dacp_id c; dacp_active_remote := dacp_active_remote c;
     UserAgent := UserAgent c; AirPlayVersion := AirPlayVersion c;
     player_thread := player_thread c |}.
Definition set_input_bytes_per_frame (v : Z) (c : rtsp_conn_info) : rtsp_conn_info :=
  {| connection_number := connection_number c; stop := stop c;
     authorized := authorized c; auth_nonce := auth_nonce c; stream := stream c;
     max_frames_per_packet := max_frames_per_packet c;
     input_rate := input_rate c; input_num_channels := input_num_channels c;
     input_bit_depth := input_bit_depth c; input_bytes_per_frame := v;
     minimum_latency := minimum_latency c; maximum_latency := maximum_latency c;
     remote_control_port := remote_control_port c;
     remote_timing_port := remote_timing_port c;
     local_audio_port := local_audio_port c;
     local_control_port := local_control_port c;
     local_timing_port := local_timing_port c; rtp_running := rtp_running c;
     dacp_id := dacp_id c; dacp_active_remote := dacp_active_remote c;
     UserAgent := UserAgent c; AirPlayVersion := AirPlayVersion c;
     player_thread := player_thread c |}.
Definition set_minimum_latency (v : Z) (c : rtsp_conn_info) : rtsp_conn_info :=
  {| connection_number := connection_number c; stop := stop c;
     authorized := authorized c; auth_nonce := auth_nonce c; stream := stream c;
     max_frames_per_packet := max_frames_per_packet c;
     input_rate := input_rate c; input_num_channels := input_num_channels c;
     input_bit_depth := input_bit_depth c;
     input_bytes_per_frame := input_bytes_per_frame c; minimum_latency := v;
     maximum_latency := maximum_latency c;
     remote_control_port := remote_control_port c;
     remote_timing_port := remote_timing_port c;
     local_audio_port := local_audio_port c;
     local_control_port := local_control_port c;
     local_timing_port := local_timing_port c; rtp_running := rtp_running c;
     dacp_id := dacp_id c; dacp_active_remote := dacp_active_remote c;
     UserAgent := UserAgent c; AirPlayVersion := AirPlayVersion c;
     player_thread := player_thread c |}.
Definition set_maximum_latency (v : Z) (c : rtsp_conn_info) : rtsp_conn_info :=
  {| connection_number := connection_number c; stop := stop c;
     authorized := authorized c; auth_nonce := auth_nonce c; stream := stream c;
     max_frames_per_packet := max_frames_per_packet c;
     input_rate := input_rate c; input_num_channels := input_num_channels c;
     input_bit_depth := input_bit_depth c;
     input_bytes_per_frame := input_bytes_per_frame c;
     minimum_latency := minimum_latency c; maximum_latency := v;
     remote_control_port := remote_control_port c;
     remote_timing_port := remote_timing_port c;
     local_audio_port := local_audio_port c;
     local_control_port := local_control_port c;
     local_timing_port := local_timing_port c; rtp_running := rtp_running c;
     dacp_id := dacp_id c; dacp_active_remote := dacp_active_remote c;
     UserAgent := UserAgent c; AirPlayVersion := AirPlayVersion c;
     player_thread := player_thread c |}.
Definition set_dacp_id (v : option string) (c : rtsp_conn_info) : rtsp_conn_info :=
  {| connection_number := connection_number c; stop := stop c;
     authorized := authorized c; auth_nonce := auth_nonce c; stream := stream c;
     max_frames_per_packet := max_frames_per_packet c;
     input_rate := input_rate c; input_num_channels := input_num_channels c;
     input_bit_depth := input_bit_depth c;
     input_bytes_per_frame := input_bytes_per_frame c;
     minimum_latency := minimum_latency c; maximum_latency := maximum_latency c;
     remote_control_port := remote_control_port c;
     remote_timing_port := remote_timing_port c;
     local_audio_port := local_audio_port c;
     local_control_port := local_control_port c;
     local_timing_port := local_timing_port c; rtp_running := rtp_running c;
     dacp_id := v; dacp_active_remote := dacp_active_remote c;
     UserAgent := UserAgent c; AirPlayVersion := AirPlayVersion c;
     player_thread := player_thread c |}.
Definition set_dacp_active_remote (v : option string) (c : rtsp_conn_info) : rtsp_conn_info :=
  {| connection_number := connection_number c; stop := stop c;
     authorized := authorized c; auth_nonce := auth_nonce c; stream := stream c;
     max_frames_per_packet := max_frames_per_packet c;
     input_rate := input_rate c; input_num_channels := input_num_channels c;
     input_bit_depth := input_bit_depth c;
     input_bytes_per_frame := input_bytes_per_frame c;
     minimum_latency := minimum_latency c; maximum_latency := maximum_latency c;
     remote_control_port := remote_control_port c;
     remote_timing_port := remote_timing_port c;
     local_audio_port := local_audio_port c;
     local_control_port := local_control_port c;
     local_timing_port := local_timing_port c; rtp_running := rtp_running c;
     dacp_id := dacp_id c; dacp_active_remote := v; UserAgent := UserAgent c;
     AirPlayVersion := AirPlayVersion c; player_thread := player_thread c |}.
Definition set_UserAgent (v : option string) (c : rtsp_conn_info) : rtsp_conn_info :=
  {| connection_number := connection_number c; stop := stop c;
     authorized := authorized c; auth_nonce := auth_nonce c; stream := stream c;
     max_frames_per_packet := max_frames_per_packet c;
     input_rate := input_rate c; input_num_channels := input_num_channels c;
     input_bit_depth := input_bit_depth c;
     input_bytes_per_frame := input_bytes_per_frame c;
     minimum_latency := minimum_latency c; maximum_latency := maximum_latency c;
     remote_control_port := remote_control_port c;
     remote_timing_port := remote_timing_port c;
     local_audio_port := local_audio_port c;
     local_control_port := local_control_port c;
     local_timing_port := local_timing_port c; rtp_running := rtp_running c;
     dacp_id := dacp_id c; dacp_active_remote := dacp_active_remote c;
     UserAgent := v; AirPlayVersion := AirPlayVersion c;
     player_thread := player_thread c |}.
Definition set_AirPlayVersion (v : Z) (c : rtsp_conn_info) : rtsp_conn_info :=
  {| connection_number := connection_number c; stop := stop c;
     authorized := authorized c; auth_nonce := auth_nonce c; stream := stream c;
     max_frames_per_packet := max_frames_per_packet c;
     input_rate := input_rate c; input_num_channels := input_num_channels c;
     input_bit_depth := input_bit_depth c;
     input_bytes_per_frame := input_bytes_per_frame c;
     minimum_latency := minimum_latency c; maximum_latency := maximum_latency c;
     remote_control_port := remote_control_port c;
     remote_timing_port := remote_timing_port c;
     local_audio_port := local_audio_port c;
     local_control_port := local_control_port c;
     local_timing_port := local_timing_port c; rtp_running := rtp_running c;
     dacp_id := dacp_id c; dacp_active_remote := dacp_active_remote c;
     UserAgent := UserAgent c; AirPlayVersion := v;
     player_thread := player_thread c |}.

(** The process-wide slot and what [handle_announce] touches through it:
    [playing_conn] holds the address of the owning connection ([None] for
    NULL), [stop_flag p] is [p->stop] of the connection at address [p], and
    [cancelled] lists the threads sent [pthread_cancel]. *)
Record slot := mk_slot {
  playing_conn : option Z;
  stop_flag : Z -> Z;
  cancelled : list Z
}.

Definition set_playing_conn (p : option Z) (g : slot) : slot :=
  {| playing_conn := p; stop_flag := stop_flag g; cancelled := cancelled g |}.

(** [have_player(conn)]. *)
Definition have_player (g : slot) (conn : Z) : bool :=
  bool_decide (playing_conn g = Some conn).

End Conn.

(* ================================================================== *)
(** * External collaborators *)
(* ================================================================== *)

Inductive rsa_mode := RSA_MODE_KEY | RSA_MODE_AUTH.

(** Functions of other translation units ([rtp.c], [common.c]) that the
    handlers call.  A pointer argument or result that may be NULL is an
    [option]; a byte buffer comes with its length. *)
Record externals := mk_externals {
  rtp_setup : Z -> Z -> Conn.rtsp_conn_info -> Conn.rtsp_conn_info;
  player_play : Conn.rtsp_conn_info -> Conn.rtsp_conn_info;
  player_stop : Conn.rtsp_conn_info -> Conn.rtsp_conn_info;
  player_flush : Z -> Conn.rtsp_conn_info -> Conn.rtsp_conn_info;
  (* [player_volume(atof(text), conn)]: the text is passed on, the floating
     point value [atof] makes of it is not modelled *)
  player_volume : string -> Conn.rtsp_conn_info -> Conn.rtsp_conn_info;
  base64_dec : option string -> option (list ascii);
  base64_enc : list ascii -> option string;
  rsa_apply : option (list ascii) -> rsa_mode -> list ascii;
  md5 : string -> list ascii
}.

(** The first [n] elements of a C array, read one by one. *)
Definition bytes_n (n : nat) (l : list ascii) : list ascii :=
  map (fun i => default CStr.NUL (l !! i)) (seq 0 n).

(* ================================================================== *)
(** * Method handlers *)
(* ================================================================== *)

Module Handlers.
Import CStr Codec Conn Metadata.

(** A multi-character constant such as ['ssnc']. *)
Definition fourcc (s : string) : Z :=
  foldl (fun acc c => acc * 256 + code c) 0 (String.list_ascii_of_string s).

(** What a handler is given besides the connection and the two messages:
    the configuration, the external functions, the answers of the
    environment to the k-th call of [send_metadata], the value an
    uninitialised [rc] holds, what other threads do to the slot before the
    k-th time the handler takes [playing_conn_lock], whether [malloc]
    succeeds, and the address at which the request holds a given text. *)
Record handler_env := mk_henv {
  cfg : configuration;
  ext : externals;
  md_env : nat -> sink -> sink_env;
  rc_uninit : Z;
  interference : nat -> slot -> slot;
  malloc_ok : bool;
  value_addr : string -> Z
}.

(** The state a handler works on.  [rtp_setup_calls], [udp_port_resets] and
    [slot_writes] record the calls of [rtp_setup] and [resetFreeUDPPort]
    and the assignments to [playing_conn] made so far. *)
Record hstate := mk_hstate {
  h_conn : rtsp_conn_info;
  h_resp : rtsp_message;
  h_slot : slot;
  h_md : md_state;
  rtp_setup_calls : list (Z * Z);
  udp_port_resets : nat;
  slot_writes : list (option Z)
}.

Definition with_conn (c : rtsp_conn_info) (s : hstate) : hstate :=
  {| h_conn := c; h_resp := h_resp s; h_slot := h_slot s; h_md := h_md s;
     rtp_setup_calls := rtp_setup_calls s; udp_port_resets := udp_port_resets s;
     slot_writes := slot_writes s |}.
Definition with_resp (r : rtsp_message) (s : hstate) : hstate :=
  {| h_conn := h_conn s; h_resp := r; h_slot := h_slot s; h_md := h_md s;
     rtp_setup_calls := rtp_setup_calls s; udp_port_resets := udp_port_resets s;
     slot_writes := slot_writes s |}.
Definition with_slot (g : slot) (s : hstate) : hstate :=
  {| h_conn := h_conn s; h_resp := h_resp s; h_slot := g; h_md := h_md s;
     rtp_setup_calls := rtp_setup_calls s; udp_port_resets := udp_port_resets s;
     slot_writes := slot_writes s |}.
Definition with_md (m : md_state) (s : hstate) : hstate :=
  {| h_conn := h_conn s; h_resp := h_resp s; h_slot := h_slot s; h_md := m;
     rtp_setup_calls := rtp_setup_calls s; udp_port_resets := udp_port_resets s;
     slot_writes := slot_writes s |}.
Definition log_rtp_setup (c t : Z) (s : hstate) : hstate :=
  {| h_conn := h_conn s; h_resp := h_resp s; h_slot := h_slot s; h_md := h_md s;
     rtp_setup_calls := rtp_setup_calls s ++ [(c, t)];
     udp_port_resets := udp_port_resets s; slot_writes := slot_writes s |}.
Definition log_udp_reset (s : hstate) : hstate :=
  {| h_conn := h_conn s; h_resp := h_resp s; h_slot := h_slot s; h_md := h_md s;
     rtp_setup_calls := rtp_setup_calls s; udp_port_resets := S (udp_port_resets s);
     slot_writes := slot_writes s |}.

(** [playing_conn = p;] *)
Definition write_slot (p : option Z) (s : hstate) : hstate :=
  {| h_conn := h_conn s; h_resp := h_resp s;
     h_slot := set_playing_conn p (h_slot s); h_md := h_md s;
     rtp_setup_calls := rtp_setup_calls s; udp_port_resets := udp_port_resets s;
     slot_writes := slot_writes s ++ [p] |}.

(** Other threads run before the handler takes [playing_conn_lock] for the
    k-th time. *)
Definition take_slot_lock (E : handler_env) (k : nat) (s : hstate) : hstate :=
  with_slot (interference E k (h_slot s)) s.

(** The k-th [send_metadata(...)] of a handler; the return value is
    dropped.  [data] is the address passed and [data_bytes] the bytes there. *)
Definition send (E : handler_env) (k : nat) (type code : Z) (data : Z)
    (data_bytes : list ascii) (length : Z) (carrier : Z) (block : Z) (s : hstate)
    : hstate :=
  let '(_, md) :=
    send_metadata (cfg E) (md_env E k) (rc_uninit E) type code data data_bytes
      length carrier block (h_md s) in
  with_md md s.

(** [send_metadata(type, code, data, strlen(data), req, 1)] on a text held
    by the request. *)
Definition publish (E : handler_env) (k : nat) (type code : string)
    (data : string) (req : Z) (s : hstate) : hstate :=
  send E k (fourcc type) (fourcc code) (value_addr E data)
    (String.list_ascii_of_string (cstr data)) (strlen data) req 1 s.

(** The release of the slot at the end of a failed handler: under the lock
    taken for the k-th time, [if (playing_conn == conn) playing_conn = NULL]. *)
Definition release_slot (E : handler_env) (k : nat) (conn : Z) (s : hstate) : hstate :=
  let s := take_slot_lock E k s in
  if have_player (h_slot s) conn then write_slot None s else s.

(** [handle_get_parameter]. *)
Definition handle_get_parameter (E : handler_env) (conn : Z) (reqp : Z)
    (req : rtsp_message) (s : hstate) : hstate :=
  let resp := h_resp s in
  let resp :=
    match content req with
    | Some c =>
        if (contentlength req =? strlen ("volume" +:+ CRLF))
           && bool_decide (strstr c "volume" = Some O)
        then
          if malloc_ok E then
            let text :=
              CRLF +:+ "volume: " +:+ airplay_volume_text (cfg E) +:+ CRLF in
            set_content (Some (stake 127 text)) (Z.of_nat (String.length text)) resp
          else resp
        else resp
    | None => resp
    end in
  with_resp (set_respcode 200 resp) s.

(** The port number after ["control_port="] or ["timing_port="] in a
    [Transport] header, converted to [uint16_t]; [None] when the key is
    absent.  ([strchr(p, '=') + 1] is the text right after the key.) *)
Definition port_after (hdr key : string) : option Z :=
  match strstr hdr key with
  | Some p => Some (wrap16 (atoi (sdrop (p + String.length key) (cstr hdr))))
  | None => None
  end.

(** The first part of [handle_setup]: the [Active-Remote] and [DACP-ID]
    headers are copied into the connection and published. *)
Definition setup_identity (E : handler_env) (reqp : Z) (req : rtsp_message)
    (s : hstate) : hstate :=
  let s :=
    match msg_get_header req "Active-Remote" with
    | Some ar =>
        publish E 0 "ssnc" "acre" ar reqp
          (with_conn (set_dacp_active_remote (Some ar) (h_conn s)) s)
    | None => with_conn (set_dacp_active_remote None (h_conn s)) s
    end in
  match msg_get_header req "DACP-ID" with
  | Some ar =>
      publish E 1 "ssnc" "daid" ar reqp
        (with_conn (set_dacp_id (Some ar) (h_conn s)) s)
  | None => with_conn (set_dacp_id None (h_conn s)) s
  end.

(** The second part: the [Transport] header, the RTP set-up and the
    answer. *)
Definition setup_transport (E : handler_env) (req : rtsp_message) (s : hstate)
    : hstate :=
  match msg_get_header req "Transport" with
  | Some hdr =>
      match port_after hdr "control_port=" with
      | Some cport =>
          match port_after hdr "timing_port=" with
          | Some tport =>
              let s :=
                (* a running RTP session: both arms of the comparison of
                   the old and new ports only warn *)
                if negb (rtp_running (h_conn s) =? 0) then s
                else
                  log_rtp_setup cport tport
                    (with_conn (rtp_setup (ext E) cport tport (h_conn s)) s) in
              if negb (local_audio_port (h_conn s) =? 0) then
                let resphdr :=
                  stake 255
                    ("RTP/AVP/UDP;unicast;interleaved=0-1;mode=record;control_port="
                     +:+ fmt_d (local_control_port (h_conn s))
                     +:+ ";timing_port=" +:+ fmt_d (local_timing_port (h_conn s))
                     +:+ ";server_port=" +:+ fmt_d (local_audio_port (h_conn s))) in
                let resp := snd (msg_add_header (h_resp s) "Transport" resphdr) in
                let resp := snd (msg_add_header resp "Session" "1") in
                with_resp (set_respcode 200 resp) s
              else s
          | None => s
          end
      | None => s
      end
  | None => s
  end.

(** [handle_setup]. *)
Definition handle_setup (E : handler_env) (conn : Z) (reqp : Z)
    (req : rtsp_message) (s : hstate) : hstate :=
  let s := with_resp (set_respcode 451 (h_resp s)) s in
  let s := take_slot_lock E 0 s in
  if have_player (h_slot s) conn then
    let s := setup_identity E reqp req s in
    let s := setup_transport E req s in
    if negb (respcode (h_resp s) =? 200) then release_slot E 1 conn s else s
  else s.

(** The pointers [handle_announce] collects while it walks the SDP lines;
    each is the C string that starts right after the matched key. *)
Record sdp_ptrs := mk_sdp {
  pssid : option string;
  paesiv : option string;
  prsaaeskey : option string;
  pfmtp : option string;
  pminlatency : option string;
  pmaxlatency : option string;
  pUncompressedCDAudio : option string
}.

Definition no_sdp_ptrs : sdp_ptrs :=
  {| pssid := None; paesiv := None; prsaaeskey := None; pfmtp := None;
     pminlatency := None; pmaxlatency := None; pUncompressedCDAudio := None |}.

(** [cp + strlen(key)] when [strncmp(cp, key, strlen(key))] is 0, the old
    pointer otherwise. *)
Definition after_key (key : string) (cp : string) (old : option string)
    : option string :=
  if has_prefix key cp then Some (sdrop (String.length key) (cstr cp)) else old.

(** The seven [strncmp] tests made on one line. *)
Definition sdp_line (cp : string) (p : sdp_ptrs) : sdp_ptrs :=
  {| pUncompressedCDAudio :=
       after_key "a=rtpmap:96 L16/44100/2" cp (pUncompressedCDAudio p);
     pssid := after_key "o=iTunes" cp (pssid p);
     pfmtp := after_key "a=fmtp:" cp (pfmtp p);
     paesiv := after_key "a=aesiv:" cp (paesiv p);
     prsaaeskey := after_key "a=rsaaeskey:" cp (prsaaeskey p);
     pminlatency := after_key "a=min-latency:" cp (pminlatency p);
     pmaxlatency := after_key "a=max-latency:" cp (pmaxlatency p) |}.

(** [while (cp_left && cp)]: [cp] is the content from the current line on.
    A NULL result of [nextline] ends the loop after the line is examined. *)
Fixpoint sdp_scan (fuel : nat) (cp : string) (cp_left : Z) (p : sdp_ptrs)
    : sdp_ptrs :=
  match fuel with
  | O => p
  | S fuel' =>
      if cp_left =? 0 then p
      else
        match nextline cp (Z.to_nat cp_left) with
        | Some (line, next) =>
            sdp_scan fuel' next (cp_left - Z.of_nat (String.length line))
              (sdp_line line p)
        | None => sdp_line cp p
        end
  end.

Definition fmtp_defaults : list Z :=
  [96; 352; 0; 16; 40; 10; 14; 2; 255; 0; 0; 44100].

(** [while ((found = strsep(&pfmtp, " \t")) != NULL && i < max_param)
      conn->stream.fmtp[i++] = atoi(found);] over the fields still to come. *)
Fixpoint store_fmtp (fields : list string) (i : nat) (fmtp : list Z) : list Z :=
  match fields with
  | [] => fmtp
  | found :: rest =>
      if (i <? 12)%nat then store_fmtp rest (S i) (<[i := atoi found]> fmtp)
      else fmtp
  end.

Definition fmtp_at (c : rtsp_conn_info) (i : nat) : Z :=
  default 0 (fmtp (stream c) !! i).

(** [channels * ((depth + 7) / 8)] in [int] arithmetic. *)
Definition bytes_per_frame (channels depth : Z) : Z :=
  to_int (channels * Z.quot (to_int (depth + 7)) 8).

(** The wait for the slot: [while ((time_remaining > 0) && (have_the_player
    == 0))].  [k] counts the times the lock has been taken. *)
Fixpoint wait_for_slot (fuel : nat) (E : handler_env) (conn : Z) (k : nat)
    (time_remaining : Z) (have_the_player : Z) (s : hstate)
    : option (Z * nat * hstate) :=
  if (0 <? time_remaining) && (have_the_player =? 0) then
    match fuel with
    | O => None
    | S fuel' =>
        let s := take_slot_lock E k s in
        let '(have_the_player, s) :=
          match playing_conn (h_slot s) with
          | None => (1, write_slot (Some conn) s)
          | Some _ => (have_the_player, s)
          end in
        let time_remaining :=
          if have_the_player =? 0 then time_remaining - 100000 else time_remaining in
        wait_for_slot fuel' E conn (S k) time_remaining have_the_player s
    end
  else Some (have_the_player, k, s).

(** The walk over the SDP lines of the request body. *)
Definition announce_sdp (req : rtsp_message) : sdp_ptrs :=
  match content req with
  | Some cp => sdp_scan (S (String.length cp)) cp (contentlength req) no_sdp_ptrs
  | None => no_sdp_ptrs
  end.

(** What follows the walk: an uncompressed stream, the latencies and
    whether the session is encrypted. *)
Definition announce_codec (p : sdp_ptrs) (c : rtsp_conn_info) : rtsp_conn_info :=
  let c :=
    match pUncompressedCDAudio p with
    | Some _ =>
        let c := set_stream (set_type ast_uncompressed (stream c)) c in
        let c := set_max_frames_per_packet 352 c in
        let c := set_input_rate 44100 c in
        let c := set_input_num_channels 2 c in
        let c := set_input_bit_depth 16 c in
        set_input_bytes_per_frame
          (bytes_per_frame (input_num_channels c) (input_bit_depth c)) c
    | None => c
    end in
  let c := match pminlatency p with
           | Some t => set_minimum_latency (atoi t) c | None => c end in
  let c := match pmaxlatency p with
           | Some t => set_maximum_latency (atoi t) c | None => c end in
  match paesiv p, prsaaeskey p with
  | None, None => set_stream (set_encrypted 0 (stream c)) c
  | _, _ => set_stream (set_encrypted 1 (stream c)) c
  end.

(** The key material of an encrypted session; [false] is a [goto out]. *)
Definition announce_keys (X : externals) (p : sdp_ptrs) (c : rtsp_conn_info)
    : bool * rtsp_conn_info :=
  if negb (encrypted (stream c) =? 0) then
    match base64_dec X (paesiv p) with
    | Some iv =>
        if negb (Z.of_nat (length iv) =? 16) then (false, c)
        else
          let c := set_stream (set_aesiv iv (stream c)) c in
          let rsaaeskey := base64_dec X (prsaaeskey p) in
          let aeskey := rsa_apply X rsaaeskey RSA_MODE_KEY in
          if negb (Z.of_nat (length aeskey) =? 16) then (false, c)
          else (true, set_stream (set_aeskey aeskey (stream c)) c)
    | None => (false, c)
    end
  else (true, c).

(** [if (pfmtp)]: an Apple Lossless stream and its parameters. *)
Definition announce_fmtp (p : sdp_ptrs) (c : rtsp_conn_info) : rtsp_conn_info :=
  match pfmtp p with
  | Some f =>
      let c := set_stream (set_type ast_apple_lossless (stream c)) c in
      let c := set_stream (set_fmtp fmtp_defaults (stream c)) c in
      let c :=
        set_stream
          (set_fmtp (store_fmtp (strsep_fields [SP; TAB] f) 0 (fmtp (stream c)))
             (stream c)) c in
      let c := set_max_frames_per_packet (fmtp_at c 1) c in
      let c := set_input_rate (fmtp_at c 11) c in
      let c := set_input_num_channels (fmtp_at c 7) c in
      let c := set_input_bit_depth (fmtp_at c 3) c in
      set_input_bytes_per_frame
        (bytes_per_frame (input_num_channels c) (input_bit_depth c)) c
  | None => c
  end.

(** The client name and the user agent of an accepted ANNOUNCE. *)
Definition announce_identity (E : handler_env) (reqp : Z) (req : rtsp_message)
    (s : hstate) : hstate :=
  let s :=
    match msg_get_header req "X-Apple-Client-Name" with
    | Some hdr => publish E 0 "ssnc" "snam" hdr reqp s
    | None => s
    end in
  match msg_get_header req "User-Agent" with
  | Some hdr =>
      let c := set_UserAgent (Some hdr) (h_conn s) in
      let c :=
        match strstr hdr "AirPlay" with
        | Some i =>
            match strchr (sdrop i hdr) "/" with
            | Some j => set_AirPlayVersion (atoi (sdrop (i + j + 1) hdr)) c
            | None => c
            end
        | None => c
        end in
      publish E 1 "ssnc" "snua" hdr reqp (with_conn c s)
  | None => s
  end.

(** The part of [handle_announce] that runs with the player in hand, up to
    the [out:] label.  A [goto out] is a return with the response code
    still at 456. *)
Definition announce_with_player (E : handler_env) (reqp : Z)
    (req : rtsp_message) (interrupting_current_session : Z) (s : hstate) : hstate :=
  let s := if interrupting_current_session =? 0 then log_udp_reset s else s in
  let c := set_stream (set_type ast_unknown (stream (h_conn s))) (h_conn s) in
  let s := with_resp (set_respcode 456 (h_resp s)) (with_conn c s) in
  let p := announce_sdp req in
  let '(keyed, c) := announce_keys (ext E) p (announce_codec p (h_conn s)) in
  if keyed then
    let c := announce_fmtp p c in
    let s := with_conn c s in
    match type (stream c) with
    | ast_unknown => s
    | _ =>
        let s := announce_identity E reqp req s in
        with_resp (set_respcode 200 (h_resp s)) s
    end
  else with_conn c s.

(** The first look at the slot, under the lock: [have_the_player],
    [should_wait], [interrupting_current_session] and the state. *)
Definition announce_claim (E : handler_env) (conn : Z) (s : hstate)
    : Z * Z * Z * hstate :=
  let g := h_slot s in
  match playing_conn g with
  | None => (1, 0, 0, write_slot (Some conn) s)
  | Some holder =>
      if holder =? conn then (1, 0, 0, s)
      else if negb (stop_flag g holder =? 0) then (0, 1, 0, s)
      else if allow_session_interruption (cfg E) =? 1 then
        (0, 1, 1,
         with_slot
           {| playing_conn := playing_conn g;
              stop_flag := fun q => if q =? holder then 1 else stop_flag g q;
              cancelled := cancelled g ++ [holder] |} s)
      else (0, 0, 0, s)
  end.

(** From [if (have_the_player)] to the end, the [out:] label included. *)
Definition announce_finish (E : handler_env) (conn reqp : Z) (req : rtsp_message)
    (interrupting_current_session have_the_player : Z) (k : nat) (s : hstate)
    : hstate :=
  let s :=
    if negb (have_the_player =? 0) then
      announce_with_player E reqp req interrupting_current_session s
    else with_resp (set_respcode 453 (h_resp s)) s in
  if negb (respcode (h_resp s) =? 200) && negb (respcode (h_resp s) =? 453)
  then release_slot E k conn s else s.

(** [handle_announce].  [None] would be a wait loop that has not ended
    after thirty polls. *)
Definition handle_announce (E : handler_env) (conn : Z) (reqp : Z)
    (req : rtsp_message) (s : hstate) : option hstate :=
  let '(have_the_player, should_wait, interrupting_current_session, s) :=
    announce_claim E conn (take_slot_lock E 0 s) in
  let waited :=
    if negb (should_wait =? 0) then
      wait_for_slot 30 E conn 1 3000000 have_the_player s
    else Some (have_the_player, 1%nat, s) in
  match waited with
  | None => None
  | Some (have_the_player, k, s) =>
      Some (announce_finish E conn reqp req interrupting_current_session
              have_the_player k s)
  end.

(** The text after ["rtptime="] in the [RTP-Info] header: [p = strstr(hdr,
    "rtptime="); if (p) p = strchr(p, '=');] and then [p + 1]. *)
Definition rtptime_text (req : rtsp_message) : option string :=
  match msg_get_header req "RTP-Info" with
  | Some hdr =>
      match strstr hdr "rtptime=" with
      | Some i => Some (sdrop (i + 8) (cstr hdr))
      | None => None
      end
  | None => None
  end.

(** [handle_record]. *)
Definition handle_record (E : handler_env) (conn : Z) (reqp : Z)
    (req : rtsp_message) (s : hstate) : hstate :=
  let s := take_slot_lock E 0 s in
  if have_player (h_slot s) conn then
    let s :=
      if negb (player_thread (h_conn s) =? 0) then s
      else with_conn (player_play (ext E) (h_conn s)) s in
    let resp := set_respcode 200 (h_resp s) in
    let s := with_resp (snd (msg_add_header resp "Audio-Latency" "11025")) s in
    match rtptime_text req with
    | Some t => with_conn (player_flush (ext E) (uatoi t) (h_conn s)) s
    | None => s
    end
  else with_resp (set_respcode 451 (h_resp s)) s.

(** [handle_options]. *)
Definition handle_options (E : handler_env) (conn : Z) (reqp : Z)
    (req : rtsp_message) (s : hstate) : hstate :=
  with_resp
    (snd (msg_add_header (set_respcode 200 (h_resp s)) "Public"
            "ANNOUNCE, SETUP, RECORD, PAUSE, FLUSH, TEARDOWN, OPTIONS, GET_PARAMETER, SET_PARAMETER"))
    s.

(** [handle_teardown]. *)
Definition handle_teardown (E : handler_env) (conn : Z) (reqp : Z)
    (req : rtsp_message) (s : hstate) : hstate :=
  let s := take_slot_lock E 0 s in
  if have_player (h_slot s) conn then
    let resp := set_respcode 200 (h_resp s) in
    let s := with_resp (snd (msg_add_header resp "Connection" "close")) s in
    with_conn (player_stop (ext E) (h_conn s)) s
  else with_resp (set_respcode 451 (h_resp s)) s.

(** [handle_flush]. *)
Definition handle_flush (E : handler_env) (conn : Z) (reqp : Z)
    (req : rtsp_message) (s : hstate) : hstate :=
  let s := take_slot_lock E 0 s in
  if have_player (h_slot s) conn then
    let rtptime := match rtptime_text req with Some t => uatoi t | None => 0 end in
    let s := with_conn (player_flush (ext E) rtptime (h_conn s)) s in
    with_resp (set_respcode 200 (h_resp s)) s
  else with_resp (set_respcode 451 (h_resp s)) s.

(** The loop of [handle_set_parameter_parameter] over the lines of a
    [text/parameters] body; [k] counts the calls of [send_metadata]. *)
Fixpoint parameter_lines (fuel : nat) (E : handler_env) (k : nat) (cp : string)
    (cp_left : Z) (s : hstate) : hstate :=
  match fuel with
  | O => s
  | S fuel' =>
      if cp_left =? 0 then s
      else
        let '(line, next, cp_left) :=
          match nextline cp (Z.to_nat cp_left) with
          | Some (line, next) =>
              (line, Some next, cp_left - Z.of_nat (String.length line))
          | None => (cp, None, 0)
          end in
        let '(k, s) :=
          if has_prefix "volume: " line then
            (k, with_conn
                  (player_volume (ext E) (sdrop 8 (cstr line)) (h_conn s)) s)
          else if has_prefix "progress: " line then
            let progress := sdrop 10 (cstr line) in
            (S k, send E k (fourcc "ssnc") (fourcc "prgr") (value_addr E progress)
                    (String.list_ascii_of_string progress) (strlen progress) 0 1 s)
          else (k, s) in
        match next with
        | Some cp => parameter_lines fuel' E k cp cp_left s
        | None => s
        end
  end.

(** [handle_set_parameter_parameter]. *)
Definition handle_set_parameter_parameter (E : handler_env) (k : nat)
    (req : rtsp_message) (s : hstate) : hstate :=
  match content req with
  | Some cp => parameter_lines (S (String.length cp)) E k cp (contentlength req) s
  | None => s
  end.

(** [ntohl] of the four bytes at [cp + off]; past the end of the buffer
    the C code reads whatever follows, here zeros. *)
Definition ntohl_at (cp : string) (off : Z) : Z :=
  foldl (fun acc i => acc * 256
                      + code (default NUL (String.get (Z.to_nat off + i) cp)))
    0 [0; 1; 2; 3]%nat.

(** The loop of [handle_set_parameter_metadata] over the DMAP items:
    [while (off < cl)] with [off] an [unsigned int].  [None]: the loop has
    not ended within [fuel] turns. *)
Fixpoint dmap_items (fuel : nat) (E : handler_env) (k : nat) (reqp : Z)
    (cp : string) (cl off : Z) (s : hstate) : option (nat * hstate) :=
  if off <? cl then
    match fuel with
    | O => None
    | S fuel' =>
        let itag := ntohl_at cp off in
        let off := wrap32 (off + 4) in
        let vl := ntohl_at cp off in
        let off := wrap32 (off + 4) in
        let s :=
          if vl =? 0 then send E k (fourcc "core") itag 0 [] 0 0 1 s
          else
            let data := sdrop (Z.to_nat off) cp in
            send E k (fourcc "core") itag (value_addr E data)
              (String.list_ascii_of_string data) vl reqp 1 s in
        let off := wrap32 (off + vl) in
        dmap_items fuel' E (S k) reqp cp cl off s
    end
  else Some (k, s).

(** [handle_set_parameter_metadata]. *)
Definition handle_set_parameter_metadata (E : handler_env) (k : nat) (reqp : Z)
    (req : rtsp_message) (s : hstate) : option (nat * hstate) :=
  let cp := default EmptyString (content req) in
  let cl := wrap32 (contentlength req) in
  dmap_items (S (Z.to_nat cl)) E k reqp cp cl 8 s.

(** One of the bracketing items of [handle_set_parameter]: with the
    rtptime text when there is one, empty otherwise. *)
Definition send_bracket (E : handler_env) (k : nat) (code : string)
    (p : option string) (reqp : Z) (s : hstate) : hstate :=
  match p with
  | Some t => publish E k "ssnc" code t reqp s
  | None => send E k (fourcc "ssnc") (fourcc code) 0 [] 0 0 0 s
  end.

(** [handle_set_parameter], with [CONFIG_METADATA] defined.  [None]: the
    loop over the DMAP items does not end. *)
Definition handle_set_parameter (E : handler_env) (conn : Z) (reqp : Z)
    (req : rtsp_message) (s : hstate) : option hstate :=
  let done_ (s : hstate) := Some (with_resp (set_respcode 200 (h_resp s)) s) in
  match msg_get_header req "Content-Type" with
  | Some ct =>
      let p := rtptime_text req in
      if has_prefix "application/x-dmap-tagged" ct then
        let s := send_bracket E 0 "mdst" p reqp s in
        match handle_set_parameter_metadata E 1 reqp req s with
        | Some (k, s) => done_ (send_bracket E k "mden" p reqp s)
        | None => None
        end
      else if has_prefix "image" ct then
        if negb (get_coverart (cfg E) =? 0) then
          let s := send_bracket E 0 "pcst" p reqp s in
          let body := default EmptyString (content req) in
          let s :=
            send E 1 (fourcc "ssnc") (fourcc "PICT")
              (match content req with Some _ => value_addr E body | None => 0 end)
              (String.list_ascii_of_string body) (wrap32 (contentlength req))
              reqp 1 s in
          done_ (send_bracket E 2 "pcen" p reqp s)
        else done_ s
      else if has_prefix "text/parameters" ct then
        done_ (handle_set_parameter_parameter E 0 req s)
      else done_ s
  | None => done_ s
  end.

(** ** Notions used to state the properties of the handlers *)

(** The request asks for the volume, as the handler sees it: there is a
    body of eight bytes and, read as a C string, it starts with the six
    characters of "volume". *)
Definition asks_volume (req : rtsp_message) : Prop :=
  exists c, content req = Some c /\ contentlength req = 8
            /\ has_prefix "volume" c = true.

Definition volume_text (E : handler_env) : string :=
  CRLF +:+ "volume: " +:+ airplay_volume_text (cfg E) +:+ CRLF.

(** What a step leaves alone as far as RTP goes: the log of [rtp_setup]
    calls, the two remote ports and the running flag. *)
Definition rtp_untouched (s s' : hstate) : Prop :=
  rtp_setup_calls s' = rtp_setup_calls s
  /\ remote_control_port (h_conn s') = remote_control_port (h_conn s)
  /\ remote_timing_port (h_conn s') = remote_timing_port (h_conn s)
  /\ rtp_running (h_conn s') = rtp_running (h_conn s).

(** Words put one after the other with a single blank between them, and
    a word that holds neither a blank nor a tab. *)
Fixpoint join_blank (ws : list string) : string :=
  match ws with
  | [] => EmptyString
  | [w] => w
  | w :: ws' => w +:+ String SP (join_blank ws')
  end.

Fixpoint no_separator (w : string) : Prop :=
  match w with
  | EmptyString => True
  | String c w' => c <> SP /\ c <> TAB /\ no_separator w'
  end.

(** The key material was accepted: either the session is not encrypted,
    or the IV decodes to 16 bytes and the key is recovered as 16 bytes. *)
Definition keys_accepted (X : externals) (p : sdp_ptrs) : Prop :=
  (paesiv p = None /\ prsaaeskey p = None)
  \/ exists iv,
       base64_dec X (paesiv p) = Some iv /\ length iv = 16%nat
       /\ length (rsa_apply X (base64_dec X (prsaaeskey p)) RSA_MODE_KEY) = 16%nat.

(** What the stages before and after the fmtp block leave alone. *)
Definition same_codec (c c' : rtsp_conn_info) : Prop :=
  type (stream c') = type (stream c) /\ fmtp (stream c') = fmtp (stream c)
  /\ max_frames_per_packet c' = max_frames_per_packet c
  /\ input_rate c' = input_rate c
  /\ input_num_channels c' = input_num_channels c
  /\ input_bit_depth c' = input_bit_depth c.

End Handlers.

(* ================================================================== *)
(** * The Apple challenge *)
(* ================================================================== *)

Module AppleChallenge.
Import CStr Codec.

(** What [getsockname] reports: the family and the address bytes. *)
Inductive sockname :=
| Inet (s_addr : list ascii)
| Inet6 (s6_addr : list ascii).

(** [memcpy(buf + off, src, strlen src)] on an array. *)
Definition overwrite (off : nat) (src : list ascii) (buf : list ascii) : list ascii :=
  take off buf ++ src ++ drop (off + length src) buf.

(** The text up to the first ['=']: [padding = strchr(encoded, '='); if
    (padding) *padding = 0]. *)
Definition strip_padding (encoded : string) : string :=
  match strchr encoded "="%char with
  | Some i => stake i (cstr encoded)
  | None => cstr encoded
  end.

(** The buffer handed to [rsa_apply], for a challenge of at most 16 bytes. *)
Definition challenge_buffer (hw : list ascii) (fdsa : sockname)
    (chall : list ascii) : list ascii :=
  let buf := replicate 48 NUL in
  let bp := O in
  let buf := overwrite bp chall buf in
  let bp := (bp + length chall)%nat in
  let '(buf, bp) :=
    match fdsa with
    | Inet6 a => (overwrite bp (bytes_n 16 a) buf, (bp + 16)%nat)
    | Inet a => (overwrite bp (bytes_n 4 a) buf, (bp + 4)%nat)
    end in
  let buf := overwrite bp (bytes_n 6 hw) buf in
  let bp := (bp + 6)%nat in
  let buflen := if (bp <? 32)%nat then 32%nat else bp in
  take buflen buf.

(** [apple_challenge]: the response afterwards; [None] when the process is
    ended by [die]. *)
Definition apple_challenge (X : externals) (hw : list ascii) (fdsa : sockname)
    (req resp : rtsp_message) : option rtsp_message :=
  match msg_get_header req "Apple-Challenge" with
  | None => Some resp
  | Some hdr =>
      match base64_dec X (Some hdr) with
      | None => None
      | Some chall =>
          if 16 <? Z.of_nat (length chall) then Some resp
          else
            let challresp :=
              rsa_apply X (Some (challenge_buffer hw fdsa chall)) RSA_MODE_AUTH in
            match base64_enc X challresp with
            | None => None
            | Some encoded =>
                Some (snd (msg_add_header resp "Apple-Response"
                             (strip_padding encoded)))
            end
      end
  end.

(** The address bytes that enter the buffer: four for IPv4, sixteen for
    IPv6. *)
Definition ip_bytes (fdsa : sockname) : list ascii :=
  match fdsa with
  | Inet a => bytes_n 4 a
  | Inet6 a => bytes_n 16 a
  end.

(** A byte string followed by zeros up to 32 bytes, if it is shorter. *)
Definition zero_padded (l : list ascii) : list ascii :=
  l ++ replicate (32 - length l) NUL.

End AppleChallenge.

(* ================================================================== *)
(** * Digest authentication *)
(* ================================================================== *)

Module Auth.
Import CStr Codec.

Definition DQ : ascii := "034"%char.
Definition quote_after (key : string) : string := key +:+ String DQ EmptyString.

Definition hex_digit (n : nat) : ascii :=
  default "0"%char (String.list_ascii_of_string "0123456789abcdef" !! n).

(** [snprintf(buf + 2 * i, 3, "%02x", digest[i])] for [i] from 0 to 15. *)
Definition hex16 (digest : list ascii) : string :=
  String.string_of_list_ascii
    (concat (map (fun b => [hex_digit (nat_of_ascii b / 16);
                            hex_digit (nat_of_ascii b mod 16)])
               (bytes_n 16 digest))).

Fixpoint set_char (i : nat) (c : ascii) (b : string) : string :=
  match b, i with
  | EmptyString, _ => EmptyString
  | String _ b', O => String c b'
  | String d b', S i' => String d (set_char i' c b')
  end.

(** One of the four fields of the [Authorization] value: with [x] the
    offset [strstr] found, [x = strchr(x, '"') + 1; if (!(quote = strchr(x,
    '"'))) goto authenticate; *quote = 0;] on the buffer [b]. *)
Inductive quoted :=
| QFault                       (* [strchr] gave NULL and 1 was added to it *)
| QMissing                     (* no closing quote: [goto authenticate] *)
| QField (start : nat) (b : string).

Definition quoted_field (b : string) (x : nat) : quoted :=
  match strchr (sdrop x b) DQ with
  | None => QFault
  | Some j =>
      let start := (x + j + 1)%nat in
      match strchr (sdrop start b) DQ with
      | None => QMissing
      | Some k => QField start (set_char (start + k) NUL b)
      end
  end.

(** The [authenticate:] label: 401 and a [WWW-Authenticate] header. *)
Definition authenticate (nonce : option string) (resp : rtsp_message)
    : option (Z * option string * rtsp_message) :=
  match nonce with
  | None => None
  | Some n =>
      let hdrlen := Z.to_nat (strlen n + 40) in
      let authhdr :=
        stake (hdrlen - 1)
          (quote_after "Digest realm=" +:+ quote_after "raop" +:+
           quote_after ", nonce=" +:+ quote_after (cstr n)) in
      Some (1, nonce,
            snd (msg_add_header (set_respcode 401 resp) "WWW-Authenticate" authhdr))
  end.

(** [rtsp_auth(&nonce, req, resp)]: the return value, the nonce and the
    response afterwards.  [urandom] is what [/dev/urandom] gives, [None]
    when it cannot be opened.  [None] as a result is the end of the
    process ([die], or a pointer fault).  The NULs parked in the header
    value are local to this function's view of it. *)
Definition rtsp_auth (X : externals) (password : option string)
    (urandom : option (list ascii)) (nonce : option string)
    (req resp : rtsp_message) : option (Z * option string * rtsp_message) :=
  match password with
  | None => Some (0, nonce, resp)
  | Some pw =>
      match nonce with
      | None =>
          match urandom with
          | None => None
          | Some random => authenticate (base64_enc X (bytes_n 8 random)) resp
          end
      | Some n =>
          match msg_get_header req "Authorization" with
          | None => authenticate nonce resp
          | Some hdr =>
              if negb (has_prefix "Digest " hdr) then authenticate nonce resp
              else
                match strstr hdr (quote_after "realm="),
                      strstr hdr (quote_after "username="),
                      strstr hdr (quote_after "response="),
                      strstr hdr (quote_after "uri=") with
                | Some realm, Some username, Some response, Some uri =>
                    match quoted_field (cstr hdr) realm with
                    | QFault => None
                    | QMissing => authenticate nonce resp
                    | QField realm b =>
                    match quoted_field b username with
                    | QFault => None
                    | QMissing => authenticate nonce resp
                    | QField username b =>
                    match quoted_field b response with
                    | QFault => None
                    | QMissing => authenticate nonce resp
                    | QField response b =>
                    match quoted_field b uri with
                    | QFault => None
                    | QMissing => authenticate nonce resp
                    | QField uri b =>
                        let at_ p := cstr (sdrop p b) in
                        let colon := ":"%string in
                        let digest_urp :=
                          md5 X (at_ username +:+ colon +:+ at_ realm +:+ colon
                                 +:+ cstr pw) in
                        let digest_mu :=
                          md5 X (cstr (method req) +:+ colon +:+ at_ uri) in
                        let digest_total :=
                          md5 X (hex16 digest_urp +:+ colon +:+ cstr n +:+ colon
                                 +:+ hex16 digest_mu) in
                        if streq (at_ response) (hex16 digest_total)
                        then Some (0, nonce, resp)
                        else authenticate nonce resp
                    end end end end
                | _, _, _, _ => authenticate nonce resp
                end
          end
      end
  end.

End Auth.

(* ================================================================== *)
(** * The conversation loop *)
(* ================================================================== *)

Module Conversation.
Import CStr Codec Conn Metadata Handlers AppleChallenge.

Definition slen (s : string) : Z := Z.of_nat (String.length s).

(** The [for] loop of [msg_write_response] over the headers: the text
    appended and [pktfree] afterwards, or [None] for the return of -1. *)
Fixpoint write_headers (hs : list (string * string)) (pkt : string) (pktfree : Z)
    : option (string * Z) :=
  match hs with
  | [] => Some (pkt, pktfree)
  | (name, value) :: hs' =>
      let line := name +:+ ": " +:+ value +:+ CRLF in
      let pktfree := pktfree - slen line in
      if pktfree <=? 1024 then None
      else write_headers hs' (pkt +:+ line) pktfree
  end.

(** [msg_write_response(fd, resp)]: the return value and the packet given
    to [write], if it got that far.  [write_reply] is what [write]
    returned. *)
Definition msg_write_response (resp : rtsp_message) (write_reply : Z)
    : Z * option string :=
  let pkt :=
    "RTSP/1.0 " +:+ fmt_d (respcode resp) +:+ " " +:+
    (if respcode resp =? 200 then "OK" else "Unauthorized") +:+ CRLF in
  let pktfree := 2048 - slen pkt in
  match write_headers (headers resp) pkt pktfree with
  | None => (-1, None)
  | Some (pkt, pktfree) =>
      let with_content :=
        if negb (contentlength resp =? 0) then
          let line := "Content-Length: " +:+ fmt_d (contentlength resp) +:+ CRLF in
          let pktfree := pktfree - slen line in
          if pktfree <=? 1024 then None
          else
            Some (pkt +:+ line +:+
                  stake (Z.to_nat (contentlength resp)) (default EmptyString (content resp)),
                  pktfree - contentlength resp)
        else Some (pkt, pktfree) in
      match with_content with
      | None => (-2, None)
      | Some (pkt, pktfree) =>
          let pkt := pkt +:+ CRLF in
          let pktfree := pktfree - 2 in
          if pktfree <=? 1024 then (-3, None)
          else if write_reply =? -1 then (-4, Some pkt)
          else if negb (write_reply =? slen pkt) then (-5, Some pkt)
          else (0, Some pkt)
      end
  end.

(** A method handler: [None] when it does not return. *)
Definition handler : Type :=
  handler_env -> Z -> Z -> rtsp_message -> hstate -> option hstate.

Definition returns (h : handler_env -> Z -> Z -> rtsp_message -> hstate -> hstate)
    : handler :=
  fun E conn reqp req s => Some (h E conn reqp req s).

(** The table [method_handlers]. *)
Definition method_handlers : list (string * handler) :=
  [ ("OPTIONS"%string, returns handle_options);
    ("ANNOUNCE"%string, handle_announce);
    ("FLUSH"%string, returns handle_flush);
    ("TEARDOWN"%string, returns handle_teardown);
    ("SETUP"%string, returns handle_setup);
    ("GET_PARAMETER"%string, returns handle_get_parameter);
    ("SET_PARAMETER"%string, handle_set_parameter);
    ("RECORD"%string, returns handle_record) ].

(** [for (mh = method_handlers; mh->method; mh++) if (!strcmp(mh->method,
    req->method)) ...]: the first entry whose name is the request's method. *)
Fixpoint select_handler (table : list (string * handler)) (m : string)
    : option handler :=
  match table with
  | [] => None
  | (name, h) :: table' => if streq name m then Some h else select_handler table' m
  end.

(** What one turn of the loop is given: the result of [rtsp_read_request]
    with the request and its address, the environment of the handler,
    [msg_indexes] when the response is created, the socket name, what
    [/dev/urandom] yields and what [write] returns. *)
Record turn := mk_turn {
  t_reply : rtsp_read_request_response;
  t_reqp : Z;
  t_req : rtsp_message;
  t_env : handler_env;
  t_msg_indexes : Z;
  t_sockname : sockname;
  t_urandom : option (list ascii);
  t_write_reply : Z
}.

(** The worker's state: the handler state, the retry counter, how often
    [rtsp_auth] has been called, the methods whose handler was called, the
    packets given to [write], and whether the socket was set to linger
    zero. *)
Record thread := mk_thread {
  th_state : hstate;
  rtsp_read_request_attempt_count : Z;
  rtsp_auth_calls : nat;
  dispatched : list string;
  written : list string;
  linger_zero : bool
}.

Definition with_state (s : hstate) (th : thread) : thread :=
  {| th_state := s;
     rtsp_read_request_attempt_count := rtsp_read_request_attempt_count th;
     rtsp_auth_calls := rtsp_auth_calls th; dispatched := dispatched th;
     written := written th; linger_zero := linger_zero th |}.
Definition with_attempt_count (n : Z) (th : thread) : thread :=
  {| th_state := th_state th; rtsp_read_request_attempt_count := n;
     rtsp_auth_calls := rtsp_auth_calls th; dispatched := dispatched th;
     written := written th; linger_zero := linger_zero th |}.
Definition count_rtsp_auth (th : thread) : thread :=
  {| th_state := th_state th;
     rtsp_read_request_attempt_count := rtsp_read_request_attempt_count th;
     rtsp_auth_calls := S (rtsp_auth_calls th); dispatched := dispatched th;
     written := written th; linger_zero := linger_zero th |}.
Definition log_dispatch (m : string) (th : thread) : thread :=
  {| th_state := th_state th;
     rtsp_read_request_attempt_count := rtsp_read_request_attempt_count th;
     rtsp_auth_calls := rtsp_auth_calls th; dispatched := dispatched th ++ [m];
     written := written th; linger_zero := linger_zero th |}.
Definition log_write (pkt : option string) (th : thread) : thread :=
  {| th_state := th_state th;
     rtsp_read_request_attempt_count := rtsp_read_request_attempt_count th;
     rtsp_auth_calls := rtsp_auth_calls th; dispatched := dispatched th;
     written := match pkt with
                | Some text => written th ++ [text]
                | None => written th
                end;
     linger_zero := linger_zero th |}.
Definition set_linger (b : bool) (th : thread) : thread :=
  {| th_state := th_state th;
     rtsp_read_request_attempt_count := rtsp_read_request_attempt_count th;
     rtsp_auth_calls := rtsp_auth_calls th; dispatched := dispatched th;
     written := written th; linger_zero := linger_zero th || b |}.

(** [conn->stop = 1]. *)
Definition request_stop (th : thread) : thread :=
  with_state (with_conn (set_stop 1 (h_conn (th_state th))) (th_state th)) th.

Definition bad_request_text : string :=
  "RTSP/1.0 400 Bad Request" +:+ CRLF +:+ "Server: AirTunes/105.1" +:+ CRLF +:+ CRLF.

Import Auth.

(** [(conn->authorized == 1) || (rtsp_auth(&conn->auth_nonce, req, resp))
    == 0]: whether the request may proceed, with the response and the
    worker afterwards.  [rtsp_auth] is called only when the flag is not 1.
    [None]: the process was ended inside [rtsp_auth]. *)
Definition auth_gate (t_env : handler_env) (urandom : option (list ascii))
    (req resp : rtsp_message) (th : thread) : option (bool * rtsp_message * thread) :=
  let c := h_conn (th_state th) in
  if authorized c =? 1 then Some (true, resp, th)
  else
    match rtsp_auth (ext t_env) (password (cfg t_env)) urandom (auth_nonce c)
            req resp with
    | None => None
    | Some (rc, nonce, resp) =>
        Some (rc =? 0, resp,
              count_rtsp_auth
                (with_state (with_conn (set_auth_nonce nonce c) (th_state th)) th))
    end.

(** The search of [method_handlers] and the call of the handler found. *)
Definition dispatch (conn : Z) (t_env : handler_env)
    (reqp : Z) (req : rtsp_message) (th : thread) : option thread :=
  match select_handler method_handlers (method req) with
  | Some h =>
      match h t_env conn reqp req (th_state th) with
      | Some s => Some (log_dispatch (cstr (method req)) (with_state s th))
      | None => None
      end
  | None => Some th
  end.

(** The body of [while (conn->stop == 0)] in
    [rtsp_conversation_thread_func], for the connection at address [conn].
    [None]: the process was ended inside the turn, or a handler did not
    return. *)
Definition conversation_turn (conn : Z) (t : turn)
    (th : thread) : option thread :=
  match t_reply t with
  | rtsp_read_request_response_ok =>
      let req := t_req t in
      let resp := set_respcode 400 (fst (msg_init (t_msg_indexes t))) in
      match apple_challenge (ext (t_env t)) (hw_addr (cfg (t_env t)))
              (t_sockname t) req resp with
      | None => None
      | Some resp =>
          let resp :=
            match msg_get_header req "CSeq" with
            | Some hdr => snd (msg_add_header resp "CSeq" hdr)
            | None => resp
            end in
          let resp := snd (msg_add_header resp "Server" "AirTunes/105.1") in
          match auth_gate (t_env t) (t_urandom t) req resp th with
          | None => None
          | Some (open, resp, th) =>
              let th := with_state (with_resp resp (th_state th)) th in
              let handled :=
                if open then
                  let th :=
                    with_state
                      (with_conn (set_authorized 1 (h_conn (th_state th)))
                         (th_state th)) th in
                  dispatch conn (t_env t) (t_reqp t) req th
                else Some th in
              match handled with
              | None => None
              | Some th =>
                  if stop (h_conn (th_state th)) =? 0 then
                    let '(err, pkt) :=
                      msg_write_response (h_resp (th_state th)) (t_write_reply t) in
                    let th := log_write pkt th in
                    Some (if negb (err =? 0)
                          then request_stop (set_linger true th) else th)
                  else Some th
              end
          end
      end
  | rtsp_read_request_response_immediate_shutdown_requested =>
      Some (request_stop th)
  | rtsp_read_request_response_channel_closed
  | rtsp_read_request_response_read_error =>
      let is_error :=
        match t_reply t with
        | rtsp_read_request_response_read_error => true
        | _ => false
        end in
      if negb (player_thread (h_conn (th_state th)) =? 0) then
        let n := to_int (rtsp_read_request_attempt_count th - 1) in
        let th := with_attempt_count n th in
        if n =? 0 then Some (request_stop (set_linger is_error th))
        else Some th
      else Some (request_stop th)
  | rtsp_read_request_response_bad_packet =>
      Some (log_write (Some bad_request_text) th)
  | rtsp_read_request_response_error => Some th
  end.

(** The loop: a turn is made for each element of [turns] as long as
    [conn->stop] is 0. *)
Fixpoint conversation (conn : Z) (turns : list turn)
    (th : thread) : option thread :=
  match turns with
  | [] => Some th
  | t :: turns' =>
      if stop (h_conn (th_state th)) =? 0 then
        match conversation_turn conn t th with
        | Some th' => conversation conn turns' th'
        | None => None
        end
      else Some th
  end.

(** ** Notions used to state the properties of the loop *)

(** The RTP layer and the player do not touch the authorisation flag. *)
Definition externals_keep_authorized (X : externals) : Prop :=
  (forall c t k, authorized (rtp_setup X c t k) = authorized k)
  /\ (forall k, authorized (player_play X k) = authorized k)
  /\ (forall k, authorized (player_stop X k) = authorized k)
  /\ (forall n k, authorized (player_flush X n k) = authorized k)
  /\ (forall v k, authorized (player_volume X v k) = authorized k).

(** A handler that leaves the authorisation flag alone. *)
Definition keeps_authorized (h : handler) : Prop :=
  forall E conn reqp req s s',
    externals_keep_authorized (ext E) ->
    h E conn reqp req s = Some s' ->
    authorized (h_conn s') = authorized (h_conn s).

Definition is_authorized (th : thread) : Prop :=
  authorized (h_conn (th_state th)) = 1.

End Conversation.
(* ================================================================== *)
(** * The base64 encoder and the metadata pipe *)
(* ================================================================== *)

Module Base64.
Import CStr Multicast.

Definition encoding_table : list ascii :=
  String.list_ascii_of_string
    "ABCDEFGHIJKLMNOPQRSTUVWXYZabcdefghijklmnopqrstuvwxyz0123456789+/".

Definition mod_table : list Z := [0; 2; 1].

(** [encoding_table[(triple >> k * 6) & 0x3F]]. *)
Definition sextet (triple : Z) (k : Z) : ascii :=
  default NUL (encoding_table !! Z.to_nat (Z.land (Z.shiftr triple (k * 6)) 63)).

(** The four characters one turn of the [for] loop stores. *)
Definition quad (octet_a octet_b octet_c : Z) : list ascii :=
  let triple := wrap32 (Z.shiftl octet_a 16 + Z.shiftl octet_b 8 + octet_c) in
  [sextet triple 3; sextet triple 2; sextet triple 1; sextet triple 0].

(** The [for (i = 0, j = 0; i < input_length;)] loop: each turn takes up to
    three bytes, a missing one counting as 0. *)
Fixpoint encode_groups (data : list ascii) : list ascii :=
  match data with
  | [] => []
  | [a] => quad (code a) 0 0
  | [a; b] => quad (code a) (code b) 0
  | a :: b :: c :: rest => quad (code a) (code b) (code c) ++ encode_groups rest
  end.

(** [for (i = 0; i < n; i++) encoded_data[*output_length - 1 - i] = '=';] *)
Definition pad (n : nat) (output_length : Z) (encoded_data : list ascii)
    : list ascii :=
  foldl (fun buf i => <[Z.to_nat (output_length - 1 - Z.of_nat i) := "="%char]> buf)
    encoded_data (seq 0 n).

(** [base64_encode_so(data, input_length, encoded_data, &output_length)],
    with [data] the [input_length] bytes to encode: the characters stored
    ([None] for a NULL result) and [*output_length] afterwards. *)
Definition base64_encode_so (data : list ascii) (output_length : Z)
    : option (list ascii) * Z :=
  let input_length := Z.of_nat (length data) in
  let calculated_output_length := size_wrap (4 * (size_wrap (input_length + 2) / 3)) in
  if output_length <? calculated_output_length then (None, output_length)
  else
    let output_length := calculated_output_length in
    let encoded_data := encode_groups data in
    let n := default 0 (mod_table !! Z.to_nat (input_length mod 3)) in
    (Some (pad (Z.to_nat n) output_length encoded_data), output_length).

(** ** Notions used to state the properties of the encoder *)

(** The output with the padding written out: what the two loops of the
    encoder produce together. *)
Fixpoint encode_padded (data : list ascii) : list ascii :=
  match data with
  | [] => []
  | [a] => take 2 (quad (code a) 0 0) ++ ["="; "="]%char
  | [a; b] => take 3 (quad (code a) (code b) 0) ++ ["="]%char
  | a :: b :: c :: rest => quad (code a) (code b) (code c) ++ encode_padded rest
  end.

(** [mod_table[input_length % 3]]: the number of characters the second
    loop overwrites with ['=']. *)
Definition pad_count (data : list ascii) : nat :=
  Z.to_nat (default 0 (mod_table !! Z.to_nat (Z.of_nat (length data) mod 3))).

(** Position of a character in the table, 0 when it is not there. *)
Fixpoint find_index (c : ascii) (l : list ascii) (i : Z) : Z :=
  match l with
  | [] => 0
  | x :: l' => if Ascii.eqb x c then i else find_index c l' (i + 1)
  end.

(** [encoding_table[i]]. *)
Definition table_char (i : Z) : ascii :=
  default NUL (encoding_table !! Z.to_nat i).

(** The byte with the given value. *)
Definition byte (z : Z) : ascii := ascii_of_nat (Z.to_nat z).

(** A decoder for the encoder's output, used to show that nothing is
    lost. *)
Fixpoint decode (s : list ascii) : list ascii :=
  match s with
  | c0 :: c1 :: c2 :: c3 :: rest =>
      let v c := find_index c encoding_table 0 in
      let t := v c0 * 262144 + v c1 * 4096 + v c2 * 64 + v c3 in
      if Ascii.eqb c2 "=" then [byte (t / 65536)]
      else if Ascii.eqb c3 "=" then [byte (t / 65536); byte (t / 256 mod 256)]
      else byte (t / 65536) :: byte (t / 256 mod 256) :: byte (t mod 256)
             :: decode rest
  | _ => []
  end.

(** The number of ['='] at the end of the output. *)
Definition padding (data : list ascii) : nat :=
  Z.to_nat ((3 - Z.of_nat (length data) mod 3) mod 3).

End Base64.

Module Pipe.
Import CStr Metadata PcQueue Base64.

(** What the environment of the pipe writer answers: the descriptor
    [try_to_open_pipe_for_writing] returns, the value the k-th call of
    [write] returns, and what the array [outbuf] holds before it is
    written to. *)
Record pipe_env := mk_pipe_env {
  open_result : Z;
  write_ret : nat -> Z;
  outbuf_uninit : list ascii
}.

(** The static [fd] and the buffers handed to [write] so far, in order. *)
Record pipe_state := mk_pipe_state {
  fd : Z;
  writes : list (list ascii)
}.

Definition text (s : string) : list ascii := String.list_ascii_of_string s.

(** [printf("%x")] and [printf("%u")] of a [uint32_t]. *)
Fixpoint hex_digits (fuel : nat) (n : Z) (acc : string) : string :=
  match fuel with
  | O => acc
  | S fuel' =>
      let acc := String (Auth.hex_digit (Z.to_nat (n mod 16))) acc in
      if n / 16 =? 0 then acc else hex_digits fuel' (n / 16) acc
  end.

Definition fmt_x (n : Z) : string := hex_digits 8 (wrap32 n) EmptyString.
Definition fmt_u (n : Z) : string := fmt_d (wrap32 n).

(** [metadata_open]. *)
Definition metadata_open (cfg : configuration) (E : pipe_env) (st : pipe_state)
    : pipe_state :=
  if metadata_enabled cfg =? 0 then st
  else {| fd := open_result E; writes := writes st |}.

(** [ret = write(fd, buf, n)] with [ret] an [int]. *)
Definition write (E : pipe_env) (buf : list ascii) (st : pipe_state)
    : Z * pipe_state :=
  (to_int (write_ret E (length (writes st))),
   {| fd := fd st; writes := writes st ++ [buf] |}).

Definition item_open (type code length : Z) : string :=
  "<item><type>" +:+ fmt_x type +:+ "</type><code>" +:+ fmt_x code
  +:+ "</code><length>" +:+ fmt_u length +:+ "</length>".

Definition data_open : string :=
  String LF ("<data encoding=" +:+ Auth.quote_after (String Auth.DQ "base64")
             +:+ ">" +:+ String LF EmptyString).

(** [while ((remaining_count) && (ret >= 0))]: the data goes out in groups
    of at most 57 bytes, each encoded on its own.  The result tells whether
    the function went on after the loop ([false]: it returned from inside
    it).  Bytes past the end of [remaining_data] read as 0. *)
Fixpoint data_loop (fuel : nat) (E : pipe_env) (remaining_count : Z)
    (remaining_data : list ascii) (ret : Z) (st : pipe_state)
    : option (bool * pipe_state) :=
  if negb (remaining_count =? 0) && (0 <=? ret) then
    match fuel with
    | O => None
    | S fuel' =>
        let towrite_count := remaining_count in
        let towrite_count := if 57 <? towrite_count then 57 else towrite_count in
        let '(encoded, outbuf_size) :=
          base64_encode_so (bytes_n (Z.to_nat towrite_count) remaining_data) 76 in
        let outbuf :=
          match encoded with
          | Some e => e ++ drop (length e) (outbuf_uninit E)
          | None => outbuf_uninit E
          end in
        let '(ret, st) := write E (take (Z.to_nat outbuf_size) outbuf) st in
        if ret <? 0 then Some (false, st)
        else
          data_loop fuel' E (remaining_count - towrite_count)
            (drop (Z.to_nat towrite_count) remaining_data) ret st
    end
  else Some (true, st).

(** [metadata_process(type, code, data, length)]; [data] is the pointer
    and [data_bytes] the bytes it points to.  [None]: the loop over the
    data has not ended. *)
Definition metadata_process (cfg : configuration) (E : pipe_env)
    (type code : Z) (data : Z) (data_bytes : list ascii) (length : Z)
    (st : pipe_state) : option pipe_state :=
  let st := if fd st <? 0 then metadata_open cfg E st else st in
  if fd st <? 0 then Some st
  else
    let '(ret, st) := write E (text (item_open type code length)) st in
    if ret <? 0 then Some st
    else
      let close_item (st : pipe_state) := Some (snd (write E (text "</item>" ++ [LF]) st)) in
      if negb (data =? 0) && (0 <? length) then
        let '(ret, st) := write E (text data_open) st in
        if ret <? 0 then Some st
        else
          match data_loop (Z.to_nat length) E length data_bytes ret st with
          | None => None
          | Some (false, st) => Some st
          | Some (true, st) =>
              let '(ret, st) := write E (text "</data>") st in
              if ret <? 0 then Some st else close_item st
          end
      else close_item st.

(** [metadata_pack_cleanup_function]: the package, whose [carrier] field
    [msg_free] overwrites, and the heap afterwards. *)
Definition metadata_pack_cleanup_function (pack : metadata_package) (h : heap)
    : metadata_package * heap :=
  if negb (mp_carrier pack =? 0) then
    let '(p, ms) := msg_free (mp_carrier pack) (msgs h) in
    ({| mp_type := mp_type pack; mp_code := mp_code pack; mp_data := mp_data pack;
        mp_length := mp_length pack; mp_carrier := p |},
     {| msgs := ms; bufs := bufs h |})
  else if negb (mp_data pack =? 0) then
    (pack, {| msgs := msgs h; bufs := free (mp_data pack) (bufs h) |})
  else (pack, h).

(** The bytes at a data pointer: a block obtained from [malloc] holds
    what was copied into it; any other address is inside a request, whose
    bytes [mem] gives. *)
Definition bytes_at (mem : Z -> list ascii) (h : heap) (p : Z) : list ascii :=
  match bufs h !! p with
  | Some b => b
  | None => mem p
  end.

(** One turn of the [while (1)] of [metadata_thread_function]: an item is
    taken from the queue, written to the pipe when metadata is enabled,
    and released.  [None]: the thread waits in [pc_queue_get_item], or the
    turn does not end. *)
Definition metadata_thread_turn (cfg : configuration) (E : pipe_env)
    (mem : Z -> list ascii) (q : pc_queue) (h : heap) (st : pipe_state)
    : option (pc_queue * heap * pipe_state) :=
  match pc_queue_get_item (Some q) with
  | GetReturned _ (Some pack) (Some q') =>
      let processed :=
        if negb (metadata_enabled cfg =? 0) then
          metadata_process cfg E (mp_type pack) (mp_code pack) (mp_data pack)
            (bytes_at mem h (mp_data pack)) (mp_length pack) st
        else Some st in
      match processed with
      | Some st' => Some (q', snd (metadata_pack_cleanup_function pack h), st')
      | None => None
      end
  | _ => None
  end.

(** ** Notions used to state the properties of the writer *)

(** Every [write] returns without error. *)
Definition all_written (E : pipe_env) : Prop :=
  forall k, 0 <= to_int (write_ret E k).

(** All the writes numbered from [a] up to [b], [b] excluded, returned
    without error. *)
Definition clean (E : pipe_env) (a b : nat) : Prop :=
  forall k, (a <= k < b)%nat -> 0 <= to_int (write_ret E k).

End Pipe.
(* ================================================================== *)
(** * The queue as a bounded first-in first-out buffer *)
(* ================================================================== *)

Module PcQueueFifo.
Import PcQueue.

(** The items waiting in the queue, oldest first: the [count] slots of the
    ring from [toq] on. *)
Definition contents (q : pc_queue) : list metadata_package :=
  omap (fun k => items q !! Z.to_nat ((toq q + Z.of_nat k) mod capacity q))
    (seq 0 (Z.to_nat (count q))).

(** A queue as [pc_queue_init] sets it up on an array of [capacity]
    packages and as the two operations keep it: the free slot [eoq] lies
    [count] slots after [toq]. *)
Definition well_formed (q : pc_queue) : Prop :=
  0 < capacity q < 2 ^ 32
  /\ Z.of_nat (length (items q)) = capacity q
  /\ 0 <= count q <= capacity q
  /\ 0 <= toq q < capacity q
  /\ eoq q = (toq q + count q) mod capacity q.

(** What [apply_op] does to the waiting items, told on the list alone. *)
Definition fifo_op (capacity : Z) (l : list metadata_package) (op : queue_op)
    : list metadata_package :=
  match op with
  | OpAdd x block lock_rc =>
      if (block =? 0) && (lock_rc =? EBUSY) then l
      else if Z.of_nat (length l) <? capacity then l ++ [x]
      else l
  | OpGet => tail l
  end.

End PcQueueFifo.
(* ================================================================== *)
(** * Repeated retains and releases *)
(* ================================================================== *)

Module RefCount.
Import Metadata.

(** [n] calls of [msg_retain(p)]. *)
Fixpoint msg_retain_times (n : nat) (p : Z) (ms : gmap Z rtsp_message)
    : gmap Z rtsp_message :=
  match n with
  | O => ms
  | S n' => msg_retain_times n' p (msg_retain p ms)
  end.

(** [n] calls of [msg_free(&p)] on the same variable [p]. *)
Fixpoint msg_free_times (n : nat) (p : Z) (ms : gmap Z rtsp_message)
    : Z * gmap Z rtsp_message :=
  match n with
  | O => (p, ms)
  | S n' => let '(p', ms') := msg_free p ms in msg_free_times n' p' ms'
  end.

(** The package [send_metadata_to_queue] puts on the queue. *)
Definition package_sent (type code data length carrier malloc_ret : Z)
    : metadata_package :=
  {| mp_type := type; mp_code := code;
     mp_data := if negb (carrier =? 0) then data
                else if negb (data =? 0) then malloc_ret else data;
     mp_length := length; mp_carrier := carrier |}.

End RefCount.
(* ================================================================== *)
(** * Notions used to state the properties of the message codec *)
(* ================================================================== *)

Module CodecNotions.
Import CStr Codec Reader Conversation.

(** A text without carriage return or line feed. *)
Fixpoint no_line_end (s : string) : Prop :=
  match s with
  | EmptyString => True
  | String c s' => c <> CR /\ c <> LF /\ no_line_end s'
  end.

(** [n] NUL characters. *)
Fixpoint nuls (n : nat) : string :=
  match n with
  | O => EmptyString
  | S n' => String NUL (nuls n')
  end.

(** A text in which none of the given characters occurs. *)
Fixpoint free_of (bad : list ascii) (s : string) : Prop :=
  match s with
  | EmptyString => True
  | String c s' => (c ∉ bad) /\ free_of bad s'
  end.

(** A word of a request line: not empty, without blank, line end or NUL. *)
Definition word (s : string) : Prop :=
  s <> EmptyString /\ free_of [SP; CR; LF; NUL] s.

(** A header as a client sends it: no colon in the name, and neither
    line end nor NUL in name or value. *)
Definition plain_header (h : string * string) : Prop :=
  free_of [":"%char; CR; LF; NUL] (fst h) /\ free_of [CR; LF; NUL] (snd h).

Definition header_line (h : string * string) : string :=
  fst h +:+ ": " +:+ snd h +:+ CRLF.

Fixpoint header_lines (hs : list (string * string)) : string :=
  match hs with
  | [] => EmptyString
  | h :: hs' => header_line h +:+ header_lines hs'
  end.

(** The text of a request: request line, headers, empty line, body. *)
Definition request_text (m u : string) (hs : list (string * string))
    (body : string) : string :=
  m +:+ " " +:+ u +:+ " RTSP/1.0" +:+ CRLF +:+ header_lines hs +:+ CRLF +:+ body.

(** The body length a list of headers announces. *)
Definition declared_length (hs : list (string * string)) : Z :=
  match get_header hs "Content-Length" with
  | Some cl => atoi cl
  | None => 0
  end.





End CodecNotions.
(* ================================================================== *)
(** * Notions used to state the properties of the authentication *)
(* ================================================================== *)

Module AuthNotions.
Import CStr Codec Auth.

(** The digest a client has to send: MD5, in hexadecimal, of the digest of
    user name, realm and password, the nonce, and the digest of method and
    URI, with colons between them. *)
Definition digest_response (X : externals) (pw n method username realm uri : string)
    : string :=
  hex16 (md5 X (hex16 (md5 X (username +:+ ":" +:+ realm +:+ ":" +:+ cstr pw))
                +:+ ":" +:+ cstr n +:+ ":"
                +:+ hex16 (md5 X (cstr method +:+ ":" +:+ uri)))).

(** The four quoted fields [rtsp_auth] takes from an [Authorization]
    value, realm, user name, response and URI, when each key is there and
    each value is closed by a quote. *)
Definition auth_fields (hdr : string) : option (string * string * string * string) :=
  match strstr hdr (quote_after "realm="), strstr hdr (quote_after "username="),
        strstr hdr (quote_after "response="), strstr hdr (quote_after "uri=") with
  | Some realm, Some username, Some response, Some uri =>
      match quoted_field (cstr hdr) realm with
      | QField realm b =>
      match quoted_field b username with
      | QField username b =>
      match quoted_field b response with
      | QField response b =>
      match quoted_field b uri with
      | QField uri b =>
          let at_ p := cstr (sdrop p b) in
          Some (at_ realm, at_ username, at_ response, at_ uri)
      | _ => None end
      | _ => None end
      | _ => None end
      | _ => None end
  | _, _, _, _ => None
  end.

(** The value of the [WWW-Authenticate] header for a nonce. *)
Definition challenge (n : string) : string :=
  quote_after "Digest realm=" +:+ quote_after "raop" +:+
  quote_after ", nonce=" +:+ quote_after (cstr n).

(** A request may pass the gate for one of three reasons. *)
Definition may_pass (X : externals) (password nonce : option string)
    (authorized : Z) (req : rtsp_message) : Prop :=
  authorized = 1
  \/ password = None
  \/ exists pw n hdr realm username response uri,
       password = Some pw /\ nonce = Some n
       /\ msg_get_header req "Authorization" = Some hdr
       /\ has_prefix "Digest " hdr = true
       /\ auth_fields hdr = Some (realm, username, response, uri)
       /\ streq response
            (digest_response X pw n (method req) username realm uri) = true.

End AuthNotions.
(* ================================================================== *)
(** * Notions used to state the properties of the handlers *)
(* ================================================================== *)

Module HandlerNotions.
Import CStr Codec Conn Metadata Multicast Handlers Conversation.

(** A 32-bit number as four bytes, most significant first. *)
Definition be32 (x : Z) : string := String.string_of_list_ascii (htonl_bytes x).

(** A DMAP item as it arrives: the tag, the length of the value, the
    value; and items one after the other. *)
Definition dmap_item (it : Z * string) : string :=
  be32 (fst it) +:+ be32 (slen (snd it)) +:+ snd it.

Fixpoint dmap_text (its : list (Z * string)) : string :=
  match its with
  | [] => EmptyString
  | it :: its' => dmap_item it +:+ dmap_text its'
  end.

(** One [send_metadata] of type [core] per item of the list, the k-th for
    the first item.  An empty value is sent without data and carrier; any
    other with its length, the address of its first byte, where the value
    and the items after it lie, and the request as carrier. *)
Fixpoint send_items (E : handler_env) (k : nat) (reqp : Z)
    (its : list (Z * string)) (s : hstate) : hstate :=
  match its with
  | [] => s
  | (tag, v) :: its' =>
      let s :=
        if slen v =? 0 then send E k (fourcc "core") tag 0 [] 0 0 1 s
        else
          send E k (fourcc "core") tag (value_addr E (v +:+ dmap_text its'))
            (String.list_ascii_of_string (v +:+ dmap_text its')) (slen v) reqp 1 s in
      send_items E (S k) reqp its' s
  end.

End HandlerNotions.
(* ================================================================== *)
(** * Notions used to state how [send_metadata] serves the sinks *)
(* ================================================================== *)

Module FanOut.
Import PcQueue Metadata.

(** The sinks [send_metadata] serves, in the order it serves them: pipe
    and multicast socket when metadata is enabled, the hub and MQTT when
    they are compiled in. *)
Definition sinks (cfg : configuration) : list sink :=
  (if negb (metadata_enabled cfg =? 0) then [Pipe; Multicast] else [])
  ++ (if CONFIG_METADATA_HUB cfg then [Hub] else [])
  ++ (if CONFIG_MQTT cfg then [Mqtt] else []).

Definition queue_of (s : sink) (st : md_state) : pc_queue :=
  match s with
  | Pipe => metadata_queue st
  | Multicast => metadata_multicast_queue st
  | Hub => metadata_hub_queue st
  | Mqtt => metadata_mqtt_queue st
  end.

End FanOut.
(* ================================================================== *)
(** * The table of conversation threads *)
(* ================================================================== *)

Module Threads.

(** The array [conns] of addresses of connection records, the number
    [nconns] of entries in use, and the records that have been joined and
    freed, in order. *)
Record table := mk_table {
  conns : list Z;
  nconns : Z;
  freed : list Z
}.

(** [conns[i]]; outside the array the C code reads whatever lies there,
    here 0. *)
Definition entry (l : list Z) (i : Z) : Z := default 0 (l !! Z.to_nat i).

(** [track_thread], when [realloc] succeeds (otherwise the process ends
    through [die]): the block is resized to [nconns + 1] entries, which
    keeps the entries up to the new size, and the connection is stored in
    the last one. *)
Definition track_thread (conn : Z) (t : table) : table :=
  let n := Z.to_nat (nconns t) in
  let block := take (S n) (conns t ++ replicate (S n - length (conns t)) 0) in
  {| conns := <[n := conn]> block; nconns := to_int (nconns t + 1);
     freed := freed t |}.

(** The loop of [cleanup_threads]: [for (i = 0; i < nconns;)].  The flag
    [conns[i]->running] is cleared by the thread of the connection when it
    ends, so what the loop reads can differ from turn to turn:
    [running k c] is the flag of the record at [c] as the k-th turn reads
    it.  [None]: the loop has not ended within [fuel] turns. *)
Fixpoint cleanup_loop (fuel : nat) (running : nat -> Z -> Z) (turn : nat)
    (i : Z) (t : table) : option table :=
  if i <? nconns t then
    match fuel with
    | O => None
    | S fuel' =>
        let c := entry (conns t) i in
        if running turn c =? 0 then
          let n := to_int (nconns t - 1) in
          let arr :=
            if negb (n =? 0) then <[Z.to_nat i := entry (conns t) n]> (conns t)
            else conns t in
          cleanup_loop fuel' running (S turn) i
            {| conns := arr; nconns := n; freed := freed t ++ [c] |}
        else cleanup_loop fuel' running (S turn) (to_int (i + 1)) t
    end
  else Some t.

(** [cleanup_threads].  Every turn either advances [i] or lowers
    [nconns], so [nconns] turns are enough. *)
Definition cleanup_threads (running : nat -> Z -> Z) (t : table) : option table :=
  cleanup_loop (Z.to_nat (nconns t)) running 0 0 t.

(** ** Notions used to state the properties *)

(** The connections the table holds: the entries in use. *)
Definition tracked (t : table) : list Z := take (Z.to_nat (nconns t)) (conns t).

End Threads.

(* ================================================================== *)
(** * Concrete inputs *)
(* ================================================================== *)

(** Inputs at which the properties below are tried out. *)
Module Samples.
Import CStr Codec Conn Metadata Handlers PcQueue.

Definition bytes (s : string) : list ascii := String.list_ascii_of_string s.

Definition pack0 : metadata_package :=
  {| mp_type := fourcc "ssnc"; mp_code := fourcc "snua"; mp_data := 0;
     mp_length := 0; mp_carrier := 0 |}.

(** A queue of two slots, both taken. *)
Definition queue_full : pc_queue :=
  {| item_size := 40; count := 2; capacity := 2; toq := 0; eoq := 0;
     items := [pack0; pack0] |}.

Definition queue_empty : pc_queue := pc_queue_init [pack0; pack0] 40 2.

(** Stand-ins for the external functions: an RTP layer that takes ports
    6000 to 6002 and marks the session as running, a codec that passes text
    through, and a digest that is constant. *)
Definition rtp_setup0 (c t : Z) (k : rtsp_conn_info) : rtsp_conn_info :=
  {| connection_number := connection_number k; stop := stop k;
     authorized := authorized k; auth_nonce := auth_nonce k; stream := stream k;
     max_frames_per_packet := max_frames_per_packet k;
     input_rate := input_rate k; input_num_channels := input_num_channels k;
     input_bit_depth := input_bit_depth k;
     input_bytes_per_frame := input_bytes_per_frame k;
     minimum_latency := minimum_latency k; maximum_latency := maximum_latency k;
     remote_control_port := c; remote_timing_port := t;
     local_audio_port := 6000; local_control_port := 6001;
     local_timing_port := 6002; rtp_running := 1;
     dacp_id := dacp_id k; dacp_active_remote := dacp_active_remote k;
     UserAgent := UserAgent k; AirPlayVersion := AirPlayVersion k;
     player_thread := player_thread k |}.

Definition ext0 : externals :=
  {| rtp_setup := rtp_setup0;
     player_play := fun k => k; player_stop := fun k => k;
     player_flush := fun _ k => k; player_volume := fun _ k => k;
     base64_dec := fun o => bytes <$> o;
     base64_enc := fun l => Some (String.string_of_list_ascii l);
     rsa_apply := fun o _ => default [] o;
     md5 := fun _ => replicate 16 NUL |}.

Definition cfg0 : configuration :=
  {| metadata_enabled := 1; metadata_sockmsglength := 500;
     allow_session_interruption := 0; get_coverart := 1;
     airplay_volume_text := "-20.000000";
     password := None; hw_addr := bytes "abcdef";
     CONFIG_METADATA_HUB := false; CONFIG_MQTT := false |}.

Definition env0 : handler_env :=
  {| cfg := cfg0; ext := ext0;
     md_env := fun _ _ => {| lock_rc := 0; malloc_ret := 0 |};
     rc_uninit := 0; interference := fun _ g => g; malloc_ok := true;
     value_addr := fun _ => 4096 |}.

Definition stream0 : stream_cfg :=
  {| type := ast_unknown; fmtp := replicate 12 0; encrypted := 0;
     aesiv := replicate 16 NUL; aeskey := replicate 16 NUL |}.

(** A connection as it is after [accept]: the record zeroed. *)
Definition conn0 : rtsp_conn_info :=
  {| connection_number := 1; stop := 0; authorized := 0; auth_nonce := None;
     stream := stream0; max_frames_per_packet := 0; input_rate := 0;
     input_num_channels := 0; input_bit_depth := 0; input_bytes_per_frame := 0;
     minimum_latency := 0; maximum_latency := 0; remote_control_port := 0;
     remote_timing_port := 0; local_audio_port := 0; local_control_port := 0;
     local_timing_port := 0; rtp_running := 0; dacp_id := None;
     dacp_active_remote := None; UserAgent := None; AirPlayVersion := 0;
     player_thread := 0 |}.

Definition heap0 : heap := {| msgs := ∅; bufs := ∅ |}.

Definition md0 : md_state :=
  {| metadata_queue := queue_empty; metadata_multicast_queue := queue_empty;
     metadata_hub_queue := queue_empty; metadata_mqtt_queue := queue_empty;
     md_heap := heap0 |}.

Definition slot_free : slot :=
  {| playing_conn := None; stop_flag := fun _ => 0; cancelled := [] |}.

(** The address of the connection under test and of another one. *)
Definition self : Z := 100000.
Definition other : Z := 200000.

Definition slot_taken : slot :=
  {| playing_conn := Some other; stop_flag := fun _ => 0; cancelled := [] |}.

Definition resp0 : rtsp_message := set_respcode 400 (fst (msg_init 2)).

Definition state0 : hstate :=
  {| h_conn := conn0; h_resp := resp0; h_slot := slot_free; h_md := md0;
     rtp_setup_calls := []; udp_port_resets := 0; slot_writes := [] |}.

Definition request (m : string) (hs : list (string * string)) (body : string)
    : rtsp_message :=
  {| index_number := 1; referenceCount := 1; headers := hs;
     contentlength := Z.of_nat (String.length body); content := Some body;
     method := m; respcode := 0 |}.

(** A request whose body of five bytes is cut short after two, and one
    whose headers are cut short; the peer then closes the connection. *)
Definition request_head : string :=
  "ANNOUNCE rtsp://host/stream RTSP/1.0" +:+ CRLF +:+ "CSeq: 1" +:+ CRLF.

Definition eof_in_body : list Reader.read_outcome :=
  [ Reader.Arrives (request_head +:+ "Content-Length: 5" +:+ CRLF +:+ CRLF +:+ "ab");
    Reader.Arrives EmptyString ].

Definition eof_in_headers : list Reader.read_outcome :=
  [ Reader.Arrives request_head; Reader.Arrives EmptyString ].

Definition whole_request : list Reader.read_outcome :=
  [ Reader.Arrives (request_head +:+ "Content-Length: 5" +:+ CRLF +:+ CRLF +:+ "ab");
    Reader.Arrives "cde" ].

Definition quiet : nat -> Reader.turn_env :=
  fun _ => {| Reader.stop_seen := 0; Reader.time_now := 0 |}.

(** A live message at address 70000 with one holder. *)
Definition carrier1 : Z := 70000.
Definition heap1 : heap :=
  {| msgs := {[ carrier1 := request "SET_PARAMETER" [] EmptyString ]}; bufs := ∅ |}.

Definition ops1 : list queue_op :=
  [OpAdd pack0 0 0; OpAdd pack0 1 0; OpAdd pack0 0 0; OpGet; OpGet; OpGet; OpAdd pack0 0 EBUSY].

(** A connection that owns the player, before and after its first SETUP. *)
Definition slot_own : slot :=
  {| playing_conn := Some self; stop_flag := fun _ => 0; cancelled := [] |}.
Definition state_own : hstate := with_slot slot_own state0.

Definition transport1 : string :=
  "RTP/AVP/UDP;unicast;interleaved=0-1;mode=record;control_port=6001;timing_port=6002".
Definition transport2 : string :=
  "RTP/AVP/UDP;unicast;interleaved=0-1;mode=record;control_port=7001;timing_port=7002".
Definition setup1 : rtsp_message :=
  request "SETUP" [("Transport"%string, transport1); ("DACP-ID"%string, "ABC"%string)]
    EmptyString.
Definition setup2 : rtsp_message :=
  request "SETUP" [("Transport"%string, transport2)] EmptyString.
Definition state_running : hstate := handle_setup env0 self 70000 setup1 state_own.

(** Payloads for the multicast sink. *)
Definition payload_small : list ascii := bytes "abc".
Definition payload_30 : list ascii := bytes "0123456789abcdefghijABCDEFGHIJ".
Definition payload_492 : list ascii := replicate 492 "a"%char.

(** Requests with an Apple challenge of 16 and of 17 bytes. *)
Definition challenge16 : rtsp_message :=
  request "OPTIONS" [("Apple-Challenge"%string, "0123456789abcdef"%string)] EmptyString.
Definition sockname4 : AppleChallenge.sockname :=
  AppleChallenge.Inet (bytes "wxyz").

(** GET_PARAMETER with a body that is not the volume query. *)
Definition get_parameter_other : rtsp_message :=
  request "GET_PARAMETER" [] "volume01".

(** ANNOUNCE bodies. *)
Definition sdp_four : string := "a=fmtp:96 352 0 16" +:+ CRLF.
Definition sdp_trailing_blank : string := "a=fmtp:96 " +:+ CRLF.
Definition announce_four : rtsp_message := request "ANNOUNCE" [] sdp_four.
Definition announce_trailing_blank : rtsp_message :=
  request "ANNOUNCE" [] sdp_trailing_blank.

Definition announce_no_codec : rtsp_message :=
  request "ANNOUNCE" [] ("v=0" +:+ CRLF).

(** Interruption allowed; the holder of the slot gives it up just before
    the fourth time the lock is taken. *)
Definition env_takeover : handler_env :=
  {| cfg := {| metadata_enabled := 1; metadata_sockmsglength := 500;
               allow_session_interruption := 1; get_coverart := 1;
               airplay_volume_text := "-20.000000"; password := None;
               hw_addr := bytes "abcdef"; CONFIG_METADATA_HUB := false;
               CONFIG_MQTT := false |};
     ext := ext0;
     md_env := fun _ _ => {| lock_rc := 0; malloc_ret := 0 |};
     rc_uninit := 0;
     interference := fun k g => if (k =? 3)%nat then set_playing_conn None g else g;
     malloc_ok := true; value_addr := fun _ => 4096 |}.

Definition announced_four : hstate :=
  default state0 (handle_announce env0 self 70000 announce_four state0).

(** A worker whose connection is authorised, and two requests. *)
Import Conversation.

Definition thread1 : thread :=
  {| th_state := with_conn (set_authorized 1 conn0) state0;
     rtsp_read_request_attempt_count := 1; rtsp_auth_calls := 0;
     dispatched := []; written := []; linger_zero := false |}.

Definition turn_of (req : rtsp_message) (write_reply : Z) : turn :=
  {| t_reply := rtsp_read_request_response_ok; t_reqp := 70000; t_req := req;
     t_env := env0; t_msg_indexes := 2; t_sockname := sockname4;
     t_urandom := Some (bytes "12345678"); t_write_reply := write_reply |}.

Definition turns1 : list turn :=
  [ turn_of (request "OPTIONS" [("CSeq"%string, "1"%string)] EmptyString) 148;
    turn_of (request "GET_PARAMETER" [("CSeq"%string, "2"%string)]
               ("volume" +:+ CRLF)) 94 ].

Definition thread1_after : thread :=
  default thread1 (conversation self turns1 thread1).

End Samples.
(* ================================================================== *)
(** * Further sample inputs *)
(* ================================================================== *)

Module MoreSamples.
Import CStr Metadata PcQueue Base64 Pipe.

(** A pipe on which every write is complete. *)
Definition pipe_env0 : pipe_env :=
  {| open_result := 5; write_ret := fun _ => 1; outbuf_uninit := replicate 76 NUL |}.

Definition pipe_open : pipe_state := {| fd := 5; writes := [] |}.

Definition bytes80 : list ascii :=
  String.list_ascii_of_string
    "hello world, this is a long text that is longer than fifty-seven bytes, in total".

(** A request with a body of five bytes. *)
Definition options_headers : list (string * string) :=
  [("CSeq", "7"); ("Content-Length", "5")]%string.

(** The world as a reader sees it when nobody asks it to stop. *)
Definition calm : nat -> Reader.turn_env :=
  fun _ => {| Reader.stop_seen := 0; Reader.time_now := 0 |}.

(** An [Authorization] value with the four fields, whose response is the
    digest the sample MD5 gives, and a request that carries it. *)
Definition authorization : string :=
  "Digest " +:+ Auth.quote_after "username=" +:+ Auth.quote_after "iTunes"
  +:+ ", " +:+ Auth.quote_after "realm=" +:+ Auth.quote_after "raop"
  +:+ ", " +:+ Auth.quote_after "uri=" +:+ Auth.quote_after "*"
  +:+ ", " +:+ Auth.quote_after "response="
  +:+ Auth.quote_after (Auth.hex16 (md5 Samples.ext0 EmptyString)).

Definition authorized_options : rtsp_message :=
  Samples.request "OPTIONS"
    [("CSeq", "1"); ("Authorization", authorization)]%string EmptyString.

(** A connection that has been sent a nonce, in a player with a password,
    and a turn of its conversation on the request above. *)
Definition cfg_password : configuration :=
  {| metadata_enabled := 1; metadata_sockmsglength := 500;
     allow_session_interruption := 0; get_coverart := 1;
     airplay_volume_text := "-20.000000";
     password := Some "secret"%string; hw_addr := Samples.bytes "abcdef";
     CONFIG_METADATA_HUB := false; CONFIG_MQTT := false |}.

Definition env_password : Handlers.handler_env :=
  {| Handlers.cfg := cfg_password; Handlers.ext := Samples.ext0;
     Handlers.md_env := fun _ _ => {| lock_rc := 0; malloc_ret := 0 |};
     Handlers.rc_uninit := 0; Handlers.interference := fun _ g => g;
     Handlers.malloc_ok := true; Handlers.value_addr := fun _ => 4096 |}.

Definition thread_challenged : Conversation.thread :=
  {| Conversation.th_state :=
       Handlers.with_conn (Conn.set_auth_nonce (Some "Tm9uY2U"%string) Samples.conn0)
         Samples.state0;
     Conversation.rtsp_read_request_attempt_count := 1;
     Conversation.rtsp_auth_calls := 1; Conversation.dispatched := [];
     Conversation.written := []; Conversation.linger_zero := false |}.

Definition turn_authorized : Conversation.turn :=
  {| Conversation.t_reply := Codec.rtsp_read_request_response_ok;
     Conversation.t_reqp := 70000; Conversation.t_req := authorized_options;
     Conversation.t_env := env_password; Conversation.t_msg_indexes := 2;
     Conversation.t_sockname := Samples.sockname4;
     Conversation.t_urandom := Some (Samples.bytes "12345678");
     Conversation.t_write_reply := 0 |}.

(** A SET_PARAMETER request that sets the volume. *)
Definition volume_request : rtsp_message :=
  Samples.request "SET_PARAMETER"
    [("CSeq", "3"); ("Content-Type", "text/parameters")]%string
    ("volume: " +:+ "-20.5" +:+ CRLF).

(** A DMAP body of twenty bytes: the eight bytes of the container, a tag,
    and a length field that holds 2^32 - 8. *)
Definition dmap_wrapping : string :=
  "mlit" +:+ String.string_of_list_ascii [NUL; NUL; NUL; NUL] +:+ "minm"
  +:+ String.string_of_list_ascii
        [ascii_of_nat 255; ascii_of_nat 255; ascii_of_nat 255; ascii_of_nat 248]
  +:+ "abcd".

Definition dmap_wrapping_request : rtsp_message :=
  Samples.request "SET_PARAMETER"
    [("CSeq", "4"); ("Content-Type", "application/x-dmap-tagged")]%string
    dmap_wrapping.

(** A DMAP body with two items, the second with an empty value. *)
Definition dmap_two_items : list (Z * string) :=
  [(Handlers.fourcc "minm", "Song"%string); (Handlers.fourcc "asal", EmptyString)].

Definition dmap_request : rtsp_message :=
  Samples.request "SET_PARAMETER"
    [("CSeq", "5"); ("Content-Type", "application/x-dmap-tagged")]%string
    ("mlit" +:+ HandlerNotions.be32 0 +:+ HandlerNotions.dmap_text dmap_two_items).

(** The metadata state with the sample message live and the queues empty. *)
Definition md_carrier : md_state :=
  {| metadata_queue := Samples.queue_empty;
     metadata_multicast_queue := Samples.queue_empty;
     metadata_hub_queue := Samples.queue_empty;
     metadata_mqtt_queue := Samples.queue_empty; md_heap := Samples.heap1 |}.

(** A table of four connections, with a stale entry left behind by an
    earlier cleanup, and the flags of the records: the first and the last
    connection have ended. *)
Definition table4 : Threads.table :=
  {| Threads.conns := [1000; 2000; 3000; 4000; 4000]; Threads.nconns := 4;
     Threads.freed := [] |}.

Definition running14 : nat -> Z -> Z :=
  fun _ c => if (c =? 1000) || (c =? 4000) then 0 else 1.

End MoreSamples.

(* ================================================================== *)
(** * Properties of the producer/consumer queue *)
(* ================================================================== *)

Module PcQueueProps.
Import PcQueue.

Lemma add_item_ring_ok q x block lock_rc q' rc :
  capacity q < 2 ^ 32 -> ring_ok q ->
  pc_queue_add_item (Some q) x block lock_rc = (rc, Some q') -> ring_ok q'.
Proof.
  unfold ring_ok, pc_queue_add_item, wrap32. intros Hcap (Hc & Ht & He) H.
  destruct ((block =? 0) && (lock_rc =? EBUSY)); [by simplify_eq|].
  destruct (count q <? capacity q) eqn:Hlt; [|by simplify_eq].
  apply Z.ltb_lt in Hlt. simplify_eq. simpl.
  rewrite !Z.mod_small by lia.
  destruct (eoq q + 1 =? capacity q) eqn:Hfold; [lia|].
  apply Z.eqb_neq in Hfold. lia.
Qed.

Lemma get_item_ring_ok q rc x q' :
  capacity q < 2 ^ 32 -> ring_ok q ->
  pc_queue_get_item (Some q) = GetReturned rc x (Some q') -> ring_ok q'.
Proof.
  unfold ring_ok, pc_queue_get_item, wrap32. intros Hcap (Hc & Ht & He) H.
  destruct (count q =? 0) eqn:Hz; [done|].
  apply Z.eqb_neq in Hz. simplify_eq. simpl.
  rewrite !Z.mod_small by lia.
  destruct (toq q + 1 =? capacity q) eqn:Hfold; [lia|].
  apply Z.eqb_neq in Hfold. lia.
Qed.

Lemma add_item_capacity q x block lock_rc q' rc :
  pc_queue_add_item (Some q) x block lock_rc = (rc, Some q') ->
  capacity q' = capacity q.
Proof.
  unfold pc_queue_add_item. intros H.
  destruct ((block =? 0) && (lock_rc =? EBUSY)); [by simplify_eq|].
  destruct (count q <? capacity q); by simplify_eq.
Qed.

Lemma get_item_capacity q rc x q' :
  pc_queue_get_item (Some q) = GetReturned rc x (Some q') ->
  capacity q' = capacity q.
Proof.
  unfold pc_queue_get_item. intros H.
  destruct (count q =? 0); by simplify_eq.
Qed.

Lemma apply_op_ring_ok q op :
  capacity q < 2 ^ 32 -> ring_ok q ->
  ring_ok (apply_op q op) /\ capacity (apply_op q op) = capacity q.
Proof.
  intros Hcap Hok. destruct op as [x block lock_rc|]; unfold apply_op.
  - destruct (pc_queue_add_item (Some q) x block lock_rc) as [rc [q'|]] eqn:H;
      cbn [snd]; [|done].
    split; [by eapply add_item_ring_ok | by eapply add_item_capacity].
  - destruct (pc_queue_get_item (Some q)) as [|rc x [q'|]] eqn:H; try done.
    split; [by eapply get_item_ring_ok | by eapply get_item_capacity].
Qed.

Lemma run_ops_ring_ok ops : forall q,
  capacity q < 2 ^ 32 -> ring_ok q ->
  ring_ok (run_ops q ops) /\ capacity (run_ops q ops) = capacity q.
Proof.
  induction ops as [|op ops IH]; intros q Hcap Hok; [done|].
  unfold run_ops in *. simpl.
  destruct (apply_op_ring_ok q op Hcap Hok) as [Hok' Hcap'].
  destruct (IH (apply_op q op)) as [H1 H2]; [lia|done|].
  split; [done | congruence].
Qed.

(** A call that finds the lock busy gives up with [EBUSY] and touches
    nothing either. *)
Lemma add_item_busy q x :
  pc_queue_add_item (Some q) x 0 EBUSY = (EBUSY, Some q).
Proof. done. Qed.

(** C2.  On a full queue [pc_queue_add_item], once it holds the lock,
    returns [EWOULDBLOCK] at once (the model is a total function: there is
    no wait) and the queue, its counters and its items are what they were.
    Starting from an initialised queue of positive capacity, after any
    sequence of add and get operations the count lies between 0 and the
    capacity and both ring indices are below the capacity. *)
Theorem pc_queue_full_add_and_ring_bounds
    (q : pc_queue) (x : metadata_package) (block lock_rc : Z)
    (slots : list metadata_package) (isz cap : Z) (ops : list queue_op) :
  count q = capacity q ->
  lock_taken block lock_rc ->
  0 < cap < 2 ^ 32 ->
  pc_queue_add_item (Some q) x block lock_rc = (EWOULDBLOCK, Some q)
  /\ (let q' := run_ops (pc_queue_init slots isz cap) ops in
      0 <= count q' <= capacity q' /\ 0 <= toq q' < capacity q'
      /\ 0 <= eoq q' < capacity q' /\ capacity q' = cap).
Proof.
  intros Hfull Hlock Hcap. split.
  - unfold pc_queue_add_item.
    destruct ((block =? 0) && (lock_rc =? EBUSY)) eqn:Hb.
    + apply andb_true_iff in Hb as [Hb1 Hb2].
      apply Z.eqb_eq in Hb1, Hb2. by destruct (Hlock Hb1).
    + rewrite Hfull, Z.ltb_irrefl. done.
  - destruct (run_ops_ring_ok ops (pc_queue_init slots isz cap)) as [(?&?&?) Hc];
      [simpl; lia | unfold ring_ok; simpl; lia |].
    simpl in *. rewrite Hc. simpl. repeat split; lia.
Qed.

(** The theorem at a full queue of two slots and at a run of seven
    operations on a fresh queue of two slots. *)
Lemma pc_queue_full_add_and_ring_bounds_witness :
  count Samples.queue_full = capacity Samples.queue_full
  /\ lock_taken 0 0
  /\ 0 < 2 < 2 ^ 32
  /\ pc_queue_add_item (Some Samples.queue_full) Samples.pack0 0 0
     = (EWOULDBLOCK, Some Samples.queue_full)
  /\ (let q' := run_ops (pc_queue_init [Samples.pack0; Samples.pack0] 40 2)
                  Samples.ops1 in
      0 <= count q' <= capacity q' /\ 0 <= toq q' < capacity q'
      /\ 0 <= eoq q' < capacity q' /\ capacity q' = 2).
Proof.
  split; [reflexivity|].
  split; [intros _ H; discriminate H|].
  split; [lia|].
  apply (pc_queue_full_add_and_ring_bounds Samples.queue_full Samples.pack0 0 0
           [Samples.pack0; Samples.pack0] 40 2 Samples.ops1);
    [reflexivity | intros _ H; discriminate H | lia].
Defined.

End PcQueueProps.

(* ================================================================== *)
(** * Properties of the metadata fan-out *)
(* ================================================================== *)

Module MetadataProps.
Import PcQueue Metadata Handlers.

Lemma set_referenceCount_id m c :
  set_referenceCount (referenceCount m) (set_referenceCount c m) = m.
Proof. by destruct m. Qed.

Lemma wrap32_retain_release c :
  0 < c < 2 ^ 32 -> wrap32 (wrap32 (c + 1) - 1) = c.
Proof.
  intros Hc. unfold wrap32. rewrite Zminus_mod_idemp_l.
  replace (c + 1 - 1) with c by lia. apply Z.mod_small. lia.
Qed.

(** A retain followed by a release leaves the store as it was: the count
    of a live carrier is back at its value and the message is not
    deallocated. *)
Lemma msg_free_msg_retain (carrier : Z) (ms : gmap Z rtsp_message) :
  (forall m, ms !! carrier = Some m -> 0 < referenceCount m < 2 ^ 32) ->
  snd (msg_free carrier (msg_retain carrier ms)) = ms.
Proof.
  intros Hlive. unfold msg_free, msg_retain.
  destruct (65536 <? carrier); [|done].
  destruct (ms !! carrier) as [m|] eqn:Hm; [|by rewrite Hm].
  rewrite lookup_insert_eq. simpl.
  rewrite (wrap32_retain_release _ (Hlive m eq_refl)).
  destruct (referenceCount m =? 0) eqn:Hz.
  { apply Z.eqb_eq in Hz. specialize (Hlive m eq_refl). lia. }
  simpl. rewrite insert_insert_eq.
  apply insert_id. rewrite Hm. f_equal.
  by destruct m.
Qed.

(** The copy [memdup] made is gone after [free]. *)
Lemma free_memdup data_bytes len malloc_ret (bs : gmap Z (list ascii)) p bs' :
  malloc_ret = 0 \/ bs !! malloc_ret = None ->
  memdup data_bytes len malloc_ret bs = (p, bs') ->
  (if negb (p =? 0) then free p bs' else bs') = bs.
Proof.
  unfold memdup, free. intros Hfresh H.
  destruct (malloc_ret =? 0) eqn:Hz; simplify_eq; [done|].
  rewrite Hz. simpl. destruct Hfresh as [->|Hnone]; [done|].
  by apply delete_insert_id.
Qed.

(** A nonzero return of [pc_queue_add_item] means nothing was stored. *)
Lemma add_item_failed queue pack block lock_rc rc queue' :
  pc_queue_add_item queue pack block lock_rc = (rc, queue') ->
  rc <> 0 -> queue' = queue.
Proof.
  unfold pc_queue_add_item. intros H Hrc.
  destruct queue as [q|]; [|by simplify_eq].
  destruct ((block =? 0) && (lock_rc =? EBUSY)); [by simplify_eq|].
  destruct (count q <? capacity q); by simplify_eq.
Qed.

(** At a call site in a handler the value [send_metadata] returns is
    dropped: the connection, the response, the slot and the logs are
    what they were, whatever happened to the queues. *)
Lemma send_frame E k type code data data_bytes len carrier block s :
  let s' := send E k type code data data_bytes len carrier block s in
  h_conn s' = h_conn s
  /\ h_resp s' = h_resp s
  /\ h_slot s' = h_slot s
  /\ rtp_setup_calls s' = rtp_setup_calls s
  /\ slot_writes s' = slot_writes s
  /\ udp_port_resets s' = udp_port_resets s.
Proof.
  unfold send.
  by destruct (send_metadata _ _ _ _ _ _ _ _ _ _ _) as [rc md].
Qed.

Lemma send_conn E k type code data data_bytes len carrier block s :
  h_conn (send E k type code data data_bytes len carrier block s) = h_conn s.
Proof. apply send_frame. Qed.

Lemma send_resp E k type code data data_bytes len carrier block s :
  h_resp (send E k type code data data_bytes len carrier block s) = h_resp s.
Proof. apply send_frame. Qed.

Lemma send_slot E k type code data data_bytes len carrier block s :
  h_slot (send E k type code data data_bytes len carrier block s) = h_slot s.
Proof. apply send_frame. Qed.

Lemma publish_frame E k type code data req s :
  h_conn (publish E k type code data req s) = h_conn s
  /\ h_resp (publish E k type code data req s) = h_resp s
  /\ h_slot (publish E k type code data req s) = h_slot s
  /\ rtp_setup_calls (publish E k type code data req s) = rtp_setup_calls s
  /\ slot_writes (publish E k type code data req s) = slot_writes s
  /\ udp_port_resets (publish E k type code data req s) = udp_port_resets s.
Proof. unfold publish. apply send_frame. Qed.

Lemma publish_conn E k type code data req s :
  h_conn (publish E k type code data req s) = h_conn s.
Proof. apply publish_frame. Qed.

Lemma publish_resp E k type code data req s :
  h_resp (publish E k type code data req s) = h_resp s.
Proof. apply publish_frame. Qed.

Lemma publish_slot E k type code data req s :
  h_slot (publish E k type code data req s) = h_slot s.
Proof. apply publish_frame. Qed.

Lemma publish_rtp_setup_calls E k type code data req s :
  rtp_setup_calls (publish E k type code data req s) = rtp_setup_calls s.
Proof. apply publish_frame. Qed.

Lemma publish_slot_writes E k type code data req s :
  slot_writes (publish E k type code data req s) = slot_writes s.
Proof. apply publish_frame. Qed.

Local Ltac close_parts :=
  repeat match goal with |- _ /\ _ => split end;
  try done; try (intros; done); try (intros; congruence).

(** C3.  When the enqueue fails, [send_metadata_to_queue] undoes what it
    did on entry: with a carrier, the store of messages after the call is
    the one obtained by one [msg_retain] followed by one [msg_free], which
    is the store on entry (same count, message still live); without a
    carrier and with data, the buffers are those on entry, the copy having
    been freed.  The queue is untouched and the code is only returned; at a
    handler's call site it is dropped and the connection, the response and
    the slot stay as they were. *)
Theorem send_metadata_to_queue_failure_undone
    (queue : option pc_queue) (type code data : Z) (data_bytes : list ascii)
    (len carrier block lock_rc malloc_ret : Z) (h : heap)
    (rc : Z) (queue' : option pc_queue) (h' : heap)
    (E : handler_env) (k : nat) (s : hstate) :
  send_metadata_to_queue queue type code data data_bytes len carrier block
    lock_rc malloc_ret h = (rc, queue', h') ->
  rc <> 0 ->
  (forall m, msgs h !! carrier = Some m -> 0 < referenceCount m < 2 ^ 32) ->
  (malloc_ret = 0 \/ bufs h !! malloc_ret = None) ->
  (carrier <> 0 ->
     msgs h' = snd (msg_free carrier (msg_retain carrier (msgs h)))
     /\ msgs h' = msgs h /\ bufs h' = bufs h)
  /\ (carrier = 0 -> data <> 0 -> bufs h' = bufs h /\ msgs h' = msgs h)
  /\ h' = h
  /\ queue' = queue
  /\ h_conn (send E k type code data data_bytes len carrier block s) = h_conn s
  /\ h_resp (send E k type code data data_bytes len carrier block s) = h_resp s
  /\ h_slot (send E k type code data data_bytes len carrier block s) = h_slot s.
Proof.
  intros Hcall Hrc Hlive Hfresh.
  unfold send_metadata_to_queue in Hcall.
  destruct (carrier =? 0) eqn:Hcar; simpl in Hcall.
  - apply Z.eqb_eq in Hcar. subst carrier.
    destruct (data =? 0) eqn:Hdata; simpl in Hcall.
    + destruct (pc_queue_add_item _ _ _ _) as [rc0 q0] eqn:Hadd.
      rewrite Hdata in Hcall. simpl in Hcall.
      assert (rc0 = rc) by (destruct (rc0 =? 0); congruence). subst rc0.
      assert (h' = h) as -> by (destruct (rc =? 0); simpl in Hcall; congruence).
      assert (q0 = queue') as -> by (destruct (rc =? 0); congruence).
      pose proof (add_item_failed _ _ _ _ _ _ Hadd Hrc).
      destruct (send_frame E k type code data data_bytes len 0 block s)
        as (? & ? & ? & _).
      close_parts.
    + destruct (memdup _ _ _ _) as [p bs] eqn:Hdup.
      destruct (pc_queue_add_item _ _ _ _) as [rc0 q0] eqn:Hadd.
      pose proof (free_memdup _ _ _ _ _ _ Hfresh Hdup) as Hfree.
      destruct (rc0 =? 0) eqn:Hz; simpl in Hcall.
      { apply Z.eqb_eq in Hz. simplify_eq. }
      simplify_eq.
      assert ((if negb (p =? 0)
               then {| msgs := msgs h; bufs := free p bs |}
               else {| msgs := msgs h; bufs := bs |}) = h) as Hh.
      { destruct h as [ms0 bs0]. simpl in *.
        destruct (p =? 0); simpl in *; by subst. }
      rewrite Hh.
      pose proof (add_item_failed _ _ _ _ _ _ Hadd Hrc).
      destruct (send_frame E k type code data data_bytes len 0 block s)
        as (? & ? & ? & _).
      close_parts.
  - destruct (pc_queue_add_item _ _ _ _) as [rc0 q0] eqn:Hadd.
    destruct (rc0 =? 0) eqn:Hz; simpl in Hcall.
    { apply Z.eqb_eq in Hz. simplify_eq. }
    simplify_eq. simpl.
    pose proof (msg_free_msg_retain carrier (msgs h) Hlive) as Hpair.
    rewrite Hpair.
    pose proof (add_item_failed _ _ _ _ _ _ Hadd Hrc).
    destruct (send_frame E k type code data data_bytes len carrier block s)
      as (? & ? & ? & _).
    destruct h as [ms0 bs0]. simpl in *. close_parts.
Qed.

(** The theorem at a full queue and a live carrier with one holder. *)
Lemma send_metadata_to_queue_failure_undone_witness :
  send_metadata_to_queue (Some Samples.queue_full) 1 2 4096 (Samples.bytes "xyz") 3
    Samples.carrier1 1 0 0 Samples.heap1
  = (EWOULDBLOCK, Some Samples.queue_full, Samples.heap1)
  /\ EWOULDBLOCK <> 0
  /\ msgs Samples.heap1
     = snd (msg_free Samples.carrier1 (msg_retain Samples.carrier1 (msgs Samples.heap1)))
  /\ h_conn (send Samples.env0 0 1 2 4096 (Samples.bytes "xyz") 3 Samples.carrier1 1
               Samples.state0) = h_conn Samples.state0.
Proof.
  assert (send_metadata_to_queue (Some Samples.queue_full) 1 2 4096
            (Samples.bytes "xyz") 3 Samples.carrier1 1 0 0 Samples.heap1
          = (EWOULDBLOCK, Some Samples.queue_full, Samples.heap1)) as Hcall
    by (vm_compute; reflexivity).
  assert (EWOULDBLOCK <> 0) as Hrc by (intros H; discriminate H).
  assert (forall m, msgs Samples.heap1 !! Samples.carrier1 = Some m ->
                    0 < referenceCount m < 2 ^ 32) as Hlive.
  { intros m Hm. vm_compute in Hm. injection Hm as <-. simpl. lia. }
  destruct (send_metadata_to_queue_failure_undone
              (Some Samples.queue_full) 1 2 4096 (Samples.bytes "xyz") 3
              Samples.carrier1 1 0 0 Samples.heap1 EWOULDBLOCK
              (Some Samples.queue_full) Samples.heap1
              Samples.env0 0 Samples.state0
              Hcall Hrc Hlive (or_introl eq_refl))
    as (Hcarrier & _ & _ & _ & Hconn & _).
  destruct (Hcarrier ltac:(intros H; discriminate H)) as (Hpair & _).
  split; [exact Hcall|]. split; [exact Hrc|]. split; [by rewrite <- Hpair|]. exact Hconn.
Defined.

End MetadataProps.

#[global] Arguments Handlers.send : simpl never.
#[global] Arguments Handlers.publish : simpl never.

Create Rewrite HintDb frame.
#[export] Hint Rewrite MetadataProps.send_conn MetadataProps.send_resp
  MetadataProps.send_slot : frame.
#[export] Hint Rewrite MetadataProps.publish_conn MetadataProps.publish_resp
  MetadataProps.publish_slot MetadataProps.publish_rtp_setup_calls
  MetadataProps.publish_slot_writes : frame.

(* ================================================================== *)
(** * Properties of the multicast sink *)
(* ================================================================== *)

Module MulticastProps.
Import Multicast.

Lemma chunk_header_length ix total type code :
  length (chunk_header ix total type code) = 24%nat.
Proof. reflexivity. Qed.

Lemma chunk_payload_app ix total type code (payload : list ascii) :
  chunk_payload (chunk_header ix total type code ++ payload) = payload.
Proof. reflexivity. Qed.

(** The ceiling of a quotient, the way the code computes it. *)
Lemma ceil_div_as_computed (len cs : Z) :
  0 <= len -> 0 < cs ->
  (if len / cs * cs <? len then len / cs + 1 else len / cs) = (len + cs - 1) / cs.
Proof.
  intros Hlen Hcs.
  pose proof (Z.div_mod len cs ltac:(lia)) as Hdm.
  pose proof (Z.mod_pos_bound len cs Hcs) as Hmod.
  destruct (len / cs * cs <? len) eqn:Hlt.
  - apply Z.ltb_lt in Hlt.
    apply (Z.div_unique _ _ _ (len mod cs - 1)); lia.
  - apply Z.ltb_ge in Hlt.
    apply (Z.div_unique _ _ _ (cs - 1)); lia.
Qed.

(** One turn of the loop, with the header of the datagram named. *)
Lemma chunk_loop_turn fuel L type code total ix remaining data :
  chunk_loop (S fuel) L type code total ix remaining data =
  let datalen :=
    if size_wrap (L - 24) <? remaining then size_wrap (L - 24) else remaining in
  let dgram := chunk_header ix total type code ++ take (Z.to_nat datalen) data in
  if wrap32 (remaining - datalen) =? 0 then Some [dgram]
  else
    match chunk_loop fuel L type code total (wrap32 (ix + 1))
            (wrap32 (remaining - datalen)) (drop (Z.to_nat datalen) data) with
    | Some rest => Some (dgram :: rest)
    | None => None
    end.
Proof. reflexivity. Qed.

Local Opaque chunk_header chunk_payload.

(** The loop of the chunked branch: it ends, and the datagrams it sends
    are numbered from [ix], carry the header, and their payloads put end to
    end are the data. *)
Lemma chunk_loop_spec (L type code total : Z) (fuel : nat) :
  24 < L < 2 ^ 64 ->
  forall (ix remaining : Z) (data : list ascii),
    0 < remaining -> remaining = Z.of_nat (length data) ->
    remaining <= Z.of_nat fuel -> 0 <= ix -> ix + remaining <= 2 ^ 32 ->
    exists chunks,
      chunk_loop fuel L type code total ix remaining data = Some chunks
      /\ Z.of_nat (length chunks) = (remaining + (L - 24) - 1) / (L - 24)
      /\ concat (map chunk_payload chunks) = data
      /\ forall (i : nat) d, chunks !! i = Some d ->
           d = chunk_header (ix + Z.of_nat i) total type code ++ chunk_payload d
           /\ Z.of_nat (length (chunk_payload d)) <= L - 24.
Proof.
  intros HL. induction fuel as [|fuel IH]; intros ix remaining data Hpos Hlen Hfuel Hix Hsum.
  { simpl in Hfuel. lia. }
  rewrite chunk_loop_turn. unfold size_wrap. rewrite (Z.mod_small (L - 24)) by lia.
  cbv zeta.
  destruct (L - 24 <? remaining) eqn:Hbig.
  - apply Z.ltb_lt in Hbig.
    assert (wrap32 (remaining - (L - 24)) = remaining - (L - 24)) as Hrem
      by (unfold wrap32; apply Z.mod_small; lia).
    assert (wrap32 (ix + 1) = ix + 1) as Hix1
      by (unfold wrap32; apply Z.mod_small; lia).
    rewrite Hrem, Hix1.
    destruct (remaining - (L - 24) =? 0) eqn:Hz; [apply Z.eqb_eq in Hz; lia|].
    destruct (IH (ix + 1) (remaining - (L - 24)) (drop (Z.to_nat (L - 24)) data))
      as (rest & Hrest & Hcount & Hcat & Hhdr); try lia.
    { rewrite length_drop. lia. }
    rewrite Hrest. eexists. split; [reflexivity|]. split; [|split].
    + rewrite length_cons, Nat2Z.inj_succ, Hcount.
      replace (remaining + (L - 24) - 1)
        with (remaining - (L - 24) + (L - 24) - 1 + 1 * (L - 24)) by lia.
      rewrite Z.div_add by lia. lia.
    + cbn [map concat]. rewrite Hcat, chunk_payload_app.
      apply take_drop.
    + intros [|i] d Hd.
      * cbn in Hd. injection Hd as <-.
        rewrite chunk_payload_app, Z.add_0_r. split; [reflexivity|].
        rewrite length_take. lia.
      * cbn in Hd. destruct (Hhdr i d Hd) as [Hd1 Hd2].
        split; [|done]. rewrite Hd1 at 1. do 2 f_equal. lia.
  - apply Z.ltb_ge in Hbig.
    assert (wrap32 (remaining - remaining) = 0) as Hrem
      by (rewrite Z.sub_diag; reflexivity).
    rewrite Hrem. cbn [Z.eqb].
    eexists. split; [reflexivity|]. split; [|split].
    + cbn [length]. apply (Z.div_unique _ _ _ (remaining - 1)); lia.
    + cbn [map concat]. rewrite chunk_payload_app, app_nil_r.
      apply take_ge. lia.
    + intros [|i] d Hd; [|done].
      cbn in Hd. injection Hd as <-.
      rewrite chunk_payload_app, Z.add_0_r. split; [reflexivity|].
      rewrite length_take. lia.
Qed.

(** C6, as the code has it.  With the socket open and a message length
    above 24, a payload shorter than [sockmsglength - 8] goes out as the one
    datagram type, code, payload.  Any other payload goes out in chunks:
    their number is the ceiling of [length / (sockmsglength - 24)], the
    i-th datagram is the header "ssncchnk", i, the number of chunks, type,
    code followed by its slice, no slice is longer than [sockmsglength -
    24], and the slices put end to end are the payload. *)
Theorem metadata_multicast_process_datagrams
    (metadata_sock L type code : Z) (data : list ascii) :
  0 <= metadata_sock ->
  24 < L < 2 ^ 32 ->
  Z.of_nat (length data) < 2 ^ 32 ->
  let len := Z.of_nat (length data) in
  (len < L - 8 ->
     metadata_multicast_process metadata_sock L type code data len
     = Some [htonl_bytes type ++ htonl_bytes code ++ data])
  /\ (L - 8 <= len ->
       exists chunks,
         metadata_multicast_process metadata_sock L type code data len = Some chunks
         /\ let chunk_total := (len + (L - 24) - 1) / (L - 24) in
            Z.of_nat (length chunks) = chunk_total
            /\ concat (map chunk_payload chunks) = data
            /\ forall (i : nat) d, chunks !! i = Some d ->
                 d = chunk_header (Z.of_nat i) chunk_total type code ++ chunk_payload d
                 /\ Z.of_nat (length (chunk_payload d)) <= L - 24).
Proof.
  intros Hsock HL Hlen len. unfold metadata_multicast_process, size_wrap.
  subst len. remember (Z.of_nat (length data)) as n eqn:Hn.
  rewrite (Z.mod_small (L - 8)), (Z.mod_small (L - 24)) by lia.
  assert ((0 <=? metadata_sock) = true) as -> by (apply Z.leb_le; lia).
  cbn [andb]. split.
  - intros Hsmall. assert ((n <? L - 8) = true) as -> by (apply Z.ltb_lt; lia).
    rewrite Hn, Nat2Z.id, firstn_all. reflexivity.
  - intros Hbig. assert ((n <? L - 8) = false) as -> by (apply Z.ltb_ge; lia).
    assert (0 <= n) as Hn0 by lia.
    assert (0 <= n / (L - 24) <= n) as Hq.
    { split; [apply Z.div_pos; lia|]. apply Z.div_le_upper_bound; nia. }
    assert (wrap32 (n / (L - 24)) = n / (L - 24)) as Hw
      by (unfold wrap32; apply Z.mod_small; lia).
    rewrite Hw.
    assert (n / (L - 24) * (L - 24) <= n) as Hmul.
    { rewrite Z.mul_comm. apply Z.mul_div_le. lia. }
    assert (0 <= n / (L - 24) * (L - 24)) by (apply Z.mul_nonneg_nonneg; lia).
    rewrite (Z.mod_small (n / (L - 24) * (L - 24))) by lia.
    pose proof (ceil_div_as_computed n (L - 24) ltac:(lia) ltac:(lia)) as Hceil.
    assert ((if n / (L - 24) * (L - 24) <? n
             then wrap32 (n / (L - 24) + 1) else n / (L - 24))
            = (n + (L - 24) - 1) / (L - 24)) as ->.
    { rewrite <- Hceil. destruct (n / (L - 24) * (L - 24) <? n) eqn:Hlt; [|done].
      apply Z.ltb_lt in Hlt. unfold wrap32. apply Z.mod_small. nia. }
    destruct (chunk_loop_spec L type code ((n + (L - 24) - 1) / (L - 24))
                (S (Z.to_nat n)) ltac:(lia) 0 n data ltac:(lia) Hn ltac:(lia)
                ltac:(lia) ltac:(lia))
      as (chunks & Hloop & Hcount & Hcat & Hhdr).
    exists chunks. split; [exact Hloop|]. cbv zeta.
    split; [exact Hcount|]. split; [exact Hcat|].
    intros i d Hd. destruct (Hhdr i d Hd) as [H1 H2].
    split; [|exact H2]. rewrite Z.add_0_l in H1. exact H1.
Qed.

(** The theorem at a payload of three bytes, sent whole, and at one of
    thirty bytes with a message length of 32, sent in four chunks. *)
Lemma metadata_multicast_process_datagrams_witness :
  (0 <= 3 /\ 24 < 500 < 2 ^ 32 /\ Z.of_nat (length Samples.payload_small) < 2 ^ 32)
  /\ metadata_multicast_process 3 500 1 2 Samples.payload_small 3
     = Some [htonl_bytes 1 ++ htonl_bytes 2 ++ Samples.payload_small]
  /\ exists chunks,
       metadata_multicast_process 3 32 1 2 Samples.payload_30 30 = Some chunks
       /\ Z.of_nat (length chunks) = 4
       /\ concat (map chunk_payload chunks) = Samples.payload_30.
Proof.
  split; [repeat split; try lia; vm_compute; reflexivity|].
  split.
  - apply (metadata_multicast_process_datagrams 3 500 1 2 Samples.payload_small);
      [lia | lia | vm_compute; reflexivity | vm_compute; reflexivity].
  - destruct (metadata_multicast_process_datagrams 3 32 1 2 Samples.payload_30
                ltac:(lia) ltac:(lia) ltac:(vm_compute; reflexivity))
      as [_ Hbig].
    destruct (Hbig ltac:(vm_compute; discriminate)) as (chunks & Hrun & Hn & Hcat & _).
    exists chunks. split; [exact Hrun|]. split; [exact Hn|exact Hcat].
Defined.

(** C6 as stated fails at the boundary: with a message length of 500, a
    payload of exactly 500 - 8 = 492 bytes is not sent as one datagram of
    type, code and payload; it goes out as two chunks of 500 and 40 bytes. *)
Lemma metadata_multicast_boundary_counterexample :
  Z.of_nat (length Samples.payload_492) <= 500 - 8
  /\ metadata_multicast_process 3 500 1 2 Samples.payload_492 492
     <> Some [htonl_bytes 1 ++ htonl_bytes 2 ++ Samples.payload_492]
  /\ map length <$> metadata_multicast_process 3 500 1 2 Samples.payload_492 492
     = Some [500%nat; 40%nat].
Proof.
  split; [vm_compute; discriminate|].
  assert (map length <$> metadata_multicast_process 3 500 1 2 Samples.payload_492 492
          = Some [500%nat; 40%nat]) as Hlens by (vm_compute; reflexivity).
  split; [|exact Hlens].
  intros Hone. rewrite Hone in Hlens. discriminate Hlens.
Qed.

End MulticastProps.

(* ================================================================== *)
(** * Properties of GET_PARAMETER *)
(* ================================================================== *)

Module GetParameterProps.
Import CStr Codec Conn Handlers.

(** [strstr(s, lit) == s] says that [s] starts with [lit]. *)
Lemma strstr_at_start (s lit : string) :
  strstr s lit = Some O <-> has_prefix lit s = true.
Proof.
  unfold strstr, has_prefix. destruct (cstr s) as [|b s2]; simpl.
  - destruct lit; simpl; split; congruence.
  - destruct lit as [|a lit']; simpl; [done|].
    destruct (ascii_dec a b) as [->|Hne].
    + destruct (String.prefix lit' s2); [done|].
      destruct (String.index 0 (String b lit') s2); split; congruence.
    + destruct (String.index 0 (String a lit') s2); split; congruence.
Qed.

(** C8, as the code has it.  [handle_get_parameter] always answers 200 and
    touches nothing but the response.  It attaches a body exactly when the
    request body is eight bytes long and starts with "volume" (the last two
    bytes are not looked at) and the buffer for the answer could be
    allocated; the body is then a line break, "volume: ", the volume and a
    line break, cut to 127 bytes, with the full length as content length.
    In every other case the response keeps the body it came with. *)
Theorem handle_get_parameter_volume
    (E : handler_env) (conn reqp : Z) (req : rtsp_message) (s : hstate) :
  let s' := handle_get_parameter E conn reqp req s in
  respcode (h_resp s') = 200
  /\ h_conn s' = h_conn s /\ h_slot s' = h_slot s /\ h_md s' = h_md s
  /\ (asks_volume req /\ malloc_ok E = true ->
        content (h_resp s') = Some (stake 127 (volume_text E))
        /\ contentlength (h_resp s') = Z.of_nat (String.length (volume_text E)))
  /\ (~ (asks_volume req /\ malloc_ok E = true) ->
        h_resp s' = set_respcode 200 (h_resp s)).
Proof.
  unfold handle_get_parameter, asks_volume. cbv zeta.
  split; [done|]. split; [done|]. split; [done|]. split; [done|].
  change (strlen ("volume" +:+ CRLF)) with 8.
  destruct (content req) as [c|] eqn:Hc.
  - destruct (contentlength req =? 8) eqn:Hlen; simpl.
    + apply Z.eqb_eq in Hlen.
      destruct (bool_decide (strstr c "volume" = Some O)) eqn:Hpre; simpl.
      * apply bool_decide_eq_true in Hpre. apply strstr_at_start in Hpre.
        destruct (malloc_ok E) eqn:Hm; simpl.
        -- split; [done|]. intros Hn. destruct Hn. split; [|done]. by exists c.
        -- split; [intros [_ ?]; done | done].
      * apply bool_decide_eq_false in Hpre.
        split; [|done]. intros [(c' & Hc' & _ & Hp) _]. simplify_eq.
        destruct Hpre. by apply strstr_at_start.
    + apply Z.eqb_neq in Hlen.
      split; [|done]. intros [(c' & _ & Hl & _) _]. done.
  - split; [|done]. intros [(c' & Hc' & _) _]. done.
Qed.

(** C8 as stated fails for a body that is not the volume query: the eight
    bytes "volume01" are answered with the volume as well. *)
Lemma handle_get_parameter_prefix_counterexample :
  content Samples.get_parameter_other <> Some ("volume" +:+ CRLF)
  /\ content (h_resp (handle_get_parameter Samples.env0 Samples.self 70000
                        Samples.get_parameter_other Samples.state0))
     = Some (CRLF +:+ "volume: -20.000000" +:+ CRLF).
Proof. split; [intros H; discriminate H | vm_compute; reflexivity]. Qed.

(** The volume query itself, and a body of another length. *)
Example handle_get_parameter_volume_query :
  h_resp (handle_get_parameter Samples.env0 Samples.self 70000
            (Samples.request "GET_PARAMETER" [] ("volume" +:+ CRLF)) Samples.state0)
  = set_content (Some (CRLF +:+ "volume: -20.000000" +:+ CRLF)) 22
      (set_respcode 200 Samples.resp0)
  /\ h_resp (handle_get_parameter Samples.env0 Samples.self 70000
               (Samples.request "GET_PARAMETER" [] "volume") Samples.state0)
     = set_respcode 200 Samples.resp0.
Proof. split; vm_compute; reflexivity. Qed.

End GetParameterProps.

(* ================================================================== *)
(** * Properties of the Apple challenge *)
(* ================================================================== *)

Module AppleChallengeProps.
Import CStr Codec AppleChallenge.

Lemma bytes_n_length n l : length (bytes_n n l) = n.
Proof. unfold bytes_n. by rewrite length_map, length_seq. Qed.

Lemma overwrite_zeros (pre src : list ascii) (n : nat) :
  (length src <= n)%nat ->
  overwrite (length pre) src (pre ++ replicate n NUL)
  = (pre ++ src) ++ replicate (n - length src) NUL.
Proof.
  intros Hle. unfold overwrite.
  rewrite take_app_length, drop_app_add', drop_replicate by done.
  by rewrite <- app_assoc.
Qed.

(** The buffer given to [rsa_apply] is the challenge, the address and the
    hardware address, padded with zeros to 32 bytes. *)
Lemma challenge_buffer_layout hw fdsa (chall : list ascii) :
  (length chall <= 16)%nat ->
  challenge_buffer hw fdsa chall
  = zero_padded (chall ++ ip_bytes fdsa ++ bytes_n 6 hw).
Proof.
  intros Hlen. unfold challenge_buffer, zero_padded. cbv zeta.
  assert (overwrite 0 chall (replicate 48 NUL)
          = chall ++ replicate (48 - length chall) NUL) as ->
    by (apply (overwrite_zeros [] chall 48); lia).
  assert (forall ip, (length ip = 4 \/ length ip = 16)%nat ->
    take (if (0 + length chall + length ip + 6 <? 32)%nat then 32%nat
          else (0 + length chall + length ip + 6)%nat)
      (overwrite (0 + length chall + length ip) (bytes_n 6 hw)
         (overwrite (0 + length chall) ip
            (chall ++ replicate (48 - length chall) NUL)))
    = (chall ++ ip ++ bytes_n 6 hw)
        ++ replicate (32 - length (chall ++ ip ++ bytes_n 6 hw)) NUL) as Hgen.
  { intros ip Hip. rewrite !Nat.add_0_l.
    rewrite (overwrite_zeros chall ip) by lia.
    replace (length chall + length ip)%nat with (length (chall ++ ip))
      by (by rewrite length_app).
    rewrite (overwrite_zeros (chall ++ ip) (bytes_n 6 hw))
      by (rewrite bytes_n_length; lia).
    rewrite <- (app_assoc chall ip).
    set (body := chall ++ ip ++ bytes_n 6 hw).
    assert (length body = (length (chall ++ ip) + 6)%nat) as Hbody
      by (unfold body; rewrite !length_app, bytes_n_length; lia).
    rewrite <- Hbody.
    destruct (length body <? 32)%nat eqn:Hlt.
    - apply Nat.ltb_lt in Hlt.
      rewrite take_app_ge by lia. f_equal.
      rewrite take_replicate. f_equal.
      rewrite bytes_n_length, length_app in *. lia.
    - apply Nat.ltb_ge in Hlt.
      rewrite take_app_length.
      replace (32 - length body)%nat with 0%nat by lia.
      by rewrite app_nil_r. }
  destruct fdsa as [a|a]; cbn [ip_bytes].
  - specialize (Hgen (bytes_n 4 a)). rewrite bytes_n_length in Hgen.
    apply Hgen. by left.
  - specialize (Hgen (bytes_n 16 a)). rewrite bytes_n_length in Hgen.
    apply Hgen. by right.
Qed.

(** The buffer is at least 32 bytes long. *)
Lemma zero_padded_length l : (32 <= length (zero_padded l))%nat.
Proof. unfold zero_padded. rewrite length_app, length_replicate. lia. Qed.

(** C7.  A request whose [Apple-Challenge] decodes to more than 16 bytes
    leaves the response as it was and [apple_challenge] returns: nothing
    ends the process or the connection.  For a challenge of at most 16
    bytes the response gains the header [Apple-Response]; its value is the
    base64 text, cut at the first '=', of the RSA transform (in
    [RSA_MODE_AUTH]) of the challenge followed by the address of the
    server (4 bytes for IPv4, 16 for IPv6) and the 6 bytes of the hardware
    address, padded with zeros to 32 bytes. *)
Theorem apple_challenge_response
    (X : externals) (hw : list ascii) (fdsa : sockname) (req resp : rtsp_message)
    (hdr : string) (chall : list ascii) :
  msg_get_header req "Apple-Challenge" = Some hdr ->
  base64_dec X (Some hdr) = Some chall ->
  nheaders resp < 16 ->
  (16 < Z.of_nat (length chall) -> apple_challenge X hw fdsa req resp = Some resp)
  /\ (Z.of_nat (length chall) <= 16 ->
       forall encoded,
         base64_enc X
           (rsa_apply X (Some (zero_padded (chall ++ ip_bytes fdsa ++ bytes_n 6 hw)))
              RSA_MODE_AUTH) = Some encoded ->
         apple_challenge X hw fdsa req resp
         = Some (set_headers
                   (headers resp ++ [("Apple-Response"%string,
                                      cstr (strip_padding encoded))]) resp)
         /\ strchr (strip_padding encoded) "="%char = None
         /\ (32 <= length (zero_padded (chall ++ ip_bytes fdsa ++ bytes_n 6 hw)))%nat).
Proof.
  intros Hhdr Hdec Hroom. unfold apple_challenge. rewrite Hhdr, Hdec. split.
  - intros Hbig. by apply Z.ltb_lt in Hbig as ->.
  - intros Hsmall encoded Henc.
    assert ((16 <? Z.of_nat (length chall)) = false) as -> by (apply Z.ltb_ge; lia).
    rewrite challenge_buffer_layout by lia. rewrite Henc.
    unfold msg_add_header.
    assert ((16 <=? nheaders resp) = false) as -> by (apply Z.leb_gt; lia).
    split; [done|]. split; [|apply zero_padded_length].
    unfold strip_padding.
    destruct (strchr encoded "="%char) as [i|] eqn:Hi.
    + clear Henc. revert i Hi. induction encoded as [|d e IH]; intros i Hi; [done|].
      simpl in Hi. simpl. destruct (Ascii.eqb d NUL) eqn:Hnul; [done|].
      destruct (Ascii.eqb d "=") eqn:Heq.
      * by simplify_eq.
      * destruct (strchr e "=") as [j|] eqn:Hj; [|done].
        simpl in Hi. simplify_eq. simpl. rewrite Hnul, Heq.
        by rewrite (IH j eq_refl).
    + clear Henc. induction encoded as [|d e IH]; [done|].
      simpl in Hi. simpl. destruct (Ascii.eqb d NUL) eqn:Hnul; [done|].
      destruct (Ascii.eqb d "=") eqn:Heq; [done|].
      simpl. rewrite Hnul, Heq.
      destruct (strchr e "=") eqn:Hj; [done|]. by rewrite IH.
Qed.

(** The theorem at a challenge of 16 bytes on an IPv4 socket. *)
Lemma apple_challenge_response_witness :
  msg_get_header Samples.challenge16 "Apple-Challenge" = Some "0123456789abcdef"%string
  /\ base64_dec Samples.ext0 (Some "0123456789abcdef"%string)
     = Some (Samples.bytes "0123456789abcdef")
  /\ nheaders Samples.resp0 < 16
  /\ headers <$> apple_challenge Samples.ext0 (hw_addr Samples.cfg0) Samples.sockname4
                   Samples.challenge16 Samples.resp0
     = Some [("Apple-Response"%string, "0123456789abcdefwxyzabcdef"%string)].
Proof.
  split; [reflexivity|]. split; [reflexivity|]. split; [vm_compute; reflexivity|].
  destruct (apple_challenge_response Samples.ext0 (hw_addr Samples.cfg0)
              Samples.sockname4 Samples.challenge16 Samples.resp0
              "0123456789abcdef" (Samples.bytes "0123456789abcdef")
              eq_refl eq_refl ltac:(vm_compute; reflexivity)) as [_ Hsmall].
  destruct (Hsmall ltac:(vm_compute; discriminate) _ eq_refl) as (-> & _).
  vm_compute. reflexivity.
Defined.

End AppleChallengeProps.

(* ================================================================== *)
(** * Properties of SETUP *)
(* ================================================================== *)

Module SetupProps.
Import CStr Codec Conn Handlers.

Lemma rtp_untouched_refl s : rtp_untouched s s.
Proof. by unfold rtp_untouched. Qed.

Lemma rtp_untouched_trans s1 s2 s3 :
  rtp_untouched s1 s2 -> rtp_untouched s2 s3 -> rtp_untouched s1 s3.
Proof. unfold rtp_untouched. intuition congruence. Qed.

Lemma setup_identity_rtp E reqp req s :
  rtp_untouched s (setup_identity E reqp req s).
Proof.
  unfold setup_identity, rtp_untouched.
  destruct (msg_get_header req "Active-Remote");
    destruct (msg_get_header req "DACP-ID");
    repeat (autorewrite with frame; cbn); done.
Qed.

Lemma release_slot_rtp E k conn s : rtp_untouched s (release_slot E k conn s).
Proof.
  unfold release_slot, take_slot_lock, rtp_untouched.
  by destruct (have_player _ _).
Qed.

Lemma setup_transport_rtp E req s :
  rtp_running (h_conn s) <> 0 -> rtp_untouched s (setup_transport E req s).
Proof.
  intros Hrun. apply Z.eqb_neq in Hrun.
  unfold setup_transport, rtp_untouched.
  destruct (msg_get_header req "Transport") as [hdr|]; [|done].
  destruct (port_after hdr "control_port="); [|done].
  destruct (port_after hdr "timing_port="); [|done].
  rewrite Hrun. cbn [negb].
  by destruct (negb (local_audio_port (h_conn s) =? 0)).
Qed.

(** With the RTP session running, [handle_setup] neither calls [rtp_setup]
    nor touches the remote ports or the running flag, whatever the request
    carries. *)
Lemma handle_setup_when_running E conn reqp req s :
  rtp_running (h_conn s) <> 0 ->
  rtp_untouched s (handle_setup E conn reqp req s).
Proof.
  intros Hrun. unfold handle_setup. cbv zeta.
  set (s0 := take_slot_lock E 0 (with_resp (set_respcode 451 (h_resp s)) s)).
  assert (rtp_untouched s s0) as H0 by done.
  destruct (have_player (h_slot s0) conn); [|done].
  pose proof (setup_identity_rtp E reqp req s0) as H1.
  assert (rtp_running (h_conn (setup_identity E reqp req s0)) <> 0) as Hrun1.
  { destruct H1 as (_ & _ & _ & ->). exact Hrun. }
  pose proof (setup_transport_rtp E req _ Hrun1) as H2.
  pose proof (rtp_untouched_trans _ _ _ H0 (rtp_untouched_trans _ _ _ H1 H2)) as H3.
  destruct (negb (respcode (h_resp (setup_transport E req _)) =? 200)); [|done].
  eapply rtp_untouched_trans; [exact H3|apply release_slot_rtp].
Qed.

(** The first SETUP of a connection that owns the player and names both
    ports calls [rtp_setup] once, with those ports. *)
Lemma handle_setup_first E conn reqp req s hdr c t :
  rtp_running (h_conn s) = 0 ->
  playing_conn (interference E 0 (h_slot s)) = Some conn ->
  msg_get_header req "Transport" = Some hdr ->
  port_after hdr "control_port=" = Some c ->
  port_after hdr "timing_port=" = Some t ->
  let s' := handle_setup E conn reqp req s in
  rtp_setup_calls s' = rtp_setup_calls s ++ [(c, t)]
  /\ exists k, h_conn s' = rtp_setup (ext E) c t k.
Proof.
  intros Hrun Hown Hhdr Hc Ht. unfold handle_setup. cbv zeta.
  set (s0 := take_slot_lock E 0 (with_resp (set_respcode 451 (h_resp s)) s)).
  assert (have_player (h_slot s0) conn = true) as ->.
  { unfold have_player. apply bool_decide_eq_true. exact Hown. }
  destruct (setup_identity_rtp E reqp req s0) as (Hcalls & _ & _ & Hr).
  set (s1 := setup_identity E reqp req s0) in *.
  assert (let s2 := setup_transport E req s1 in
          rtp_setup_calls s2 = rtp_setup_calls s ++ [(c, t)]
          /\ h_conn s2 = rtp_setup (ext E) c t (h_conn s1)) as [H2a H2b].
  { unfold setup_transport. rewrite Hhdr, Hc, Ht. cbv zeta.
    assert ((rtp_running (h_conn s1) =? 0) = true) as ->
      by (apply Z.eqb_eq; rewrite Hr; exact Hrun).
    cbn [negb].
    destruct (negb (local_audio_port _ =? 0)); cbn; rewrite Hcalls; done. }
  destruct (negb (respcode (h_resp (setup_transport E req s1)) =? 200)).
  - destruct (release_slot_rtp E 1 conn (setup_transport E req s1)) as (-> & _).
    split; [exact H2a|]. exists (h_conn s1).
    unfold release_slot, take_slot_lock.
    by destruct (have_player _ _).
  - split; [exact H2a|]. by exists (h_conn s1).
Qed.

(** C4.  On a connection whose RTP session is running, a SETUP, whether it
    names the same control and timing ports as before or different ones,
    adds no call of [rtp_setup] and leaves [remote_control_port],
    [remote_timing_port] and the running flag as they are.  Hence, when
    [rtp_setup] marks the session as running, a first SETUP of the owner of
    the player followed by any second SETUP makes exactly one call of
    [rtp_setup]. *)
Theorem handle_setup_running_no_second_rtp_setup
    (E : handler_env) (conn reqp : Z) (req : rtsp_message) (s : hstate)
    (E1 E2 : handler_env) (reqp1 reqp2 : Z) (req1 req2 : rtsp_message)
    (s0 : hstate) (hdr : string) (c t : Z) :
  rtp_running (h_conn s) <> 0 ->
  (let s' := handle_setup E conn reqp req s in
   rtp_setup_calls s' = rtp_setup_calls s
   /\ remote_control_port (h_conn s') = remote_control_port (h_conn s)
   /\ remote_timing_port (h_conn s') = remote_timing_port (h_conn s)
   /\ rtp_running (h_conn s') = rtp_running (h_conn s))
  /\ ((forall c t k, rtp_running (rtp_setup (ext E1) c t k) <> 0) ->
      rtp_running (h_conn s0) = 0 ->
      playing_conn (interference E1 0 (h_slot s0)) = Some conn ->
      msg_get_header req1 "Transport" = Some hdr ->
      port_after hdr "control_port=" = Some c ->
      port_after hdr "timing_port=" = Some t ->
      let s1 := handle_setup E1 conn reqp1 req1 s0 in
      let s2 := handle_setup E2 conn reqp2 req2 s1 in
      rtp_setup_calls s2 = rtp_setup_calls s0 ++ [(c, t)]
      /\ remote_control_port (h_conn s2) = remote_control_port (h_conn s1)
      /\ remote_timing_port (h_conn s2) = remote_timing_port (h_conn s1)).
Proof.
  intros Hrun. split; [exact (handle_setup_when_running E conn reqp req s Hrun)|].
  intros Hext Hrun0 Hown Hhdr Hc Ht s1 s2.
  destruct (handle_setup_first E1 conn reqp1 req1 s0 hdr c t Hrun0 Hown Hhdr Hc Ht)
    as [Hcalls [k Hk]].
  assert (rtp_running (h_conn s1) <> 0) as Hrun1.
  { unfold s1. rewrite Hk. apply Hext. }
  destruct (handle_setup_when_running E2 conn reqp2 req2 s1 Hrun1)
    as (H1 & H2 & H3 & _).
  unfold s2. rewrite H1. unfold s1 at 1. rewrite Hcalls. done.
Qed.

(** The theorem at a connection that owns the player: a first SETUP with
    ports 6001 and 6002, then a second one with ports 7001 and 7002. *)
Lemma handle_setup_running_no_second_rtp_setup_witness :
  rtp_running (h_conn Samples.state_running) <> 0
  /\ rtp_setup_calls (handle_setup Samples.env0 Samples.self 70000 Samples.setup2
                        Samples.state_running)
     = rtp_setup_calls Samples.state_running
  /\ rtp_setup_calls (handle_setup Samples.env0 Samples.self 70000 Samples.setup2
                        (handle_setup Samples.env0 Samples.self 70000 Samples.setup1
                           Samples.state_own))
     = rtp_setup_calls Samples.state_own ++ [(6001, 6002)].
Proof.
  assert (rtp_running (h_conn Samples.state_running) <> 0) as Hrun
    by (vm_compute; discriminate).
  destruct (handle_setup_running_no_second_rtp_setup
              Samples.env0 Samples.self 70000 Samples.setup2 Samples.state_running
              Samples.env0 Samples.env0 70000 70000 Samples.setup1 Samples.setup2
              Samples.state_own Samples.transport1 6001 6002 Hrun)
    as [(Hcalls & _) Htwice].
  split; [exact Hrun|]. split; [exact Hcalls|].
  destruct (Htwice ltac:(intros c t k H; discriminate H) eq_refl eq_refl eq_refl
              ltac:(vm_compute; reflexivity) ltac:(vm_compute; reflexivity))
    as (Hone & _).
  exact Hone.
Defined.

End SetupProps.

(* ================================================================== *)
(** * Properties of ANNOUNCE: the slot *)
(* ================================================================== *)

Module AnnounceSlotProps.
Import CStr Codec Conn Handlers.

Lemma announce_identity_frame E reqp req s :
  h_slot (announce_identity E reqp req s) = h_slot s
  /\ slot_writes (announce_identity E reqp req s) = slot_writes s
  /\ h_resp (announce_identity E reqp req s) = h_resp s.
Proof.
  unfold announce_identity.
  destruct (msg_get_header req "X-Apple-Client-Name");
    destruct (msg_get_header req "User-Agent");
    repeat (autorewrite with frame; cbn); done.
Qed.

(** With the player in hand the handler leaves the slot alone and ends
    with 200 or, after a [goto out], with 456. *)
Lemma announce_with_player_frame E reqp req i s :
  let s' := announce_with_player E reqp req i s in
  h_slot s' = h_slot s /\ slot_writes s' = slot_writes s
  /\ (respcode (h_resp s') = 200 \/ respcode (h_resp s') = 456).
Proof.
  unfold announce_with_player. cbv zeta.
  destruct (announce_keys _ _ _) as [[] c].
  - destruct (type (stream (announce_fmtp _ c))).
    + destruct (i =? 0); cbn; auto.
    + destruct (announce_identity_frame E reqp req
                  (with_conn (announce_fmtp (announce_sdp req) c)
                     (with_resp
                        (set_respcode 456
                           (h_resp (if i =? 0 then log_udp_reset s else s)))
                        (with_conn
                           (set_stream
                              (set_type ast_unknown
                                 (stream (h_conn (if i =? 0 then log_udp_reset s else s))))
                              (h_conn (if i =? 0 then log_udp_reset s else s)))
                           (if i =? 0 then log_udp_reset s else s)))))
        as (H1 & H2 & _).
      cbn. rewrite H1, H2. destruct (i =? 0); cbn; auto.
    + destruct (announce_identity_frame E reqp req
                  (with_conn (announce_fmtp (announce_sdp req) c)
                     (with_resp
                        (set_respcode 456
                           (h_resp (if i =? 0 then log_udp_reset s else s)))
                        (with_conn
                           (set_stream
                              (set_type ast_unknown
                                 (stream (h_conn (if i =? 0 then log_udp_reset s else s))))
                              (h_conn (if i =? 0 then log_udp_reset s else s)))
                           (if i =? 0 then log_udp_reset s else s)))))
        as (H1 & H2 & _).
      cbn. rewrite H1, H2. destruct (i =? 0); cbn; auto.
  - destruct (i =? 0); cbn; auto.
Qed.

Lemma wait_for_slot_have E conn fuel k time_remaining s :
  wait_for_slot fuel E conn k time_remaining 1 s = Some (1, k, s).
Proof. destruct fuel; cbn [wait_for_slot]; by rewrite andb_false_r. Qed.

(** The wait ends within the polls its time budget allows; it leaves the
    response alone, and a wait that ends without the player has assigned
    nothing to the slot. *)
Lemma wait_for_slot_spec E conn fuel : forall k time_remaining have s,
  time_remaining <= 100000 * Z.of_nat fuel ->
  exists have' k' s',
    wait_for_slot fuel E conn k time_remaining have s = Some (have', k', s')
    /\ h_resp s' = h_resp s /\ h_conn s' = h_conn s
    /\ (have = 0 -> have' = 0 ->
        slot_writes s' = slot_writes s
        /\ ((forall k g, interference E k g = g) -> h_slot s' = h_slot s)).
Proof.
  induction fuel as [|fuel IH]; intros k tr have s Hfuel.
  - cbn [wait_for_slot].
    assert ((0 <? tr) = false) as -> by (apply Z.ltb_ge; lia).
    cbn. eauto 10.
  - cbn [wait_for_slot].
    destruct ((0 <? tr) && (have =? 0)) eqn:Hcond; [|eauto 10].
    apply andb_true_iff in Hcond as [_ Hhave]. apply Z.eqb_eq in Hhave. subst have.
    unfold take_slot_lock.
    destruct (playing_conn (h_slot (with_slot (interference E k (h_slot s)) s)))
      as [holder|] eqn:Hslot.
    + cbn [Z.eqb].
      destruct (IH (S k) (tr - 100000) 0
                  (with_slot (interference E k (h_slot s)) s)) as
        (have' & k' & s' & Hw & Hr & Hc & Hws); [lia|].
      rewrite Hw. exists have', k', s'. split; [done|].
      split; [by rewrite Hr|]. split; [by rewrite Hc|].
      intros _ Hz. destruct (Hws eq_refl Hz) as [Hw1 Hw2].
      split; [by rewrite Hw1|]. intros Hid. rewrite (Hw2 Hid). cbn.
      apply Hid.
    + change (1 =? 0) with false. cbv iota.
      rewrite wait_for_slot_have.
      exists 1, (S k). eexists. split; [done|].
      split; [done|]. split; [done|]. intros _ ?. done.
Qed.

Lemma release_slot_released E k conn s :
  playing_conn (h_slot (release_slot E k conn s)) <> Some conn
  /\ h_resp (release_slot E k conn s) = h_resp s.
Proof.
  unfold release_slot, have_player.
  destruct (bool_decide _) eqn:Hown; [done|].
  apply bool_decide_eq_false in Hown. done.
Qed.

(** The end of [handle_announce], from the point where it is known
    whether the player was obtained. *)
Lemma announce_finish_spec E conn reqp req i have k s0 :
  let s' := announce_finish E conn reqp req i have k s0 in
  (respcode (h_resp s') <> 200 -> respcode (h_resp s') <> 453 ->
   playing_conn (h_slot s') <> Some conn)
  /\ (respcode (h_resp s') = 453 ->
      have = 0 /\ slot_writes s' = slot_writes s0 /\ h_slot s' = h_slot s0)
  /\ (respcode (h_resp s') = 200 \/ respcode (h_resp s') = 453
      \/ respcode (h_resp s') = 456).
Proof.
  unfold announce_finish. cbv zeta.
  destruct (have =? 0) eqn:Hhave; cbn [negb].
  - apply Z.eqb_eq in Hhave. cbn. split; [done|]. split; [done|]. auto.
  - destruct (announce_with_player_frame E reqp req i s0) as (Hs & Hw & Hcode).
    set (s1 := announce_with_player E reqp req i s0) in *.
    destruct Hcode as [Hcode|Hcode]; rewrite Hcode.
    + change (negb (200 =? 200) && negb (200 =? 453)) with false. cbv iota.
      rewrite Hcode. split; [congruence|]. split; [intros H; discriminate H|auto].
    + change (negb (456 =? 200) && negb (456 =? 453)) with true. cbv iota.
      destruct (release_slot_released E k conn s1) as [Hrel Hresp].
      split; [intros _ _; exact Hrel|].
      rewrite Hresp, Hcode. split; [intros H; discriminate H|auto].
Qed.

(** The first look at the slot: without the player nothing was assigned
    and the slot holds what it held. *)
Lemma announce_claim_spec E conn s :
  exists have wait i s1,
    announce_claim E conn s = (have, wait, i, s1)
    /\ (have = 0 \/ (have = 1 /\ wait = 0))
    /\ (have = 0 ->
        slot_writes s1 = slot_writes s
        /\ playing_conn (h_slot s1) = playing_conn (h_slot s)).
Proof.
  unfold announce_claim. cbv zeta.
  destruct (playing_conn (h_slot s)) as [holder|] eqn:Hslot.
  - destruct (holder =? conn); [by eauto 10|].
    destruct (negb (stop_flag (h_slot s) holder =? 0)); [by eauto 10|].
    destruct (allow_session_interruption (cfg E) =? 1); eauto 10.
  - do 4 eexists. split; [done|]. split; [by right|]. done.
Qed.

(** C1.  [handle_announce] returns, with 200, 453 or 456.  When the
    response code it leaves is neither 200 nor 453, the slot does not hold
    this connection on return: a claim made during the call has been given
    up.  When the code is 453, the handler has assigned nothing to the
    slot; if no other thread touched the slot meanwhile it holds what it
    held on entry. *)
Theorem handle_announce_slot_released
    (E : handler_env) (conn reqp : Z) (req : rtsp_message) (s : hstate) :
  exists s',
    handle_announce E conn reqp req s = Some s'
    /\ (respcode (h_resp s') <> 200 -> respcode (h_resp s') <> 453 ->
        playing_conn (h_slot s') <> Some conn)
    /\ (respcode (h_resp s') = 453 ->
        slot_writes s' = slot_writes s
        /\ ((forall k g, interference E k g = g) ->
            playing_conn (h_slot s') = playing_conn (h_slot s)))
    /\ (respcode (h_resp s') = 200 \/ respcode (h_resp s') = 453
        \/ respcode (h_resp s') = 456).
Proof.
  unfold handle_announce.
  destruct (announce_claim_spec E conn (take_slot_lock E 0 s))
    as (have & wait & i & s1 & -> & Hcase & Hkeep).
  cbv beta iota zeta.
  assert ((forall k g, interference E k g = g) ->
          h_slot (take_slot_lock E 0 s) = h_slot s) as Hid0
    by (intros Hid; cbn; apply Hid).
  destruct Hcase as [->|[-> ->]].
  - destruct (Hkeep eq_refl) as [Hw1 Hp1].
    destruct (negb (wait =? 0)).
    + destruct (wait_for_slot_spec E conn 30 1 3000000 0 s1 ltac:(lia))
        as (have' & k' & s2 & -> & _ & _ & Hws).
      eexists. split; [reflexivity|].
      destruct (announce_finish_spec E conn reqp req i have' k' s2) as (Ha & Hb & Hc).
      split; [exact Ha|]. split; [|exact Hc].
      intros H453. destruct (Hb H453) as (Hz & Hb1 & Hb2).
      destruct (Hws eq_refl Hz) as [Hws1 Hws2].
      split; [by rewrite Hb1, Hws1, Hw1|].
      intros Hid. by rewrite Hb2, (Hws2 Hid), Hp1, (Hid0 Hid).
    + eexists. split; [reflexivity|].
      destruct (announce_finish_spec E conn reqp req i 0 1%nat s1) as (Ha & Hb & Hc).
      split; [exact Ha|]. split; [|exact Hc].
      intros H453. destruct (Hb H453) as (_ & Hb1 & Hb2).
      split; [by rewrite Hb1, Hw1|].
      intros Hid. by rewrite Hb2, Hp1, (Hid0 Hid).
  - change (negb (0 =? 0)) with false. cbv iota.
    eexists. split; [reflexivity|].
    destruct (announce_finish_spec E conn reqp req i 1 1%nat s1) as (Ha & Hb & Hc).
    split; [exact Ha|]. split; [|exact Hc].
    intros H453. destruct (Hb H453) as (Hz & _). discriminate Hz.
Qed.

(** An ANNOUNCE without a codec line on a free slot: the slot is claimed,
    the answer is 456 and the slot is free again. *)
Example handle_announce_unknown_codec :
  exists s',
    handle_announce Samples.env0 Samples.self 70000 Samples.announce_no_codec
      Samples.state0 = Some s'
    /\ respcode (h_resp s') = 456
    /\ playing_conn (h_slot s') = None
    /\ slot_writes s' = [Some Samples.self; None].
Proof. eexists. repeat split; vm_compute; reflexivity. Qed.

(** An ANNOUNCE while another connection plays and interruption is off:
    453, and the slot still holds the other connection. *)
Example handle_announce_busy :
  exists s',
    handle_announce Samples.env0 Samples.self 70000 Samples.announce_four
      (with_slot Samples.slot_taken Samples.state0) = Some s'
    /\ respcode (h_resp s') = 453
    /\ playing_conn (h_slot s') = Some Samples.other
    /\ slot_writes s' = [].
Proof. eexists. repeat split; vm_compute; reflexivity. Qed.

(** The same with interruption allowed and a holder that lets go after
    the third poll: the slot passes to the new connection, which gets 200. *)
Example handle_announce_takes_over :
  exists s',
    handle_announce Samples.env_takeover Samples.self 70000 Samples.announce_four
      (with_slot Samples.slot_taken Samples.state0) = Some s'
    /\ respcode (h_resp s') = 200
    /\ playing_conn (h_slot s') = Some Samples.self
    /\ stop_flag (h_slot s') Samples.other = 1
    /\ cancelled (h_slot s') = [Samples.other]
    /\ udp_port_resets s' = 0%nat.
Proof. eexists. repeat split; vm_compute; reflexivity. Qed.

End AnnounceSlotProps.

(* ================================================================== *)
(** * Properties of ANNOUNCE: the fmtp attribute *)
(* ================================================================== *)

Module AnnounceFmtpProps.
Import CStr Codec Conn Handlers.

(** The slots after the [strsep] loop: slot [j] holds [atoi] of the field
    stored there, if one was, and what it held before otherwise. *)
Lemma store_fmtp_lookup (fields : list string) : forall (i : nat) (l : list Z) (j : nat),
  length l = 12%nat ->
  length (store_fmtp fields i l) = 12%nat
  /\ store_fmtp fields i l !! j =
     (if bool_decide (i <= j < 12)%nat then
        match fields !! (j - i)%nat with
        | Some fld => Some (atoi fld)
        | None => l !! j
        end
      else l !! j).
Proof.
  induction fields as [|fld rest IH]; intros i l j Hlen.
  - cbn. split; [done|]. by case_bool_decide.
  - cbn [store_fmtp]. destruct (i <? 12)%nat eqn:Hi.
    + apply Nat.ltb_lt in Hi.
      destruct (IH (S i) (<[i:=atoi fld]> l) j) as [IH1 IH2];
        [by rewrite length_insert|].
      split; [done|]. rewrite IH2.
      destruct (decide (j = i)) as [->|Hne].
      * rewrite bool_decide_eq_false_2 by lia.
        rewrite bool_decide_eq_true_2 by lia.
        rewrite Nat.sub_diag. cbn.
        apply list_lookup_insert_eq. lia.
      * rewrite list_lookup_insert_ne by done.
        case_bool_decide as H1; case_bool_decide as H2; try lia; try done.
        replace (j - i)%nat with (S (j - S i)) by lia. done.
    + apply Nat.ltb_ge in Hi. split; [done|].
      rewrite bool_decide_eq_false_2 by lia. done.
Qed.

Lemma announce_keys_accepted X p c :
  keys_accepted X p ->
  exists c', announce_keys X p (announce_codec p c) = (true, c').
Proof.
  intros Hk. unfold announce_keys.
  destruct (negb (encrypted (stream (announce_codec p c)) =? 0)) eqn:Henc;
    [|by eauto].
  destruct Hk as [[Hiv Hkey]|(iv & Hiv & Hlen & Hklen)].
  - exfalso. unfold announce_codec in Henc. rewrite Hiv, Hkey in Henc.
    cbn in Henc. done.
  - rewrite Hiv, Hlen, Hklen. cbn. by eauto.
Qed.

Lemma announce_identity_codec E reqp req s :
  same_codec (h_conn s) (h_conn (announce_identity E reqp req s)).
Proof.
  unfold announce_identity, same_codec.
  destruct (msg_get_header req "X-Apple-Client-Name");
    destruct (msg_get_header req "User-Agent") as [hdr|];
    repeat (autorewrite with frame; cbn); try done;
    destruct (strstr hdr "AirPlay") as [i|]; try done;
    destruct (strchr (sdrop i hdr) "/"); done.
Qed.

(** The fmtp block: what it stores. *)
Lemma announce_fmtp_spec p c f :
  pfmtp p = Some f ->
  let c' := announce_fmtp p c in
  type (stream c') = ast_apple_lossless
  /\ fmtp (stream c') = store_fmtp (strsep_fields [SP; TAB] f) 0 fmtp_defaults
  /\ max_frames_per_packet c' = fmtp_at c' 1
  /\ input_rate c' = fmtp_at c' 11
  /\ input_num_channels c' = fmtp_at c' 7
  /\ input_bit_depth c' = fmtp_at c' 3
  /\ input_bytes_per_frame c'
     = bytes_per_frame (input_num_channels c') (input_bit_depth c').
Proof. intros Hf. unfold announce_fmtp. rewrite Hf. done. Qed.

Lemma fmtp_at_same c c' i :
  fmtp (stream c') = fmtp (stream c) -> fmtp_at c' i = fmtp_at c i.
Proof. unfold fmtp_at. by intros ->. Qed.

(** With the player in hand, accepted keys and an fmtp attribute, the
    handler ends with 200 and the connection holds what the fmtp block
    stored. *)
Lemma announce_with_player_fmtp E reqp req i s f :
  pfmtp (announce_sdp req) = Some f ->
  keys_accepted (ext E) (announce_sdp req) ->
  let c := h_conn (announce_with_player E reqp req i s) in
  respcode (h_resp (announce_with_player E reqp req i s)) = 200
  /\ type (stream c) = ast_apple_lossless
  /\ fmtp (stream c) = store_fmtp (strsep_fields [SP; TAB] f) 0 fmtp_defaults
  /\ max_frames_per_packet c = fmtp_at c 1
  /\ input_rate c = fmtp_at c 11
  /\ input_num_channels c = fmtp_at c 7
  /\ input_bit_depth c = fmtp_at c 3.
Proof.
  intros Hf Hk. unfold announce_with_player. cbv zeta.
  destruct (announce_keys _ _ _) as [keyed c1] eqn:Hkeys.
  match type of Hkeys with
  | announce_keys _ _ (announce_codec _ ?c0) = _ =>
      destruct (announce_keys_accepted (ext E) (announce_sdp req) c0 Hk) as [c' Hc']
  end.
  rewrite Hc' in Hkeys. injection Hkeys as <- <-.
  destruct (announce_fmtp_spec (announce_sdp req) c' f Hf)
    as (Ht & Hfm & H1 & H11 & H7 & H3 & _).
  rewrite Ht.
  match goal with
  | |- context [announce_identity E reqp req ?s0] =>
      destruct (announce_identity_codec E reqp req s0)
        as (It & Ifm & I1 & I11 & I7 & I3);
      set (s1 := announce_identity E reqp req s0) in *
  end.
  cbn in It, Ifm, I1, I11, I7, I3 |- *.
  rewrite It, Ifm, I1, I11, I7, I3.
  rewrite !(fmtp_at_same _ _ _ Ifm).
  done.
Qed.

(** A call that does not end with 453 went through the part that runs
    with the player in hand, on the connection as it was on entry. *)
Lemma handle_announce_with_player E conn reqp req s s' :
  handle_announce E conn reqp req s = Some s' ->
  respcode (h_resp s') <> 453 ->
  exists i s0,
    h_conn s' = h_conn (announce_with_player E reqp req i s0)
    /\ respcode (h_resp s') = respcode (h_resp (announce_with_player E reqp req i s0)).
Proof.
  unfold handle_announce. intros Hcall Hcode.
  destruct (announce_claim E conn (take_slot_lock E 0 s)) as [[[have wait] i] s1].
  destruct (if negb (wait =? 0) then _ else _) as [[[have' k] s2]|]; [|done].
  injection Hcall as <-. revert Hcode. unfold announce_finish. cbv zeta.
  destruct (negb (have' =? 0)).
  - intros _. exists i, s2.
    destruct (negb _ && negb _); [|done].
    unfold release_slot, take_slot_lock. by destruct (have_player _ _).
  - cbn. done.
Qed.

(** On words without blanks or tabs, one blank apart, the fields are the
    words: for such an attribute the slots beyond the last word keep their
    defaults. *)
Lemma not_separator c : c <> SP -> c <> TAB -> c ∉ [SP; TAB].
Proof.
  intros Hsp Htab Hin. rewrite !elem_of_cons, elem_of_nil in Hin.
  destruct Hin as [?|[?|[]]]; done.
Qed.

Lemma strsep_fields_no_separator w :
  no_separator w -> strsep_fields [SP; TAB] w = [w].
Proof.
  induction w as [|c w IH]; [done|]. intros (Hsp & Htab & Hw).
  cbn [strsep_fields].
  rewrite (bool_decide_eq_false_2 _ (not_separator c Hsp Htab)).
  by rewrite (IH Hw).
Qed.

Lemma strsep_fields_first_word w rest :
  no_separator w ->
  strsep_fields [SP; TAB] (w +:+ String SP rest) = w :: strsep_fields [SP; TAB] rest.
Proof.
  induction w as [|c w IH]; intros Hw.
  - reflexivity.
  - destruct Hw as (Hsp & Htab & Hw).
    change (String c w +:+ String SP rest) with (String c (w +:+ String SP rest)).
    cbn [strsep_fields].
    rewrite (bool_decide_eq_false_2 _ (not_separator c Hsp Htab)).
    by rewrite (IH Hw).
Qed.

Lemma strsep_fields_join_blank ws :
  ws <> [] -> Forall no_separator ws ->
  strsep_fields [SP; TAB] (join_blank ws) = ws.
Proof.
  induction ws as [|w ws IH]; [done|]. intros _ Hall.
  apply Forall_cons in Hall as [Hw Hall].
  destruct ws as [|w' ws'].
  - cbn. by apply strsep_fields_no_separator.
  - cbn [join_blank]. rewrite strsep_fields_first_word by done.
    f_equal. by apply IH.
Qed.

(** C10, as the code has it.  Take an ANNOUNCE that is not turned away
    with 453, whose key material, if any, is accepted, and whose SDP has an
    [a=fmtp:] attribute with value [f].  The stream is classified as Apple
    Lossless and the answer is 200.  The value is cut at every space and
    tab into fields, empty fields included; slot [i] below 12 holds [atoi]
    of field [i] when there is one and the preset default otherwise;
    fields from the thirteenth on are ignored; and the four derived
    parameters are the slots 1, 11, 7 and 3. *)
Theorem handle_announce_fmtp_fields
    (E : handler_env) (conn reqp : Z) (req : rtsp_message) (s s' : hstate)
    (f : string) :
  handle_announce E conn reqp req s = Some s' ->
  respcode (h_resp s') <> 453 ->
  pfmtp (announce_sdp req) = Some f ->
  keys_accepted (ext E) (announce_sdp req) ->
  let fields := strsep_fields [SP; TAB] f in
  let c := h_conn s' in
  type (stream c) = ast_apple_lossless
  /\ respcode (h_resp s') = 200
  /\ length (fmtp (stream c)) = 12%nat
  /\ (forall i, (i < 12)%nat ->
        fmtp_at c i = match fields !! i with
                      | Some fld => atoi fld
                      | None => default 0 (fmtp_defaults !! i)
                      end)
  /\ max_frames_per_packet c = fmtp_at c 1
  /\ input_rate c = fmtp_at c 11
  /\ input_num_channels c = fmtp_at c 7
  /\ input_bit_depth c = fmtp_at c 3.
Proof.
  intros Hcall Hcode Hf Hk fields c. subst c.
  destruct (handle_announce_with_player E conn reqp req s s' Hcall Hcode)
    as (i & s0 & Hconn & Hresp).
  destruct (announce_with_player_fmtp E reqp req i s0 f Hf Hk)
    as (H200 & Ht & Hfm & H1 & H11 & H7 & H3).
  fold fields in Hfm.
  rewrite Hconn, Hresp.
  split; [exact Ht|]. split; [exact H200|].
  destruct (store_fmtp_lookup fields 0 fmtp_defaults 0 eq_refl) as [Hlen _].
  split; [by rewrite Hfm|].
  split; [|done].
  intros j Hj. unfold fmtp_at. rewrite Hfm.
  destruct (store_fmtp_lookup fields 0 fmtp_defaults j eq_refl) as [_ ->].
  rewrite bool_decide_eq_true_2 by lia. rewrite Nat.sub_0_r.
  by destruct (fields !! j).
Qed.

(** The theorem at an ANNOUNCE whose fmtp attribute has four fields. *)
Lemma handle_announce_fmtp_fields_witness :
  handle_announce Samples.env0 Samples.self 70000 Samples.announce_four Samples.state0
  = Some Samples.announced_four
  /\ respcode (h_resp Samples.announced_four) <> 453
  /\ pfmtp (announce_sdp Samples.announce_four) = Some "96 352 0 16"%string
  /\ keys_accepted (ext Samples.env0) (announce_sdp Samples.announce_four)
  /\ type (stream (h_conn Samples.announced_four)) = ast_apple_lossless
  /\ fmtp (stream (h_conn Samples.announced_four))
     = [96; 352; 0; 16; 40; 10; 14; 2; 255; 0; 0; 44100]
  /\ input_rate (h_conn Samples.announced_four)
     = fmtp_at (h_conn Samples.announced_four) 11.
Proof.
  assert (handle_announce Samples.env0 Samples.self 70000 Samples.announce_four
            Samples.state0 = Some Samples.announced_four) as Hcall
    by (vm_compute; reflexivity).
  assert (respcode (h_resp Samples.announced_four) <> 453) as Hcode
    by (vm_compute; discriminate).
  assert (pfmtp (announce_sdp Samples.announce_four) = Some "96 352 0 16"%string)
    as Hf by (vm_compute; reflexivity).
  assert (keys_accepted (ext Samples.env0) (announce_sdp Samples.announce_four))
    as Hk by (left; split; vm_compute; reflexivity).
  destruct (handle_announce_fmtp_fields Samples.env0 Samples.self 70000
              Samples.announce_four Samples.state0 Samples.announced_four
              "96 352 0 16" Hcall Hcode Hf Hk)
    as (Ht & _ & _ & _ & _ & Hrate & _).
  split; [exact Hcall|]. split; [exact Hcode|]. split; [exact Hf|].
  split; [exact Hk|]. split; [exact Ht|]. split; [vm_compute; reflexivity|].
  exact Hrate.
Defined.

(** C10 as stated fails when a field is empty: in "a=fmtp:96 " one integer
    is supplied, yet slot 1 does not keep its default 352; the empty field
    after the blank is stored as 0, and with it the frames per packet. *)
Lemma handle_announce_fmtp_blank_counterexample :
  exists s',
    handle_announce Samples.env0 Samples.self 70000 Samples.announce_trailing_blank
      Samples.state0 = Some s'
    /\ type (stream (h_conn s')) = ast_apple_lossless
    /\ default 0 (fmtp_defaults !! 1%nat) = 352
    /\ fmtp_at (h_conn s') 1 = 0
    /\ fmtp_at (h_conn s') 1 <> default 0 (fmtp_defaults !! 1%nat)
    /\ max_frames_per_packet (h_conn s') = 0.
Proof.
  eexists. split; [vm_compute; reflexivity|].
  repeat split; try (vm_compute; reflexivity). vm_compute. discriminate.
Qed.

End AnnounceFmtpProps.

(* ================================================================== *)
(** * Properties of the conversation loop: authorisation *)
(* ================================================================== *)

Module ConversationProps.
Import CStr Codec Conn Handlers AppleChallenge Auth Conversation.

Lemma announce_codec_authorized p c :
  authorized (announce_codec p c) = authorized c.
Proof.
  unfold announce_codec.
  destruct (pUncompressedCDAudio p), (pminlatency p), (pmaxlatency p),
    (paesiv p), (prsaaeskey p); reflexivity.
Qed.

Lemma announce_keys_authorized X p c :
  authorized (snd (announce_keys X p c)) = authorized c.
Proof.
  unfold announce_keys.
  destruct (negb (encrypted (stream c) =? 0)); [|done].
  destruct (base64_dec X (paesiv p)) as [iv|]; [|done].
  destruct (negb (Z.of_nat (length iv) =? 16)); [done|].
  cbv zeta. by destruct (negb (Z.of_nat (length _) =? 16)).
Qed.

Lemma announce_fmtp_authorized p c :
  authorized (announce_fmtp p c) = authorized c.
Proof. unfold announce_fmtp. by destruct (pfmtp p). Qed.

Lemma announce_identity_authorized E reqp req s :
  authorized (h_conn (announce_identity E reqp req s)) = authorized (h_conn s).
Proof.
  unfold announce_identity.
  destruct (msg_get_header req "X-Apple-Client-Name");
    destruct (msg_get_header req "User-Agent") as [hdr|];
    repeat (autorewrite with frame; cbn); try done;
    destruct (strstr hdr "AirPlay") as [i|]; try done;
    destruct (strchr (sdrop i hdr) "/"); done.
Qed.

Lemma announce_with_player_authorized E reqp req i s :
  authorized (h_conn (announce_with_player E reqp req i s)) = authorized (h_conn s).
Proof.
  unfold announce_with_player. cbv zeta.
  match goal with
  | |- context [announce_keys ?X ?p ?c] =>
      pose proof (announce_keys_authorized X p c) as Hk;
      destruct (announce_keys X p c) as [keyed c1]
  end.
  cbn [snd] in Hk. rewrite announce_codec_authorized in Hk.
  assert (authorized c1 = authorized (h_conn s)) as Hc1
    by (rewrite Hk; destruct (i =? 0); done).
  destruct keyed; [|done].
  pose proof (announce_fmtp_authorized (announce_sdp req) c1) as Hf.
  destruct (type (stream (announce_fmtp (announce_sdp req) c1)));
    [cbn; congruence| |];
    cbn; rewrite announce_identity_authorized; cbn; congruence.
Qed.

Lemma handle_announce_keeps : keeps_authorized handle_announce.
Proof.
  intros E conn reqp req s s' _. unfold handle_announce.
  assert (h_conn (snd (announce_claim E conn (take_slot_lock E 0 s))) = h_conn s)
    as Hclaim.
  { unfold announce_claim. cbv zeta.
    destruct (playing_conn _) as [holder|]; [|done].
    destruct (holder =? conn); [done|].
    destruct (negb (stop_flag _ holder =? 0)); [done|].
    by destruct (allow_session_interruption (cfg E) =? 1). }
  destruct (announce_claim E conn (take_slot_lock E 0 s)) as [[[have wait] i] s1].
  cbn [snd] in Hclaim.
  assert (forall have' k s2,
    (if negb (wait =? 0) then wait_for_slot 30 E conn 1 3000000 have s1
     else Some (have, 1%nat, s1)) = Some (have', k, s2) -> h_conn s2 = h_conn s)
    as Hwait.
  { intros have' k s2. destruct (negb (wait =? 0)).
    - destruct (AnnounceSlotProps.wait_for_slot_spec E conn 30 1 3000000 have s1
                  ltac:(lia)) as (h2 & k2 & s3 & -> & _ & Hc & _).
      intros [= <- <- <-]. congruence.
    - intros [= <- <- <-]. done. }
  destruct (if negb (wait =? 0) then _ else _) as [[[have' k] s2]|]; [|done].
  specialize (Hwait have' k s2 eq_refl).
  intros [= <-]. unfold announce_finish. cbv zeta.
  assert (forall s3, h_conn (if negb (respcode (h_resp s3) =? 200)
                                && negb (respcode (h_resp s3) =? 453)
                             then release_slot E k conn s3 else s3) = h_conn s3)
    as Hrel.
  { intros s3. destruct (_ && _); [|done].
    unfold release_slot, take_slot_lock. by destruct (have_player _ _). }
  rewrite Hrel. destruct (negb (have' =? 0)).
  - rewrite announce_with_player_authorized. congruence.
  - cbn. congruence.
Qed.

Lemma handle_setup_keeps : keeps_authorized (returns handle_setup).
Proof.
  intros E conn reqp req s s' (Hrtp & _) [= <-]. unfold handle_setup. cbv zeta.
  set (s0 := take_slot_lock E 0 (with_resp (set_respcode 451 (h_resp s)) s)).
  destruct (have_player (h_slot s0) conn); [|done].
  assert (authorized (h_conn (setup_identity E reqp req s0)) = authorized (h_conn s))
    as H1.
  { unfold setup_identity.
    destruct (msg_get_header req "Active-Remote");
      destruct (msg_get_header req "DACP-ID");
      repeat (autorewrite with frame; cbn); done. }
  set (s1 := setup_identity E reqp req s0) in *.
  assert (authorized (h_conn (setup_transport E req s1)) = authorized (h_conn s))
    as H2.
  { unfold setup_transport.
    destruct (msg_get_header req "Transport") as [hdr|]; [|done].
    destruct (port_after hdr "control_port=") as [c|]; [|done].
    destruct (port_after hdr "timing_port=") as [t|]; [|done].
    cbv zeta. destruct (negb (rtp_running (h_conn s1) =? 0)).
    - by destruct (negb (local_audio_port (h_conn s1) =? 0)).
    - destruct (negb (local_audio_port _ =? 0)); cbn; by rewrite Hrtp. }
  destruct (negb (respcode _ =? 200)); [|done].
  unfold release_slot, take_slot_lock. by destruct (have_player _ _).
Qed.

Lemma handle_get_parameter_keeps : keeps_authorized (returns handle_get_parameter).
Proof. by intros E conn reqp req s s' _ [= <-]. Qed.

Lemma handle_options_keeps : keeps_authorized (returns handle_options).
Proof. by intros E conn reqp req s s' _ [= <-]. Qed.

Lemma handle_record_keeps : keeps_authorized (returns handle_record).
Proof.
  intros E conn reqp req s s' (_ & Hplay & _ & Hflush & _) [= <-].
  unfold handle_record. cbv zeta.
  destruct (have_player _ _); [|done].
  destruct (negb (player_thread _ =? 0)), (rtptime_text req);
    cbn; rewrite ?Hflush, ?Hplay; done.
Qed.

Lemma handle_teardown_keeps : keeps_authorized (returns handle_teardown).
Proof.
  intros E conn reqp req s s' (_ & _ & Hstop & _) [= <-].
  unfold handle_teardown. cbv zeta.
  destruct (have_player _ _); [|done]. cbn. by rewrite Hstop.
Qed.

Lemma handle_flush_keeps : keeps_authorized (returns handle_flush).
Proof.
  intros E conn reqp req s s' (_ & _ & _ & Hflush & _) [= <-].
  unfold handle_flush. cbv zeta.
  destruct (have_player _ _); [|done]. cbn. by rewrite Hflush.
Qed.

Lemma parameter_lines_authorized E fuel k cp cp_left s :
  externals_keep_authorized (ext E) ->
  authorized (h_conn (parameter_lines fuel E k cp cp_left s))
  = authorized (h_conn s).
Proof.
  intros (_ & _ & _ & _ & Hvol).
  revert k cp cp_left s. induction fuel as [|fuel IH]; intros k cp cp_left s; [done|].
  cbn [parameter_lines]. destruct (cp_left =? 0); [done|].
  destruct (nextline cp _) as [[line next]|].
  - destruct (has_prefix "volume: " line).
    + rewrite IH. cbn. by rewrite Hvol.
    + destruct (has_prefix "progress: " line); rewrite IH; [|done].
      by autorewrite with frame.
  - destruct (has_prefix "volume: " cp).
    + cbn. by rewrite Hvol.
    + destruct (has_prefix "progress: " cp); [|done].
      by autorewrite with frame.
Qed.

Lemma dmap_items_conn E fuel k reqp cp cl off s k' s' :
  dmap_items fuel E k reqp cp cl off s = Some (k', s') -> h_conn s' = h_conn s.
Proof.
  revert k off s. induction fuel as [|fuel IH]; intros k off s; cbn [dmap_items].
  - destruct (off <? cl); [done|]. by intros [= <- <-].
  - destruct (off <? cl); [|by intros [= <- <-]].
    cbv zeta. intros H%IH. rewrite H.
    destruct (_ =? 0); by autorewrite with frame.
Qed.

Lemma send_bracket_conn E k code p reqp s :
  h_conn (send_bracket E k code p reqp s) = h_conn s.
Proof. unfold send_bracket. destruct p; by autorewrite with frame. Qed.

Lemma handle_set_parameter_keeps : keeps_authorized handle_set_parameter.
Proof.
  intros E conn reqp req s s' HX. unfold handle_set_parameter. cbv zeta.
  destruct (msg_get_header req "Content-Type") as [ct|]; [|by intros [= <-]].
  destruct (has_prefix "application/x-dmap-tagged" ct).
  { unfold handle_set_parameter_metadata.
    destruct (dmap_items _ _ _ _ _ _ _ _) as [[k s1]|] eqn:Hd; [|done].
    apply dmap_items_conn in Hd. intros [= <-]. cbn.
    by rewrite send_bracket_conn, Hd, send_bracket_conn. }
  destruct (has_prefix "image" ct).
  { destruct (negb (get_coverart (cfg E) =? 0)); intros [= <-]; cbn; [|done].
    rewrite send_bracket_conn. autorewrite with frame.
    by rewrite send_bracket_conn. }
  destruct (has_prefix "text/parameters" ct); intros [= <-]; cbn; [|done].
  unfold handle_set_parameter_parameter.
  destruct (content req); [|done]. by apply parameter_lines_authorized.
Qed.

(** Every handler of the table leaves the flag alone. *)
Lemma select_handler_keeps m h :
  select_handler method_handlers m = Some h -> keeps_authorized h.
Proof.
  unfold method_handlers. cbn [select_handler].
  repeat match goal with
         | |- (if ?b then _ else _) = _ -> _ => destruct b
         | |- Some _ = Some _ -> _ => intros [= <-]
         end;
    auto using handle_options_keeps, handle_announce_keeps, handle_setup_keeps,
      handle_get_parameter_keeps, handle_record_keeps, handle_teardown_keeps,
      handle_flush_keeps, handle_set_parameter_keeps.
  done.
Qed.

(** With the flag set, the gate lets the request through and [rtsp_auth]
    is not called. *)
Lemma auth_gate_authorized E urandom req resp th :
  is_authorized th -> auth_gate E urandom req resp th = Some (true, resp, th).
Proof. unfold is_authorized, auth_gate. by intros ->. Qed.

Lemma dispatch_authorized conn E reqp req th th' :
  externals_keep_authorized (ext E) ->
  dispatch conn E reqp req th = Some th' ->
  authorized (h_conn (th_state th')) = authorized (h_conn (th_state th))
  /\ rtsp_auth_calls th' = rtsp_auth_calls th
  /\ (forall h, select_handler method_handlers (method req) = Some h ->
        dispatched th' = dispatched th ++ [cstr (method req)]
        /\ h E conn reqp req (th_state th) = Some (th_state th')).
Proof.
  intros HX. unfold dispatch.
  destruct (select_handler method_handlers (method req)) as [h|] eqn:Hsel.
  - destruct (h E conn reqp req (th_state th)) as [s|] eqn:Hh; [|done].
    intros [= <-]. cbn.
    split; [exact (select_handler_keeps _ h Hsel E conn reqp req _ s HX Hh)|].
    split; [done|]. intros h' [= <-]. done.
  - intros [= <-]. done.
Qed.

(** One turn of the loop on an authorised connection. *)
Lemma conversation_turn_authorized conn t th th' :
  externals_keep_authorized (ext (t_env t)) ->
  is_authorized th ->
  conversation_turn conn t th = Some th' ->
  is_authorized th'
  /\ rtsp_auth_calls th' = rtsp_auth_calls th
  /\ (t_reply t = rtsp_read_request_response_ok ->
      forall h, select_handler method_handlers (method (t_req t)) = Some h ->
        dispatched th' = dispatched th ++ [cstr (method (t_req t))]).
Proof.
  intros HX Hauth. unfold conversation_turn, is_authorized in *.
  destruct (t_reply t); try (intros [= <-]; cbn; done).
  - destruct (apple_challenge _ _ _ _ _) as [resp|]; [|done]. cbv zeta.
    rewrite auth_gate_authorized by exact Hauth.
    set (th1 := with_state (with_conn (set_authorized 1 _) _) _).
    destruct (dispatch conn (t_env t) (t_reqp t) (t_req t) th1) as [th2|] eqn:Hd;
      [|done].
    destruct (dispatch_authorized conn _ _ _ _ _ HX Hd) as (Ha & Hc & Hlog).
    assert (authorized (h_conn (th_state th2)) = 1) as Ha2 by (rewrite Ha; done).
    destruct (stop (h_conn (th_state th2)) =? 0).
    + destruct (msg_write_response _ _) as [err pkt].
      intros [= <-]. destruct (negb (err =? 0)); cbn.
      * split; [done|]. split; [done|]. intros _ h Hh.
        by destruct (Hlog h Hh) as [-> _].
      * split; [done|]. split; [done|]. intros _ h Hh.
        by destruct (Hlog h Hh) as [-> _].
    + intros [= <-]. split; [done|]. split; [done|]. intros _ h Hh.
      by destruct (Hlog h Hh) as [-> _].
  - destruct (negb (player_thread _ =? 0)).
    + cbv zeta. destruct (to_int _ =? 0); intros [= <-]; cbn; done.
    + intros [= <-]; cbn; done.
  - destruct (negb (player_thread _ =? 0)).
    + cbv zeta. destruct (to_int _ =? 0); intros [= <-]; cbn; done.
    + intros [= <-]; cbn; done.
Qed.

(** C9.  The authorisation flag is only ever set: on a connection whose
    flag is 1, however many turns the loop makes and whatever the requests
    are, the flag is still 1 afterwards and [rtsp_auth] has not been called
    again; and each request that was read whose method is in the table went
    to the handler of that method.  The RTP layer and the player, which are
    other translation units, are assumed not to write the flag. *)
Theorem authorized_stays_set
    (conn : Z) (turns : list turn) (th th' : thread) :
  (forall t, t ∈ turns -> externals_keep_authorized (ext (t_env t))) ->
  is_authorized th ->
  conversation conn turns th = Some th' ->
  is_authorized th'
  /\ rtsp_auth_calls th' = rtsp_auth_calls th
  /\ (forall t th1 th2 h,
        t ∈ turns -> is_authorized th1 ->
        t_reply t = rtsp_read_request_response_ok ->
        select_handler method_handlers (method (t_req t)) = Some h ->
        conversation_turn conn t th1 = Some th2 ->
        is_authorized th2
        /\ rtsp_auth_calls th2 = rtsp_auth_calls th1
        /\ dispatched th2 = dispatched th1 ++ [cstr (method (t_req t))]).
Proof.
  intros HX Hauth Hrun.
  assert (is_authorized th' /\ rtsp_auth_calls th' = rtsp_auth_calls th) as [H1 H2].
  { revert th Hauth Hrun. induction turns as [|t turns IH]; intros th Hauth Hrun.
    - cbn in Hrun. by simplify_eq.
    - cbn [conversation] in Hrun.
      destruct (stop (h_conn (th_state th)) =? 0); [|by simplify_eq].
      destruct (conversation_turn conn t th) as [th1|] eqn:Hturn; [|done].
      destruct (conversation_turn_authorized conn t th th1
                  (HX t ltac:(left)) Hauth Hturn) as (Ha & Hc & _).
      destruct (IH (fun t' Ht' => HX t' ltac:(by right)) th1 Ha Hrun) as [IH1 IH2].
      split; [done|congruence]. }
  split; [done|]. split; [done|].
  intros t th1 th2 h Ht Ha Hok Hsel Hturn.
  destruct (conversation_turn_authorized conn t th1 th2 (HX t Ht) Ha Hturn)
    as (Ha2 & Hc2 & Hd).
  split; [done|]. split; [done|]. exact (Hd Hok h Hsel).
Qed.

(** The theorem at an authorised connection that sends OPTIONS and then
    GET_PARAMETER. *)
Lemma authorized_stays_set_witness :
  is_authorized Samples.thread1
  /\ conversation Samples.self Samples.turns1 Samples.thread1
     = Some Samples.thread1_after
  /\ is_authorized Samples.thread1_after
  /\ rtsp_auth_calls Samples.thread1_after = rtsp_auth_calls Samples.thread1
  /\ dispatched Samples.thread1_after = ["OPTIONS"%string; "GET_PARAMETER"%string].
Proof.
  assert (forall t, t ∈ Samples.turns1 -> externals_keep_authorized (ext (t_env t)))
    as HX.
  { intros t Ht. unfold Samples.turns1 in Ht.
    rewrite !elem_of_cons, elem_of_nil in Ht.
    destruct Ht as [->|[->|[]]]; repeat split; intros; reflexivity. }
  assert (is_authorized Samples.thread1) as Ha by reflexivity.
  assert (conversation Samples.self Samples.turns1 Samples.thread1
          = Some Samples.thread1_after) as Hrun by (vm_compute; reflexivity).
  destruct (authorized_stays_set Samples.self Samples.turns1
              Samples.thread1 Samples.thread1_after HX Ha Hrun)
    as (Ha' & Hcalls & _).
  split; [exact Ha|]. split; [exact Hrun|].
  split; [exact Ha'|]. split; [exact Hcalls|]. vm_compute. reflexivity.
Defined.

End ConversationProps.

(* ================================================================== *)
(** * Properties of the request reader *)
(* ================================================================== *)

Module ReaderProps.
Import CStr Codec Reader.

(** End of file while the header lines are read: the channel is reported
    closed. *)
Lemma read_headers_eof fuel env turn socket msg_indexes realloc_ok now buflen
    buf the_packet msg_size :
  msg_size < 0 -> stop_seen (env turn) = 0 ->
  reply <$> read_headers (S fuel) env turn (Arrives EmptyString :: socket)
              msg_indexes realloc_ok now buflen buf the_packet msg_size
  = Some rtsp_read_request_response_channel_closed.
Proof.
  intros Hsize Hstop. cbn [read_headers].
  apply Z.ltb_lt in Hsize. rewrite Hsize, Hstop. cbn [Z.eqb negb].
  unfold do_read. cbn [String.length].
  destruct (Z.to_nat _ <? 0)%nat eqn:Hlt; [by apply Nat.ltb_lt in Hlt; lia|].
  done.
Qed.

(** End of file while the body is read: the reply is the general error. *)
Lemma read_body_eof fuel env turn socket msg_indexes threshold_time
    warning_message_sent buf msg_size the_packet :
  Z.of_nat (String.length buf) < msg_size -> stop_seen (env turn) = 0 ->
  reply <$> read_body (S fuel) env turn (Arrives EmptyString :: socket)
              msg_indexes threshold_time warning_message_sent buf msg_size
              the_packet
  = Some rtsp_read_request_response_error.
Proof.
  intros Hsize Hstop. cbn [read_body].
  apply Z.ltb_lt in Hsize. rewrite Hsize, Hstop. cbn [Z.eqb negb].
  unfold do_read. cbn [String.length].
  destruct (Z.to_nat _ <? 0)%nat eqn:Hlt; [by apply Nat.ltb_lt in Hlt; lia|].
  done.
Qed.

(** C5.  A read of zero bytes is reported as [channel_closed] only while
    the header lines are read.  In the body loop the same read gives
    [rtsp_read_request_response_error]: for a request whose headers announce
    five bytes of body, of which two arrive before the peer closes the
    connection, [rtsp_read_request] answers [error], not [channel_closed]. *)
Theorem rtsp_read_request_eof_in_body
    (fuel : nat) (env : nat -> turn_env) (turn : nat) (socket : list read_outcome)
    (msg_indexes threshold_time : Z) (warning_message_sent : bool) (buf : string)
    (msg_size : Z) (the_packet : option rtsp_message) :
  (Z.of_nat (String.length buf) < msg_size -> stop_seen (env turn) = 0 ->
   reply <$> read_body (S fuel) env turn (Arrives EmptyString :: socket)
               msg_indexes threshold_time warning_message_sent buf msg_size
               the_packet
   = Some rtsp_read_request_response_error)
  /\ reply <$> rtsp_read_request 10 Samples.quiet Samples.eof_in_body 1 true true 0
     = Some rtsp_read_request_response_error
  /\ reply <$> rtsp_read_request 10 Samples.quiet Samples.eof_in_headers 1 true true 0
     = Some rtsp_read_request_response_channel_closed.
Proof.
  split; [apply read_body_eof|]. split; vm_compute; reflexivity.
Qed.

End ReaderProps.
(* ================================================================== *)
(** * Properties of the base64 encoder *)
(* ================================================================== *)

Module Base64Props.
Import CStr Multicast Base64.

(** Induction over a list three elements at a time, as the encoder
    reads it. *)
Lemma list_ind3 {A} (P : list A -> Prop) :
  P [] -> (forall a, P [a]) -> (forall a b, P [a; b]) ->
  (forall a b c l, P l -> P (a :: b :: c :: l)) ->
  forall l, P l.
Proof.
  intros H0 H1 H2 H3.
  assert (forall l, P l /\ (forall a, P (a :: l)) /\ (forall a b, P (a :: b :: l)))
    as H; [|intros l; apply H].
  induction l as [|x l (IH0 & IH1 & IH2)]; [by auto|].
  split; [apply IH1|]. split; [intros a; apply IH2|]. intros a b. by apply H3.
Qed.

Lemma encode_groups_length data :
  Z.of_nat (length (encode_groups data)) = 4 * ((Z.of_nat (length data) + 2) / 3).
Proof.
  induction data as [|a|a b|a b c l IH] using list_ind3; try reflexivity.
  cbn [encode_groups]. rewrite length_app. cbn [length quad].
  replace (Z.of_nat (S (S (S (length l)))) + 2) with
    ((Z.of_nat (length l) + 2) + 1 * 3) by lia.
  rewrite Z.div_add by lia. lia.
Qed.

Lemma encode_padded_length data :
  Z.of_nat (length (encode_padded data)) = 4 * ((Z.of_nat (length data) + 2) / 3).
Proof.
  induction data as [|a|a b|a b c l IH] using list_ind3; try reflexivity.
  cbn [encode_padded]. rewrite length_app. cbn [length quad].
  replace (Z.of_nat (S (S (S (length l)))) + 2) with
    ((Z.of_nat (length l) + 2) + 1 * 3) by lia.
  rewrite Z.div_add by lia. lia.
Qed.

Lemma pad_app k q g :
  (k <= length g)%nat ->
  pad k (Z.of_nat (length (q ++ g))) (q ++ g) = q ++ pad k (Z.of_nat (length g)) g.
Proof.
  intros Hk. unfold pad. rewrite length_app.
  assert (Forall (fun i => (i < length g)%nat) (seq 0 k)) as Hall.
  { apply Forall_forall. intros i Hi%elem_of_seq. lia. }
  remember (length g) as n eqn:Hn. revert Hall. generalize (seq 0 k). intros idx.
  revert g Hn. induction idx as [|i idx IH]; intros g Hn Hall; [done|].
  inversion Hall as [|? ? Hi Hall']; subst. cbn [foldl].
  replace (Z.to_nat (Z.of_nat (length q + length g) - 1 - Z.of_nat i))
    with (length q + Z.to_nat (Z.of_nat (length g) - 1 - Z.of_nat i))%nat by lia.
  rewrite insert_app_r.
  set (g' := <[_ := _]> g).
  assert (length g' = length g) as Hlen by apply length_insert.
  rewrite <- Hlen in *. by apply IH.
Qed.

Lemma mod3_step (n : nat) : Z.of_nat (S (S (S n))) mod 3 = Z.of_nat n mod 3.
Proof.
  replace (Z.of_nat (S (S (S n)))) with (Z.of_nat n + 1 * 3) by lia.
  by rewrite Z.mod_add by lia.
Qed.

(** The pad count never exceeds the number of characters of the last
    group. *)
Lemma pad_count_le data : (pad_count data <= length (encode_groups data))%nat.
Proof.
  unfold pad_count.
  induction data as [|a|a b|a b c l IH] using list_ind3;
    [vm_compute; lia|vm_compute; lia|vm_compute; lia|].
  cbn [length]. rewrite mod3_step. cbn [encode_groups]. rewrite length_app. lia.
Qed.

Lemma pad_count_step a b c l : pad_count (a :: b :: c :: l) = pad_count l.
Proof. unfold pad_count. cbn [length]. by rewrite mod3_step. Qed.

Lemma pad_groups data :
  pad (pad_count data) (Z.of_nat (length (encode_groups data))) (encode_groups data)
  = encode_padded data.
Proof.
  induction data as [|a|a b|a b c l IH] using list_ind3; try reflexivity.
  rewrite pad_count_step. cbn [encode_groups encode_padded].
  rewrite pad_app by apply pad_count_le. by rewrite IH.
Qed.

Lemma code_range c : 0 <= code c < 256.
Proof. unfold code. pose proof (nat_ascii_bounded c). lia. Qed.

Lemma triple_value a b c :
  0 <= a < 256 -> 0 <= b < 256 -> 0 <= c < 256 ->
  wrap32 (Z.shiftl a 16 + Z.shiftl b 8 + c) = a * 65536 + b * 256 + c.
Proof.
  intros Ha Hb Hc. rewrite !Z.shiftl_mul_pow2 by lia. unfold wrap32.
  change (2 ^ 16) with 65536. change (2 ^ 8) with 256.
  apply Z.mod_small. change (2 ^ 32) with 4294967296. lia.
Qed.

Lemma sextet_value t k :
  0 <= t -> 0 <= k ->
  Z.land (Z.shiftr t (k * 6)) 63 = (t / 2 ^ (k * 6)) mod 64.
Proof.
  intros Ht Hk. rewrite Z.shiftr_div_pow2 by lia.
  change 63 with (Z.ones 6). by rewrite Z.land_ones by lia.
Qed.

Lemma table_char_index i :
  0 <= i < 64 ->
  find_index (table_char i) encoding_table 0 = i
  /\ table_char i <> "="%char
  /\ table_char i ∈ encoding_table.
Proof.
  intros Hi.
  assert (forallb (fun n =>
            (find_index (table_char (Z.of_nat n)) encoding_table 0 =? Z.of_nat n)
            && negb (Ascii.eqb (table_char (Z.of_nat n)) "=")
            && bool_decide (table_char (Z.of_nat n) ∈ encoding_table))
            (seq 0 64) = true) as Hall by (vm_compute; reflexivity).
  rewrite forallb_forall in Hall.
  assert (In (Z.to_nat i) (seq 0 64)) as Hin by (apply in_seq; lia).
  specialize (Hall _ Hin). rewrite Z2Nat.id in Hall by lia.
  apply andb_true_iff in Hall as [Hall H3].
  apply andb_true_iff in Hall as [H1 H2].
  apply Z.eqb_eq in H1. apply negb_true_iff, Ascii.eqb_neq in H2.
  apply bool_decide_eq_true_1 in H3. done.
Qed.

Lemma sextet_table t k :
  0 <= t -> 0 <= k -> sextet t k = table_char ((t / 2 ^ (k * 6)) mod 64).
Proof. intros Ht Hk. unfold sextet, table_char. by rewrite sextet_value. Qed.

Lemma mod64_range x : 0 <= x mod 64 < 64.
Proof. apply Z.mod_pos_bound. lia. Qed.

(** The four characters of a group, by the value of the three bytes. *)
Lemma quad_chars a b c :
  0 <= a < 256 -> 0 <= b < 256 -> 0 <= c < 256 ->
  let t := a * 65536 + b * 256 + c in
  quad a b c = [table_char (t / 262144 mod 64); table_char (t / 4096 mod 64);
                table_char (t / 64 mod 64); table_char (t mod 64)].
Proof.
  intros Ha Hb Hc t. unfold quad. rewrite triple_value by done. fold t.
  assert (0 <= t) by (unfold t; lia).
  rewrite !sextet_table by lia.
  change (2 ^ (3 * 6)) with 262144. change (2 ^ (2 * 6)) with 4096.
  change (2 ^ (1 * 6)) with 64. change (2 ^ (0 * 6)) with 1.
  by rewrite Z.div_1_r.
Qed.

Lemma quad_in_table a b c :
  0 <= a < 256 -> 0 <= b < 256 -> 0 <= c < 256 ->
  Forall (fun x => x ∈ encoding_table) (quad a b c).
Proof.
  intros Ha Hb Hc. rewrite quad_chars by done.
  repeat (apply Forall_cons_2; [apply table_char_index, mod64_range|]).
  apply Forall_nil_2.
Qed.

Lemma byte_code c : byte (code c) = c.
Proof. unfold byte, code. by rewrite Nat2Z.id, ascii_nat_embedding. Qed.

Lemma regroup t :
  0 <= t < 16777216 ->
  t / 262144 mod 64 * 262144 + t / 4096 mod 64 * 4096 + t / 64 mod 64 * 64
  + t mod 64 = t.
Proof.
  intros Ht.
  pose proof (Z.div_mod t 64 ltac:(lia)).
  pose proof (Z.div_mod (t / 64) 64 ltac:(lia)) as H1.
  rewrite Z.div_div in H1 by lia.
  pose proof (Z.div_mod (t / 4096) 64 ltac:(lia)) as H2.
  rewrite Z.div_div in H2 by lia.
  change (64 * 64) with 4096 in *. change (4096 * 64) with 262144 in *.
  assert (t / 262144 < 64) by (apply Z.div_lt_upper_bound; lia).
  assert (0 <= t / 262144) by (apply Z.div_pos; lia).
  rewrite (Z.mod_small (t / 262144)) by lia.
  lia.
Qed.

Lemma low_sextet_zero a b : (a * 65536 + b * 256 + 0) mod 64 = 0.
Proof.
  replace (a * 65536 + b * 256 + 0) with ((a * 1024 + b * 4) * 64) by lia.
  apply Z.mod_mul. lia.
Qed.

Lemma second_sextet_zero a : (a * 65536 + 0 * 256 + 0) / 64 mod 64 = 0.
Proof.
  replace (a * 65536 + 0 * 256 + 0) with ((a * 1024) * 64) by lia.
  rewrite Z.div_mul by lia.
  replace (a * 1024) with ((a * 16) * 64) by lia. apply Z.mod_mul. lia.
Qed.

Lemma split_triple a b c :
  0 <= a < 256 -> 0 <= b < 256 -> 0 <= c < 256 ->
  let t := a * 65536 + b * 256 + c in
  t / 65536 = a /\ t / 256 mod 256 = b /\ t mod 256 = c.
Proof.
  intros Ha Hb Hc t.
  assert (t / 65536 = a) as H1.
  { symmetry. apply (Z.div_unique t 65536 a (b * 256 + c)); unfold t; lia. }
  assert (t / 256 = a * 256 + b) as H2.
  { symmetry. apply (Z.div_unique t 256 (a * 256 + b) c); unfold t; lia. }
  split; [done|]. split.
  - rewrite H2. symmetry. apply (Z.mod_unique _ 256 a b); lia.
  - symmetry. apply (Z.mod_unique t 256 (a * 256 + b) c); unfold t; lia.
Qed.

Lemma pad_index : find_index "=" encoding_table 0 = 0.
Proof. reflexivity. Qed.

Lemma decode_encode_padded data : decode (encode_padded data) = data.
Proof.
  induction data as [|a|a b|a b c l IH] using list_ind3; [done|..].
  - pose proof (code_range a) as Ha. cbn [encode_padded].
    rewrite quad_chars by lia. cbn [take app decode].
    set (t := code a * 65536 + 0 * 256 + 0).
    destruct (table_char_index (t / 262144 mod 64) (mod64_range _)) as (-> & _ & _).
    destruct (table_char_index (t / 4096 mod 64) (mod64_range _)) as (-> & _ & _).
    change (Ascii.eqb "=" "=") with true. cbv iota. rewrite pad_index.
    pose proof (regroup t ltac:(unfold t; lia)) as Hr.
    pose proof (low_sextet_zero (code a) 0) as Hl. fold t in Hl.
    pose proof (second_sextet_zero (code a)) as Hs. fold t in Hs.
    rewrite Hl, Hs in Hr.
    replace (t / 262144 mod 64 * 262144 + t / 4096 mod 64 * 4096 + 0 * 64 + 0)
      with t by lia.
    destruct (split_triple (code a) 0 0 Ha ltac:(lia) ltac:(lia)) as (H1 & _ & _).
    fold t in H1. by rewrite H1, byte_code.
  - pose proof (code_range a) as Ha. pose proof (code_range b) as Hb.
    cbn [encode_padded]. rewrite quad_chars by lia. cbn [take app decode].
    set (t := code a * 65536 + code b * 256 + 0).
    destruct (table_char_index (t / 262144 mod 64) (mod64_range _)) as (-> & _ & _).
    destruct (table_char_index (t / 4096 mod 64) (mod64_range _)) as (-> & _ & _).
    destruct (table_char_index (t / 64 mod 64) (mod64_range _)) as (-> & Hne & _).
    apply Ascii.eqb_neq in Hne. rewrite Hne.
    change (Ascii.eqb "=" "=") with true. cbv iota. rewrite pad_index.
    pose proof (regroup t ltac:(unfold t; lia)) as Hr.
    pose proof (low_sextet_zero (code a) (code b)) as Hl. fold t in Hl.
    rewrite Hl in Hr.
    replace (t / 262144 mod 64 * 262144 + t / 4096 mod 64 * 4096
             + t / 64 mod 64 * 64 + 0) with t by lia.
    destruct (split_triple (code a) (code b) 0 Ha Hb ltac:(lia)) as (H1 & H2 & _).
    fold t in H1, H2. by rewrite H1, H2, !byte_code.
  - pose proof (code_range a) as Ha. pose proof (code_range b) as Hb.
    pose proof (code_range c) as Hc.
    cbn [encode_padded]. rewrite quad_chars by lia. cbn [app decode].
    set (t := code a * 65536 + code b * 256 + code c).
    destruct (table_char_index (t / 262144 mod 64) (mod64_range _)) as (-> & _ & _).
    destruct (table_char_index (t / 4096 mod 64) (mod64_range _)) as (-> & _ & _).
    destruct (table_char_index (t / 64 mod 64) (mod64_range _)) as (-> & Hne2 & _).
    destruct (table_char_index (t mod 64) (mod64_range _)) as (-> & Hne3 & _).
    apply Ascii.eqb_neq in Hne2, Hne3. rewrite Hne2, Hne3.
    rewrite (regroup t) by (unfold t; lia).
    destruct (split_triple (code a) (code b) (code c) Ha Hb Hc) as (H1 & H2 & H3).
    fold t in H1, H2, H3. by rewrite H1, H2, H3, !byte_code, IH.
Qed.

Lemma encode_padded_app (d1 d2 : list ascii) :
  Z.of_nat (length d1) mod 3 = 0 ->
  encode_padded (d1 ++ d2) = encode_padded d1 ++ encode_padded d2.
Proof.
  induction d1 as [|a|a b|a b c l IH] using list_ind3; [done|done|done|].
  cbn [length]. rewrite mod3_step. intros Hm.
  cbn [app encode_padded]. rewrite IH by done. by rewrite app_assoc.
Qed.

(** Below 2^62 bytes the [size_t] computations of the encoder do not
    wrap. *)
Lemma output_size (data : list ascii) :
  Z.of_nat (length data) < 2 ^ 62 ->
  size_wrap (4 * (size_wrap (Z.of_nat (length data) + 2) / 3))
  = 4 * ((Z.of_nat (length data) + 2) / 3).
Proof.
  intros Hn. unfold size_wrap. change (2 ^ 62) with 4611686018427387904 in Hn.
  change (2 ^ 64) with 18446744073709551616.
  rewrite (Z.mod_small (_ + 2)) by lia.
  pose proof (Z.mul_div_le (Z.of_nat (length data) + 2) 3 ltac:(lia)).
  assert (0 <= (Z.of_nat (length data) + 2) / 3) by (apply Z.div_pos; lia).
  apply Z.mod_small. lia.
Qed.

Lemma base64_encode_so_fits data output_length :
  Z.of_nat (length data) < 2 ^ 62 ->
  4 * ((Z.of_nat (length data) + 2) / 3) <= output_length ->
  base64_encode_so data output_length
  = (Some (encode_padded data), 4 * ((Z.of_nat (length data) + 2) / 3)).
Proof.
  intros Hn Hfit. unfold base64_encode_so. rewrite output_size by done.
  destruct (output_length <? _) eqn:Hlt; [lia|].
  rewrite <- (encode_groups_length data) at 1.
  fold (pad_count data). by rewrite pad_groups.
Qed.

Lemma base64_encode_so_small data output_length :
  Z.of_nat (length data) < 2 ^ 62 ->
  output_length < 4 * ((Z.of_nat (length data) + 2) / 3) ->
  base64_encode_so data output_length = (None, output_length).
Proof.
  intros Hn Hfit. unfold base64_encode_so. rewrite output_size by done.
  destruct (output_length <? _) eqn:Hlt; [done|lia].
Qed.

Lemma encode_padded_shape data :
  exists body,
    encode_padded data = body ++ replicate (padding data) "="%char
    /\ Forall (fun x => x ∈ encoding_table) body.
Proof.
  induction data as [|a|a b|a b c l (body & IH & Hbody)] using list_ind3.
  - by exists [].
  - pose proof (code_range a). exists (take 2 (quad (code a) 0 0)).
    split; [done|]. apply Forall_take, quad_in_table; lia.
  - pose proof (code_range a). pose proof (code_range b).
    exists (take 3 (quad (code a) (code b) 0)).
    split; [done|]. apply Forall_take, quad_in_table; lia.
  - pose proof (code_range a). pose proof (code_range b). pose proof (code_range c).
    exists (quad (code a) (code b) (code c) ++ body). split.
    + cbn [encode_padded]. rewrite IH, <- app_assoc. do 2 f_equal.
      unfold padding. cbn [length]. by rewrite mod3_step.
    + apply Forall_app. split; [apply quad_in_table; lia|done].
Qed.

(** X1.  [base64_encode_so] on fewer than 2^62 bytes: when the buffer is
    too small for the [4 * ceil(n / 3)] characters it returns NULL and
    leaves the length alone; otherwise it stores exactly that many
    characters and reports that length, and the output is characters of
    the table followed by as many ['='] as bytes are missing from the last
    group of three. *)
Theorem base64_encode_so_output (data : list ascii) (output_length : Z) :
  Z.of_nat (length data) < 2 ^ 62 ->
  let size := 4 * ((Z.of_nat (length data) + 2) / 3) in
  (output_length < size ->
     base64_encode_so data output_length = (None, output_length))
  /\ (size <= output_length ->
        exists body,
          base64_encode_so data output_length
          = (Some (body ++ replicate (padding data) "="%char), size)
          /\ Z.of_nat (length (body ++ replicate (padding data) "="%char)) = size
          /\ Forall (fun x => x ∈ encoding_table) body
          /\ "="%char ∉ encoding_table).
Proof.
  intros Hn size. split.
  - intros Hsmall. by apply base64_encode_so_small.
  - intros Hfit. destruct (encode_padded_shape data) as (body & Hshape & Hbody).
    exists body. rewrite <- Hshape, encode_padded_length.
    split; [by apply base64_encode_so_fits|]. split; [done|]. split; [done|].
    apply (proj1 (bool_decide_eq_false ("="%char ∈ encoding_table))).
    vm_compute. reflexivity.
Qed.

(** The theorem at the two bytes ["Ma"] and a buffer of 76 characters. *)
Lemma base64_encode_so_output_witness :
  base64_encode_so (String.list_ascii_of_string "Ma") 3 = (None, 3)
  /\ exists body,
       base64_encode_so (String.list_ascii_of_string "Ma") 76
       = (Some (body ++ ["="%char]), 4)
       /\ Z.of_nat (length (body ++ ["="%char])) = 4
       /\ Forall (fun x => x ∈ encoding_table) body
       /\ "="%char ∉ encoding_table.
Proof.
  split.
  - apply (base64_encode_so_output (String.list_ascii_of_string "Ma") 3);
      vm_compute; reflexivity.
  - apply (base64_encode_so_output (String.list_ascii_of_string "Ma") 76);
      vm_compute; [reflexivity|discriminate].
Defined.

(** X2.  The encoder loses nothing: two inputs of fewer than 2^62 bytes
    for which it stores the same characters are the same bytes. *)
Theorem base64_encode_so_injective
    (d1 d2 : list ascii) (l1 l2 n1 n2 : Z) (out : list ascii) :
  Z.of_nat (length d1) < 2 ^ 62 ->
  Z.of_nat (length d2) < 2 ^ 62 ->
  base64_encode_so d1 l1 = (Some out, n1) ->
  base64_encode_so d2 l2 = (Some out, n2) ->
  d1 = d2.
Proof.
  intros H1 H2 E1 E2.
  destruct (Z_lt_le_dec l1 (4 * ((Z.of_nat (length d1) + 2) / 3))) as [Hs1|Hf1].
  { rewrite base64_encode_so_small in E1 by done. discriminate. }
  destruct (Z_lt_le_dec l2 (4 * ((Z.of_nat (length d2) + 2) / 3))) as [Hs2|Hf2].
  { rewrite base64_encode_so_small in E2 by done. discriminate. }
  rewrite base64_encode_so_fits in E1, E2 by done.
  injection E1 as E1 _. injection E2 as E2 _.
  rewrite <- (decode_encode_padded d1), <- (decode_encode_padded d2).
  congruence.
Qed.

(** The theorem at the two bytes ["Ma"], encoded twice into buffers of
    different sizes. *)
Lemma base64_encode_so_injective_witness :
  base64_encode_so (String.list_ascii_of_string "Ma") 76
  = (Some (String.list_ascii_of_string "TWE="), 4)
  /\ base64_encode_so (String.list_ascii_of_string "Ma") 4
     = (Some (String.list_ascii_of_string "TWE="), 4)
  /\ String.list_ascii_of_string "Ma" = String.list_ascii_of_string "Ma".
Proof.
  split; [vm_compute; reflexivity|]. split; [vm_compute; reflexivity|].
  exact (base64_encode_so_injective
           (String.list_ascii_of_string "Ma") (String.list_ascii_of_string "Ma")
           76 4 4 4 (String.list_ascii_of_string "TWE=")
           ltac:(vm_compute; reflexivity) ltac:(vm_compute; reflexivity)
           ltac:(vm_compute; reflexivity) ltac:(vm_compute; reflexivity)).
Defined.

(** X3.  Encoding piece by piece: when the first piece has a multiple of
    three bytes, the characters stored for the two pieces, one after the
    other, are the characters stored for the whole. *)
Theorem base64_encode_so_app
    (d1 d2 : list ascii) (l1 l2 l n1 n2 : Z) (o1 o2 : list ascii) :
  Z.of_nat (length d1) + Z.of_nat (length d2) < 2 ^ 62 ->
  Z.of_nat (length d1) mod 3 = 0 ->
  base64_encode_so d1 l1 = (Some o1, n1) ->
  base64_encode_so d2 l2 = (Some o2, n2) ->
  n1 + n2 <= l ->
  base64_encode_so (d1 ++ d2) l = (Some (o1 ++ o2), n1 + n2).
Proof.
  intros Hn Hm E1 E2 Hl.
  assert (Z.of_nat (length d1) < 2 ^ 62) as H1 by lia.
  assert (Z.of_nat (length d2) < 2 ^ 62) as H2 by lia.
  destruct (Z_lt_le_dec l1 (4 * ((Z.of_nat (length d1) + 2) / 3))) as [Hs1|Hf1].
  { rewrite base64_encode_so_small in E1 by done. discriminate. }
  destruct (Z_lt_le_dec l2 (4 * ((Z.of_nat (length d2) + 2) / 3))) as [Hs2|Hf2].
  { rewrite base64_encode_so_small in E2 by done. discriminate. }
  rewrite base64_encode_so_fits in E1, E2 by done.
  injection E1 as <- <-. injection E2 as <- <-.
  assert (4 * ((Z.of_nat (length (d1 ++ d2)) + 2) / 3)
          = 4 * ((Z.of_nat (length d1) + 2) / 3)
            + 4 * ((Z.of_nat (length d2) + 2) / 3)) as Hsize.
  { rewrite <- !encode_padded_length, encode_padded_app, length_app by done. lia. }
  rewrite base64_encode_so_fits.
  - by rewrite encode_padded_app, Hsize by done.
  - rewrite length_app. lia.
  - lia.
Qed.

Lemma base64_encode_so_app_witness :
  base64_encode_so (String.list_ascii_of_string "ManMa") 76
  = (Some (String.list_ascii_of_string "TWFuTWE="), 8).
Proof.
  exact (base64_encode_so_app
           (String.list_ascii_of_string "Man") (String.list_ascii_of_string "Ma")
           4 4 76 4 4
           (String.list_ascii_of_string "TWFu") (String.list_ascii_of_string "TWE=")
           ltac:(vm_compute; reflexivity) ltac:(vm_compute; reflexivity)
           ltac:(vm_compute; reflexivity) ltac:(vm_compute; reflexivity)
           ltac:(vm_compute; discriminate)).
Defined.

End Base64Props.
(* ================================================================== *)
(** * Properties of the metadata pipe writer *)
(* ================================================================== *)

Module PipeProps.
Import CStr Multicast Metadata PcQueue Base64 Pipe Base64Props.

Lemma bytes_n_take n (l : list ascii) :
  (n <= length l)%nat -> bytes_n n l = take n l.
Proof.
  intros Hn. unfold bytes_n. apply list_eq. intros i.
  rewrite list_lookup_fmap.
  destruct (decide (i < n)%nat) as [Hi|Hi].
  - rewrite lookup_seq_lt by done. cbn.
    rewrite lookup_take_lt by done.
    destruct (lookup_lt_is_Some_2 l i ltac:(lia)) as [x ->]. done.
  - rewrite lookup_seq_ge by lia. cbn. by rewrite lookup_take_ge by lia.
Qed.

(** A group of at most 57 bytes always fits the 76 characters of
    [outbuf]. *)
Lemma group_fits (d : list ascii) :
  (length d <= 57)%nat ->
  base64_encode_so d 76 = (Some (encode_padded d), Z.of_nat (length (encode_padded d))).
Proof.
  intros Hd. rewrite encode_padded_length.
  assert ((Z.of_nat (length d) + 2) / 3 < 20).
  { apply Z.div_lt_upper_bound; lia. }
  apply base64_encode_so_fits; [|lia].
  change (2 ^ 62) with 4611686018427387904. lia.
Qed.

Lemma data_loop_spec E fuel remaining_count remaining_data ret st :
  all_written E ->
  0 <= ret ->
  0 <= remaining_count <= Z.of_nat fuel ->
  remaining_count <= Z.of_nat (length remaining_data) ->
  exists st',
    data_loop fuel E remaining_count remaining_data ret st = Some (true, st')
    /\ fd st' = fd st
    /\ exists groups,
         writes st' = writes st ++ groups
         /\ concat groups
            = encode_padded (take (Z.to_nat remaining_count) remaining_data).
Proof.
  intros Hw. revert remaining_count remaining_data ret st.
  induction fuel as [|fuel IH]; intros rc rd ret st Hret Hrc Hlen.
  - assert (rc = 0) as -> by lia. cbn. exists st. split; [done|]. split; [done|].
    exists []. by rewrite app_nil_r.
  - cbn [data_loop]. destruct (rc =? 0) eqn:Hz.
    { apply Z.eqb_eq in Hz. subst rc. cbn. exists st. split; [done|].
      split; [done|]. exists []. by rewrite app_nil_r. }
    apply Z.eqb_neq in Hz. cbn [negb andb].
    destruct (0 <=? ret) eqn:Hr; [|lia].
    set (tw := if 57 <? rc then 57 else rc).
    assert (0 < tw <= 57 /\ tw <= rc) as Htw by (unfold tw; destruct (57 <? rc) eqn:?; lia).
    assert (tw = if 57 <? rc then 57 else rc) as Htwdef by reflexivity.
    clearbody tw.
    rewrite bytes_n_take by lia.
    rewrite group_fits by (rewrite length_take; lia).
    set (e := encode_padded (take (Z.to_nat tw) rd)).
    rewrite Nat2Z.id, take_app_length.
    unfold write. cbn [fst snd].
    pose proof (Hw (length (writes st))) as Hk.
    destruct (to_int _ <? 0) eqn:Hneg; [lia|].
    edestruct (IH (rc - tw) (drop (Z.to_nat tw) rd) (to_int (write_ret E (length (writes st))))
                 {| fd := fd st; writes := writes st ++ [e] |})
      as (st' & Hrun & Hfd & groups & Hwr & Hcat); [lia|lia| |].
    { rewrite length_drop. lia. }
    exists st'. split; [exact Hrun|]. split; [exact Hfd|].
    exists (e :: groups). split.
    { rewrite Hwr. cbn. by rewrite <- app_assoc. }
    cbn [concat]. rewrite Hcat. unfold e.
    destruct (57 <? rc) eqn:Hbig.
    + subst tw.
      rewrite <- encode_padded_app.
      2:{ rewrite length_take. replace (Z.to_nat 57 `min` length rd)%nat with 57%nat by lia.
          reflexivity. }
      f_equal. rewrite take_take_drop. f_equal; lia.
    + subst tw.
      rewrite Z.sub_diag. cbn [Z.to_nat take encode_padded]. by rewrite app_nil_r.
Qed.

Lemma clean_snoc E a b :
  clean E a b -> 0 <= to_int (write_ret E b) -> clean E a (S b).
Proof.
  intros Hc Hb k Hk. destruct (decide (k = b)) as [->|]; [done|]. apply Hc. lia.
Qed.

Lemma data_loop_total E a fuel remaining_count remaining_data ret st :
  0 <= remaining_count <= Z.of_nat fuel ->
  (a <= length (writes st))%nat ->
  clean E a (length (writes st)) ->
  exists b st',
    data_loop fuel E remaining_count remaining_data ret st = Some (b, st')
    /\ fd st' = fd st
    /\ (length (writes st) <= length (writes st'))%nat
    /\ clean E a (if b then length (writes st') else pred (length (writes st'))).
Proof.
  revert remaining_count remaining_data ret st.
  induction fuel as [|fuel IH]; intros rc rd ret st Hrc Ha Hclean.
  - assert (rc = 0) as -> by lia. cbn. by exists true, st.
  - cbn [data_loop].
    destruct (negb (rc =? 0) && (0 <=? ret)) eqn:Hgo; [|by exists true, st].
    apply andb_true_iff in Hgo as [Hz _]. apply negb_true_iff, Z.eqb_neq in Hz.
    set (tw := if 57 <? rc then 57 else rc).
    assert (0 < tw <= rc) as Htw by (unfold tw; destruct (57 <? rc) eqn:?; lia).
    clearbody tw.
    destruct (base64_encode_so _ 76) as [encoded outbuf_size].
    unfold write. cbn [fst snd].
    set (buf := take _ _).
    destruct (to_int (write_ret E (length (writes st))) <? 0) eqn:Hneg.
    + exists false, {| fd := fd st; writes := writes st ++ [buf] |}.
      cbn [fd writes]. rewrite length_app. cbn [length].
      split; [done|]. split; [done|]. split; [lia|].
      by replace (pred (length (writes st) + 1)) with (length (writes st)) by lia.
    + edestruct (IH (rc - tw) (drop (Z.to_nat tw) rd)
                   (to_int (write_ret E (length (writes st))))
                   {| fd := fd st; writes := writes st ++ [buf] |})
        as (b & st' & Hrun & Hfd & Hlen & Hc); [lia| |  |].
      { cbn [writes]. rewrite length_app. lia. }
      { cbn [writes]. rewrite length_app. cbn [length].
        replace (length (writes st) + 1)%nat with (S (length (writes st))) by lia.
        apply clean_snoc; [done|lia]. }
      exists b, st'. cbn [writes fd] in *. rewrite length_app in Hlen.
      split; [done|]. split; [done|]. split; [lia|done].
Qed.

Lemma metadata_process_writes
    (cfg : configuration) (E : pipe_env) (type code data : Z)
    (data_bytes : list ascii) (length : Z) (st : pipe_state) :
  0 <= fd st ->
  all_written E ->
  0 <= length <= Z.of_nat (List.length data_bytes) ->
  Z.of_nat (List.length data_bytes) < 2 ^ 62 ->
  exists st' b64,
    metadata_process cfg E type code data data_bytes length st = Some st'
    /\ fd st' = fd st
    /\ base64_encode_so (take (Z.to_nat length) data_bytes) (4 * ((length + 2) / 3))
       = (Some b64, 4 * ((length + 2) / 3))
    /\ exists out,
         writes st' = writes st ++ out
         /\ concat out
            = text (item_open type code length)
              ++ (if negb (data =? 0) && (0 <? length)
                  then text data_open ++ b64 ++ text "</data>" else [])
              ++ text "</item>" ++ [LF].
Proof.
  intros Hfd Hw Hlen Hbig.
  assert (Z.of_nat (List.length (take (Z.to_nat length) data_bytes)) = length)
    as Htake by (rewrite length_take; lia).
  pose proof (base64_encode_so_fits (take (Z.to_nat length) data_bytes)
                (4 * ((length + 2) / 3))) as Hb64.
  rewrite Htake in Hb64. specialize (Hb64 ltac:(lia) ltac:(lia)).
  pose proof (Hw (List.length (writes st))) as H0.
  unfold metadata_process.
  destruct (fd st <? 0) eqn:Hneg; [lia|]. rewrite Hneg.
  unfold write at 1. cbn [fst snd].
  destruct (to_int _ <? 0) eqn:Hn0; [lia|]. clear Hn0.
  destruct (negb (data =? 0) && (0 <? length)) eqn:Hdata.
  - unfold write at 1. cbn [fst snd writes fd].
    pose proof (Hw (List.length (writes st ++ [text (item_open type code length)])))
      as H1.
    destruct (to_int _ <? 0) eqn:Hn1; [lia|]. clear Hn1.
    edestruct (data_loop_spec E (Z.to_nat length) length data_bytes
                 (to_int (write_ret E (List.length
                    (writes st ++ [text (item_open type code length)]))))
                 {| fd := fd st;
                    writes := (writes st ++ [text (item_open type code length)])
                              ++ [text data_open] |} Hw)
      as (st1 & Hrun & Hfd1 & groups & Hwr & Hcat); [lia|lia|lia|].
    rewrite Hrun.
    unfold write at 1. cbn [fst snd].
    pose proof (Hw (List.length (writes st1))) as H2.
    destruct (to_int _ <? 0) eqn:Hn2; [lia|]. clear Hn2.
    unfold write. cbn [fst snd fd writes].
    eexists _, _. split; [done|]. cbn [fd]. split; [by rewrite Hfd1|].
    split; [exact Hb64|].
    exists ([text (item_open type code length)] ++ [text data_open] ++ groups
            ++ [text "</data>"] ++ [text "</item>" ++ [LF]]).
    split.
    + cbn [writes]. rewrite Hwr. cbn [writes]. by rewrite <- !app_assoc.
    + rewrite !concat_app, Hcat. cbn [concat]. by rewrite ?app_nil_r, <- ?app_assoc.
  - unfold write. cbn [fst snd fd writes].
    eexists _, _. split; [done|]. split; [done|]. split; [exact Hb64|].
    exists ([text (item_open type code length)] ++ [text "</item>" ++ [LF]]).
    split; [by cbn [writes]; rewrite <- ?app_assoc|by cbn; rewrite ?app_nil_r].
Qed.


(** X4.  [metadata_process] with the pipe open and every [write]
    succeeding, on [length] bytes of data: it returns, and the buffers it
    hands to [write], taken together, are the item's opening tags, then,
    when there is data, the data tags around the base64 text that
    [base64_encode_so] gives for the whole data in one call, then the
    closing tag.  The groups of 57 bytes do not show in the output. *)
Theorem metadata_process_output
    (cfg : configuration) (E : pipe_env) (type code data : Z)
    (data_bytes : list ascii) (length : Z) (st : pipe_state) :
  0 <= fd st ->
  all_written E ->
  0 <= length <= Z.of_nat (List.length data_bytes) ->
  Z.of_nat (List.length data_bytes) < 2 ^ 62 ->
  exists st' b64,
    metadata_process cfg E type code data data_bytes length st = Some st'
    /\ fd st' = fd st
    /\ base64_encode_so (take (Z.to_nat length) data_bytes) (4 * ((length + 2) / 3))
       = (Some b64, 4 * ((length + 2) / 3))
    /\ exists out,
         writes st' = writes st ++ out
         /\ concat out
            = text (item_open type code length)
              ++ (if negb (data =? 0) && (0 <? length)
                  then text data_open ++ b64 ++ text "</data>" else [])
              ++ text "</item>" ++ [LF].
Proof. apply metadata_process_writes. Qed.

(** The theorem at eighty bytes, which go out as a group of 57 and a
    group of 23. *)
Lemma metadata_process_output_witness :
  exists st' b64,
    metadata_process Samples.cfg0 MoreSamples.pipe_env0 1 2 4096
      MoreSamples.bytes80 80 MoreSamples.pipe_open = Some st'
    /\ fd st' = fd MoreSamples.pipe_open
    /\ base64_encode_so (take (Z.to_nat 80) MoreSamples.bytes80) (4 * ((80 + 2) / 3))
       = (Some b64, 4 * ((80 + 2) / 3))
    /\ exists out,
         writes st' = writes MoreSamples.pipe_open ++ out
         /\ concat out
            = text (item_open 1 2 80)
              ++ (if negb (4096 =? 0) && (0 <? 80)
                  then text data_open ++ b64 ++ text "</data>" else [])
              ++ text "</item>" ++ [LF].
Proof.
  apply (metadata_process_output Samples.cfg0 MoreSamples.pipe_env0 1 2 4096
           MoreSamples.bytes80 80 MoreSamples.pipe_open).
  - vm_compute. discriminate.
  - intros k. vm_compute. discriminate.
  - vm_compute. split; discriminate.
  - vm_compute. reflexivity.
Defined.

(** X5.  [metadata_process] always returns, and once a [write] has
    failed it writes nothing more: of the writes made by one call, all
    but possibly the last one had succeeded. *)
Theorem metadata_process_stops_at_failure
    (cfg : configuration) (E : pipe_env) (type code data : Z)
    (data_bytes : list ascii) (length : Z) (st : pipe_state) :
  exists st',
    metadata_process cfg E type code data data_bytes length st = Some st'
    /\ (List.length (writes st) <= List.length (writes st'))%nat
    /\ forall k,
         (List.length (writes st) <= k)%nat ->
         (S k < List.length (writes st'))%nat ->
         0 <= to_int (write_ret E k).
Proof.
  set (a := List.length (writes st)).
  assert (forall ws : list (list ascii), (a <= List.length ws)%nat ->
            clean E a (pred (List.length ws)) ->
            (a <= List.length ws)%nat
            /\ forall k, (a <= k)%nat -> (S k < List.length ws)%nat ->
                         0 <= to_int (write_ret E k)) as Hdone.
  { intros ws Hle Hc. split; [done|]. intros k Hk1 Hk2. apply Hc. lia. }
  assert (clean E a a) as Hc0 by (intros k Hk; lia).
  unfold metadata_process.
  set (st0 := if fd st <? 0 then metadata_open cfg E st else st).
  assert (writes st0 = writes st) as Hw0.
  { unfold st0, metadata_open. by destruct (fd st <? 0), (metadata_enabled cfg =? 0). }
  clearbody st0.
  destruct (fd st0 <? 0).
  { eexists. split; [done|]. rewrite Hw0. apply Hdone; [done|].
    intros k Hk. fold a in Hk. lia. }
  unfold write at 1. cbn [fst snd]. rewrite Hw0. fold a.
  destruct (to_int (write_ret E a) <? 0) eqn:Hn0.
  { eexists. split; [done|]. cbn [writes]. apply Hdone.
    - rewrite length_app. lia.
    - rewrite length_app. cbn [List.length]. fold a.
      by replace (pred (a + 1)) with a by lia. }
  assert (clean E a (S a)) as Hc1 by (apply clean_snoc; [done|lia]).
  destruct (negb (data =? 0) && (0 <? length)) eqn:Hdata.
  - apply andb_true_iff in Hdata as [_ Hpos%Z.ltb_lt].
    unfold write at 1. cbn [fst snd writes fd].
    rewrite length_app. cbn [List.length]. fold a.
    replace (a + 1)%nat with (S a) by lia.
    destruct (to_int (write_ret E (S a)) <? 0) eqn:Hn1.
    { eexists. split; [done|]. cbn [writes]. apply Hdone.
      - rewrite !length_app. lia.
      - rewrite !length_app. cbn [List.length]. fold a.
        by replace (pred (a + 1 + 1)) with (S a) by lia. }
    assert (clean E a (S (S a))) as Hc2 by (apply clean_snoc; [done|lia]).
    edestruct (data_loop_total E a (Z.to_nat length) length data_bytes
                 (to_int (write_ret E (S a)))
                 {| fd := fd st0;
                    writes := (writes st ++ [text (item_open type code length)])
                              ++ [text data_open] |})
      as (b & st1 & Hrun & Hfd1 & Hlen1 & Hcl1); [lia| | |].
    { cbn [writes]. rewrite !length_app. lia. }
    { cbn [writes]. rewrite !length_app. cbn [List.length]. fold a.
      by replace (a + 1 + 1)%nat with (S (S a)) by lia. }
    rewrite Hrun. cbn [writes] in Hlen1. rewrite !length_app in Hlen1.
    cbn [List.length] in Hlen1. fold a in Hlen1.
    destruct b.
    + unfold write at 1. cbn [fst snd].
      destruct (to_int (write_ret E (List.length (writes st1))) <? 0) eqn:Hn2.
      { eexists. split; [done|]. cbn [writes]. apply Hdone.
        - rewrite length_app. lia.
        - rewrite length_app. cbn [List.length].
          by replace (pred (List.length (writes st1) + 1))
            with (List.length (writes st1)) by lia. }
      unfold write. cbn [fst snd writes fd].
      eexists. split; [done|]. cbn [writes]. apply Hdone.
      * rewrite !length_app. lia.
      * rewrite !length_app. cbn [List.length].
        replace (pred (List.length (writes st1) + 1 + 1))
          with (S (List.length (writes st1))) by lia.
        apply clean_snoc; [done|lia].
    + eexists. split; [done|]. apply Hdone; [lia|done].
  - unfold write. cbn [fst snd writes fd].
    eexists. split; [done|]. cbn [writes]. apply Hdone.
    + rewrite !length_app. lia.
    + rewrite !length_app. cbn [List.length]. fold a.
      by replace (pred (a + 1 + 1)) with (S a) by lia.
Qed.

End PipeProps.
(* ================================================================== *)
(** * Properties of the producer/consumer queue: order of delivery *)
(* ================================================================== *)

Module PcQueueFifoProps.
Import PcQueue PcQueueFifo.

Lemma omap_seq_ext {A} (f g : nat -> option A) a n :
  (forall k, (a <= k < a + n)%nat -> f k = g k) ->
  omap f (seq a n) = omap g (seq a n).
Proof.
  revert a. induction n as [|n IH]; intros a Hfg; [done|].
  cbn [seq]. csimpl. rewrite (Hfg a) by lia.
  rewrite (IH (S a)); [done|]. intros k Hk. apply Hfg. lia.
Qed.

Lemma omap_seq_shift {A} (f : nat -> option A) a n :
  omap f (seq (S a) n) = omap (fun k => f (S k)) (seq a n).
Proof.
  revert a. induction n as [|n IH]; intros a; [done|].
  cbn [seq]. csimpl. by rewrite IH.
Qed.

Lemma contents_length q :
  well_formed q -> Z.of_nat (length (contents q)) = count q.
Proof.
  intros (Hcap & Hlen & Hcount & Htoq & Heoq). unfold contents.
  assert (forall n a, (forall k, (a <= k < a + n)%nat ->
            is_Some (items q !! Z.to_nat ((toq q + Z.of_nat k) mod capacity q))) ->
          length (omap (fun k => items q !! Z.to_nat ((toq q + Z.of_nat k)
                                                      mod capacity q)) (seq a n))
          = n) as Hn.
  { induction n as [|n IH]; intros a Hall; [done|].
    cbn [seq]. csimpl. destruct (Hall a ltac:(lia)) as [x ->].
    cbn [length]. f_equal. apply IH. intros k Hk. apply Hall. lia. }
  rewrite Hn; [lia|]. intros k _. apply lookup_lt_is_Some_2.
  pose proof (Z.mod_pos_bound (toq q + Z.of_nat k) (capacity q) ltac:(lia)). lia.
Qed.

(** Two slots fewer than [capacity] steps apart are different slots. *)
Lemma slots_differ cap start j k :
  0 < cap -> 0 <= j < k -> k < j + cap ->
  (start + j) mod cap <> (start + k) mod cap.
Proof.
  intros Hcap Hjk Hk Heq.
  assert ((k - j) mod cap = 0) as Hz.
  { replace (k - j) with ((start + k) - (start + j)) by lia.
    rewrite Zminus_mod, Heq, Z.sub_diag. by apply Z.mod_0_l; lia. }
  rewrite Z.mod_small in Hz by lia. lia.
Qed.

Lemma add_item_fifo q x block lock_rc :
  well_formed q -> lock_taken block lock_rc -> count q < capacity q ->
  exists q',
    pc_queue_add_item (Some q) x block lock_rc = (0, Some q')
    /\ well_formed q'
    /\ capacity q' = capacity q
    /\ contents q' = contents q ++ [x].
Proof.
  intros (Hcap & Hlen & Hcount & Htoq & Heoq) Hlock Hroom.
  pose proof (Z.mod_pos_bound (toq q + count q) (capacity q) ltac:(lia)) as Hb.
  change (2 ^ 32) with 4294967296 in Hcap.
  unfold pc_queue_add_item.
  destruct ((block =? 0) && (lock_rc =? EBUSY)) eqn:Hbusy.
  { apply andb_true_iff in Hbusy as [Hb0%Z.eqb_eq Hrc%Z.eqb_eq].
    by destruct (Hlock Hb0). }
  destruct (count q <? capacity q) eqn:Hlt; [|lia].
  assert (wrap32 (eoq q + 1) = eoq q + 1) as Hw1
    by (unfold wrap32; apply Z.mod_small; change (2 ^ 32) with 4294967296; lia).
  assert (wrap32 (count q + 1) = count q + 1) as Hw2
    by (unfold wrap32; apply Z.mod_small; change (2 ^ 32) with 4294967296; lia).
  rewrite Hw1, Hw2. eexists. split; [done|].
  assert ((if eoq q + 1 =? capacity q then 0 else eoq q + 1)
          = (toq q + (count q + 1)) mod capacity q) as Hnext.
  { rewrite Z.add_assoc, <- Zplus_mod_idemp_l, <- Heoq.
    destruct (eoq q + 1 =? capacity q) eqn:He.
    - apply Z.eqb_eq in He. rewrite He. by rewrite Z.mod_same by lia.
    - apply Z.eqb_neq in He. by rewrite Z.mod_small by lia. }
  split; [|split; [done|]].
  - unfold well_formed. cbn [capacity items count toq eoq].
    rewrite length_insert. repeat split; lia.
  - unfold contents. cbn [capacity items count toq eoq].
    replace (Z.to_nat (count q + 1)) with (Z.to_nat (count q) + 1)%nat by lia.
    rewrite seq_app, omap_app. f_equal.
    + apply omap_seq_ext. intros k Hk. apply list_lookup_insert_ne.
      intros Heq. apply Z2Nat.inj in Heq; [|lia|].
      2:{ pose proof (Z.mod_pos_bound (toq q + Z.of_nat k) (capacity q)
                        ltac:(lia)). lia. }
      rewrite Heoq in Heq.
      apply (slots_differ (capacity q) (toq q) (Z.of_nat k) (count q)); [lia|lia|lia|].
      done.
    + cbn [seq Nat.add]. csimpl.
      replace (Z.of_nat (Z.to_nat (count q))) with (count q) by lia.
      rewrite <- Heoq, list_lookup_insert_eq by lia. done.
Qed.

Lemma get_item_fifo q :
  well_formed q -> 0 < count q ->
  exists x q',
    pc_queue_get_item (Some q) = GetReturned 0 (Some x) (Some q')
    /\ well_formed q'
    /\ capacity q' = capacity q
    /\ contents q = x :: contents q'.
Proof.
  intros (Hcap & Hlen & Hcount & Htoq & Heoq) Hsome.
  change (2 ^ 32) with 4294967296 in Hcap.
  unfold pc_queue_get_item.
  destruct (count q =? 0) eqn:Hz; [lia|].
  destruct (lookup_lt_is_Some_2 (items q) (Z.to_nat (toq q)) ltac:(lia)) as [x Hx].
  rewrite Hx.
  assert (wrap32 (toq q + 1) = toq q + 1) as Hw1
    by (unfold wrap32; apply Z.mod_small; change (2 ^ 32) with 4294967296; lia).
  assert (wrap32 (count q - 1) = count q - 1) as Hw2
    by (unfold wrap32; apply Z.mod_small; change (2 ^ 32) with 4294967296; lia).
  rewrite Hw1, Hw2. eexists _, _. split; [done|].
  set (toq' := if toq q + 1 =? capacity q then 0 else toq q + 1).
  assert (toq' = (toq q + 1) mod capacity q) as Hnext.
  { unfold toq'. destruct (toq q + 1 =? capacity q) eqn:He.
    - apply Z.eqb_eq in He. rewrite He. by rewrite Z.mod_same by lia.
    - apply Z.eqb_neq in He. by rewrite Z.mod_small by lia. }
  split; [|split; [done|]].
  - unfold well_formed. cbn [capacity items count toq eoq].
    pose proof (Z.mod_pos_bound (toq q + 1) (capacity q) ltac:(lia)).
    repeat split; try lia.
    rewrite Heoq, Hnext, Zplus_mod_idemp_l. f_equal. lia.
  - unfold contents. cbn [capacity items count toq eoq].
    replace (Z.to_nat (count q)) with (S (Z.to_nat (count q - 1))) by lia.
    cbn [seq]. csimpl.
    rewrite Z.add_0_r, Z.mod_small, Hx by lia. f_equal.
    rewrite omap_seq_shift. apply omap_seq_ext. intros k _.
    rewrite Hnext, Zplus_mod_idemp_l. do 3 f_equal. lia.
Qed.

Lemma pc_queue_init_well_formed slots item_size number_of_items :
  0 < number_of_items < 2 ^ 32 ->
  Z.of_nat (length slots) = number_of_items ->
  well_formed (pc_queue_init slots item_size number_of_items)
  /\ contents (pc_queue_init slots item_size number_of_items) = [].
Proof.
  intros Hn Hlen. split; [|done].
  unfold well_formed, pc_queue_init. cbn [capacity items count toq eoq].
  rewrite Z.add_0_r, Z.mod_small by lia. lia.
Qed.

Lemma apply_op_fifo q op :
  well_formed q ->
  well_formed (apply_op q op)
  /\ capacity (apply_op q op) = capacity q
  /\ contents (apply_op q op) = fifo_op (capacity q) (contents q) op.
Proof.
  intros Hwf. pose proof (contents_length q Hwf) as Hlen.
  destruct op as [x block lock_rc|]; unfold apply_op, fifo_op.
  - destruct ((block =? 0) && (lock_rc =? EBUSY)) eqn:Hbusy.
    { unfold pc_queue_add_item. rewrite Hbusy. done. }
    rewrite Hlen. destruct (count q <? capacity q) eqn:Hroom.
    + destruct (add_item_fifo q x block lock_rc Hwf)
        as (q' & -> & Hwf' & Hcap' & Hc).
      * intros Hb Hrc. apply andb_false_iff in Hbusy as [H|H].
        -- apply Z.eqb_neq in H. lia.
        -- apply Z.eqb_neq in H. lia.
      * lia.
      * done.
    + unfold pc_queue_add_item. rewrite Hbusy, Hroom. done.
  - destruct (Z_le_gt_dec (count q) 0) as [Hz|Hpos].
    + destruct Hwf as (? & ? & ? & ? & ?).
      assert (count q = 0) as Hc0 by lia.
      unfold pc_queue_get_item. rewrite Hc0. cbn.
      split; [done|]. split; [done|].
      unfold contents. by rewrite Hc0.
    + destruct (get_item_fifo q Hwf ltac:(lia))
        as (x & q' & Hget & Hwf' & Hcap' & Hc).
      rewrite Hget, Hc. done.
Qed.

(** X6.  Adding to a queue that has room, with the lock taken: the call
    returns 0, the queue stays well formed and the new item waits behind
    all the others. *)
Theorem pc_queue_add_item_appends
    (q : pc_queue) (the_stuff : metadata_package) (block lock_rc : Z) :
  well_formed q -> lock_taken block lock_rc -> count q < capacity q ->
  exists q',
    pc_queue_add_item (Some q) the_stuff block lock_rc = (0, Some q')
    /\ well_formed q'
    /\ capacity q' = capacity q
    /\ contents q' = contents q ++ [the_stuff].
Proof. apply add_item_fifo. Qed.

Lemma pc_queue_add_item_appends_witness :
  exists q',
    pc_queue_add_item (Some Samples.queue_empty) Samples.pack0 1 0 = (0, Some q')
    /\ well_formed q'
    /\ capacity q' = capacity Samples.queue_empty
    /\ contents q' = contents Samples.queue_empty ++ [Samples.pack0].
Proof.
  apply (pc_queue_add_item_appends Samples.queue_empty Samples.pack0 1 0).
  - vm_compute. repeat split; discriminate.
  - intros H. discriminate H.
  - reflexivity.
Defined.

(** X7.  Taking from a queue that is not empty: the call returns 0 with
    the item that has waited longest, and the others wait on in the same
    order. *)
Theorem pc_queue_get_item_takes_oldest (q : pc_queue) :
  well_formed q -> 0 < count q ->
  exists x q',
    pc_queue_get_item (Some q) = GetReturned 0 (Some x) (Some q')
    /\ well_formed q'
    /\ capacity q' = capacity q
    /\ contents q = x :: contents q'.
Proof. apply get_item_fifo. Qed.

Lemma pc_queue_get_item_takes_oldest_witness :
  exists x q',
    pc_queue_get_item (Some Samples.queue_full) = GetReturned 0 (Some x) (Some q')
    /\ well_formed q'
    /\ capacity q' = capacity Samples.queue_full
    /\ contents Samples.queue_full = x :: contents q'.
Proof.
  apply (pc_queue_get_item_takes_oldest Samples.queue_full).
  - vm_compute. repeat split; discriminate.
  - reflexivity.
Defined.

(** X8.  The ring is a bounded first-in first-out buffer: from a queue
    set up by [pc_queue_init] on an array of [number_of_items] packages,
    after any sequence of additions and removals the waiting items are
    those of a list to which an addition appends when the lock was taken
    and fewer than [number_of_items] wait, and from which a removal takes
    the head. *)
Theorem pc_queue_run_is_fifo
    (items : list metadata_package) (item_size number_of_items : Z)
    (ops : list queue_op) :
  0 < number_of_items < 2 ^ 32 ->
  Z.of_nat (length items) = number_of_items ->
  let q := run_ops (pc_queue_init items item_size number_of_items) ops in
  well_formed q
  /\ contents q = foldl (fifo_op number_of_items) [] ops
  /\ Z.of_nat (length (contents q)) <= number_of_items.
Proof.
  intros Hn Hlen.
  destruct (pc_queue_init_well_formed items item_size number_of_items Hn Hlen)
    as [Hwf Hc].
  assert (capacity (pc_queue_init items item_size number_of_items) = number_of_items)
    as Hcap by done.
  revert Hwf Hc Hcap. generalize (pc_queue_init items item_size number_of_items).
  generalize (@nil metadata_package) as l.
  induction ops as [|op ops IH]; intros l q Hwf Hc Hcap.
  - cbn. split; [done|]. split; [done|].
    rewrite contents_length by done. destruct Hwf as (? & ? & ? & ? & ?). lia.
  - unfold run_ops in *. cbn [foldl].
    destruct (apply_op_fifo q op Hwf) as (Hwf' & Hcap' & Hc').
    apply IH; [done| |congruence]. rewrite Hc', Hc, Hcap. done.
Qed.

Lemma pc_queue_run_is_fifo_witness :
  contents (run_ops (pc_queue_init (replicate 2 Samples.pack0) 32 2)
              [OpAdd Samples.pack0 1 0; OpGet; OpGet])
  = foldl (fifo_op 2) [] [OpAdd Samples.pack0 1 0; OpGet; OpGet].
Proof.
  apply (pc_queue_run_is_fifo (replicate 2 Samples.pack0) 32 2
           [OpAdd Samples.pack0 1 0; OpGet; OpGet]).
  - vm_compute. split; reflexivity.
  - reflexivity.
Defined.

End PcQueueFifoProps.
(* ================================================================== *)
(** * Properties of the reference counts and of the path through a queue *)
(* ================================================================== *)

Module RefCountProps.
Import PcQueue PcQueueFifo Metadata RefCount Base64 Pipe.

Lemma wrap32_small c : 0 <= c < 2 ^ 32 -> wrap32 c = c.
Proof. intros Hc. unfold wrap32. by apply Z.mod_small. Qed.

Lemma msg_retain_times_live n p ms m :
  65536 < p -> ms !! p = Some m ->
  0 <= referenceCount m -> referenceCount m + Z.of_nat n < 2 ^ 32 ->
  msg_retain_times n p ms
  = <[p := set_referenceCount (referenceCount m + Z.of_nat n) m]> ms.
Proof.
  intros Hp. revert ms m. induction n as [|n IH]; intros ms m Hm H0 Hn.
  - cbn. rewrite Z.add_0_r. symmetry. apply insert_id. rewrite Hm. by destruct m.
  - cbn [msg_retain_times]. unfold msg_retain.
    destruct (65536 <? p) eqn:Hlt; [|lia]. rewrite Hm.
    rewrite wrap32_small by lia.
    rewrite (IH _ (set_referenceCount (referenceCount m + 1) m)).
    + rewrite insert_insert_eq. f_equal. destruct m; unfold set_referenceCount; cbn. f_equal. lia.
    + by rewrite lookup_insert_eq.
    + cbn. lia.
    + cbn. lia.
Qed.

Lemma msg_free_times_live k p ms m :
  65536 < p -> ms !! p = Some m ->
  Z.of_nat k < referenceCount m < 2 ^ 32 ->
  msg_free_times k p ms
  = (p, <[p := set_referenceCount (referenceCount m - Z.of_nat k) m]> ms).
Proof.
  intros Hp. revert ms m. induction k as [|k IH]; intros ms m Hm Hk.
  - cbn. rewrite Z.sub_0_r. f_equal. symmetry. apply insert_id.
    rewrite Hm. by destruct m.
  - cbn [msg_free_times]. unfold msg_free.
    destruct (65536 <? p) eqn:Hlt; [|lia]. rewrite Hm.
    rewrite wrap32_small by lia.
    destruct (referenceCount m - 1 =? 0) eqn:Hz; [lia|].
    rewrite (IH _ (set_referenceCount (referenceCount m - 1) m)).
    + rewrite insert_insert_eq. do 2 f_equal. destruct m; unfold set_referenceCount; cbn. f_equal. lia.
    + by rewrite lookup_insert_eq.
    + cbn. lia.
Qed.

Lemma msg_free_last p ms m :
  65536 < p -> ms !! p = Some m -> referenceCount m = 1 ->
  exists p', msg_free p ms = (p', delete p ms) /\ 0 < p' <= 65536.
Proof.
  intros Hp Hm Hc. unfold msg_free.
  destruct (65536 <? p) eqn:Hlt; [|lia]. rewrite Hm, Hc. cbn.
  eexists. split; [done|].
  pose proof (Z.land_nonneg (index_number m) 65535) as [_ Hnn].
  specialize (Hnn ltac:(lia)).
  assert (Z.land (index_number m) 65535 <= 65535).
  { change 65535 with (Z.ones 16) at 1. rewrite Z.land_ones by lia.
    pose proof (Z.mod_pos_bound (index_number m) (2 ^ 16) ltac:(lia)).
    change (2 ^ 16) with 65536 in *. lia. }
  destruct (Z.land (index_number m) 65535 =? 0) eqn:Hz; [lia|].
  apply Z.eqb_neq in Hz. lia.
Qed.


Lemma msg_free_times_add a b p ms :
  msg_free_times (a + b) p ms
  = msg_free_times b (fst (msg_free_times a p ms)) (snd (msg_free_times a p ms)).
Proof.
  revert p ms. induction a as [|a IH]; intros p ms; [done|].
  cbn [Nat.add msg_free_times]. destruct (msg_free p ms) as [p' ms']. apply IH.
Qed.



(** X10.  A live message whose count is [c], retained [n] more times, is
    still there with count [c + n - k] after any [k < c + n] releases, and
    the release number [c + n] deallocates it. *)
Theorem reference_count_balance
    (p : Z) (ms : gmap Z rtsp_message) (m : rtsp_message) (n : nat) :
  65536 < p -> ms !! p = Some m ->
  0 < referenceCount m -> referenceCount m + Z.of_nat n < 2 ^ 32 ->
  (forall k : nat,
     Z.of_nat k < referenceCount m + Z.of_nat n ->
     msg_free_times k p (msg_retain_times n p ms)
     = (p, <[p := set_referenceCount (referenceCount m + Z.of_nat n - Z.of_nat k) m]> ms))
  /\ exists p',
       msg_free_times (Z.to_nat (referenceCount m) + n) p (msg_retain_times n p ms)
       = (p', delete p ms)
       /\ 0 < p' <= 65536.
Proof.
  intros Hp Hm Hc Hn.
  rewrite (msg_retain_times_live n p ms m Hp Hm) by lia.
  set (m' := set_referenceCount (referenceCount m + Z.of_nat n) m).
  assert (<[p:=m']> ms !! p = Some m') as Hm' by apply lookup_insert_eq.
  assert (referenceCount m' = referenceCount m + Z.of_nat n) as Hc' by done.
  assert (forall k : nat,
     Z.of_nat k < referenceCount m + Z.of_nat n ->
     msg_free_times k p (<[p:=m']> ms)
     = (p, <[p := set_referenceCount (referenceCount m + Z.of_nat n - Z.of_nat k) m]> ms))
    as Hlive.
  { intros k Hk. rewrite (msg_free_times_live k p _ m' Hp Hm') by lia.
    rewrite insert_insert_eq, Hc'. reflexivity. }
  split; [exact Hlive|].
  replace (Z.to_nat (referenceCount m) + n)%nat
    with ((Z.to_nat (referenceCount m) + n - 1) + 1)%nat by lia.
  rewrite msg_free_times_add, Hlive by lia. cbn [fst snd msg_free_times].
  set (m1 := set_referenceCount _ m).
  destruct (msg_free_last p (<[p:=m1]> ms) m1 Hp) as (p' & -> & Hp').
  { apply lookup_insert_eq. }
  { unfold m1. cbn. lia. }
  exists p'. by rewrite delete_insert_eq.
Qed.

Lemma reference_count_balance_witness :
  msg_free_times 2 Samples.carrier1 (msg_retain_times 3 Samples.carrier1
                                       (msgs Samples.heap1))
  = (Samples.carrier1,
     <[Samples.carrier1 :=
         set_referenceCount 2 (Samples.request "SET_PARAMETER" [] EmptyString)]>
       (msgs Samples.heap1)).
Proof.
  apply (reference_count_balance Samples.carrier1 (msgs Samples.heap1)
           (Samples.request "SET_PARAMETER" [] EmptyString) 3 ltac:(reflexivity)
           ltac:(vm_compute; reflexivity) ltac:(reflexivity) ltac:(reflexivity)).
  reflexivity.
Defined.

Lemma send_then_cleanup
    (q : pc_queue) (type code data : Z) (data_bytes : list ascii)
    (length carrier block lock_rc malloc_ret : Z) (h : heap) :
  well_formed q -> count q < capacity q -> lock_taken block lock_rc ->
  (forall m, carrier <> 0 -> msgs h !! carrier = Some m ->
             0 < referenceCount m < 2 ^ 32) ->
  (malloc_ret = 0 \/ bufs h !! malloc_ret = None) ->
  let pack := package_sent type code data length carrier malloc_ret in
  exists q' h',
    send_metadata_to_queue (Some q) type code data data_bytes length carrier
      block lock_rc malloc_ret h = (0, Some q', h')
    /\ well_formed q'
    /\ contents q' = contents q ++ [pack]
    /\ (carrier = 0 -> data <> 0 -> malloc_ret <> 0 ->
          bufs h' !! mp_data pack = Some (take (Z.to_nat length) data_bytes))
    /\ snd (metadata_pack_cleanup_function pack h') = h.
Proof.
  intros Hwf Hroom Hlock Hlive Hfresh pack.
  unfold send_metadata_to_queue.
  destruct (negb (carrier =? 0)) eqn:Hcar.
  - destruct (PcQueueFifoProps.add_item_fifo q pack block lock_rc Hwf Hlock Hroom)
      as (q' & Hadd & Hwf' & _ & Hc).
    unfold pack, package_sent in Hadd. rewrite Hcar in Hadd. rewrite Hadd.
    cbn [negb Z.eqb]. eexists _, _. split; [done|]. split; [done|].
    split; [done|]. split.
    { intros ->. done. }
    unfold metadata_pack_cleanup_function, pack, package_sent.
    cbn [mp_carrier mp_data]. rewrite Hcar.
    assert (carrier <> 0) as Hne by (by apply negb_true_iff, Z.eqb_neq in Hcar).
    pose proof (MetadataProps.msg_free_msg_retain carrier (msgs h)
                  (fun m => Hlive m Hne)) as Hpair.
    cbn [msgs bufs]. destruct (msg_free carrier _) as [p ms]. cbn [snd] in *.
    subst ms. by destruct h.
  - destruct (negb (data =? 0)) eqn:Hdata.
    + unfold memdup. destruct (malloc_ret =? 0) eqn:Hm.
      * apply Z.eqb_eq in Hm. subst malloc_ret.
        destruct (PcQueueFifoProps.add_item_fifo q pack block lock_rc Hwf Hlock Hroom)
          as (q' & Hadd & Hwf' & _ & Hc).
        unfold pack, package_sent in Hadd. rewrite Hcar, Hdata in Hadd.
        rewrite Hadd. cbn [negb Z.eqb].
        eexists _, _. split; [done|]. split; [done|]. split; [done|].
        split; [done|].
        unfold metadata_pack_cleanup_function, pack, package_sent.
        cbn [mp_carrier mp_data]. rewrite Hcar, Hdata. cbn. by destruct h.
      * destruct (PcQueueFifoProps.add_item_fifo q pack block lock_rc Hwf Hlock Hroom)
          as (q' & Hadd & Hwf' & _ & Hc).
        unfold pack, package_sent in Hadd. rewrite Hcar, Hdata in Hadd.
        rewrite Hadd. cbn [negb Z.eqb].
        eexists _, _. split; [done|]. split; [done|]. split; [done|].
        split.
        { intros _ _ _. unfold pack, package_sent. cbn [mp_data].
          rewrite Hcar, Hdata. cbn [bufs]. apply lookup_insert_eq. }
        unfold metadata_pack_cleanup_function, pack, package_sent.
        cbn [mp_carrier mp_data]. rewrite Hcar, Hdata, Hm. cbn [negb msgs bufs snd].
        unfold free. destruct Hfresh as [->|Hnone]; [done|].
        rewrite delete_insert_id by done. by destruct h.
    + destruct (PcQueueFifoProps.add_item_fifo q pack block lock_rc Hwf Hlock Hroom)
        as (q' & Hadd & Hwf' & _ & Hc).
      unfold pack, package_sent in Hadd. rewrite Hcar, Hdata in Hadd.
      rewrite Hadd. cbn [negb Z.eqb].
      eexists _, _. split; [done|]. split; [done|]. split; [done|].
      split.
      { intros _ Hd. apply negb_false_iff, Z.eqb_eq in Hdata. done. }
      unfold metadata_pack_cleanup_function, pack, package_sent.
      cbn [mp_carrier mp_data]. rewrite Hcar, Hdata. cbn. by rewrite ?Hdata.
Qed.

(** X11.  Through a queue and back: when [send_metadata_to_queue] puts an
    item on a queue that has room, the item waits behind the others, and
    the release the consumer makes once it has handled the item,
    [metadata_pack_cleanup_function], undoes exactly what the producer did
    for it: the carrier's count is back at its value, or the copy of the
    data is freed.  Until then the copy holds the first [length] bytes of
    the data. *)
Theorem metadata_through_queue
    (q : pc_queue) (type code data : Z) (data_bytes : list ascii)
    (length carrier block lock_rc malloc_ret : Z) (h : heap) :
  well_formed q -> count q < capacity q -> lock_taken block lock_rc ->
  (forall m, carrier <> 0 -> msgs h !! carrier = Some m ->
             0 < referenceCount m < 2 ^ 32) ->
  (malloc_ret = 0 \/ bufs h !! malloc_ret = None) ->
  let pack := package_sent type code data length carrier malloc_ret in
  exists q' h',
    send_metadata_to_queue (Some q) type code data data_bytes length carrier
      block lock_rc malloc_ret h = (0, Some q', h')
    /\ well_formed q'
    /\ contents q' = contents q ++ [pack]
    /\ (carrier = 0 -> data <> 0 -> malloc_ret <> 0 ->
          bufs h' !! mp_data pack = Some (take (Z.to_nat length) data_bytes))
    /\ snd (metadata_pack_cleanup_function pack h') = h.
Proof. apply send_then_cleanup. Qed.

Lemma metadata_through_queue_witness :
  exists q' h',
    send_metadata_to_queue (Some Samples.queue_empty) 1 2 4096
      MoreSamples.bytes80 80 0 1 0 8192 Samples.heap1 = (0, Some q', h')
    /\ well_formed q'
    /\ contents q' = contents Samples.queue_empty ++ [package_sent 1 2 4096 80 0 8192]
    /\ (0 = 0 -> 4096 <> 0 -> 8192 <> 0 ->
          bufs h' !! mp_data (package_sent 1 2 4096 80 0 8192)
          = Some (take (Z.to_nat 80) MoreSamples.bytes80))
    /\ snd (metadata_pack_cleanup_function (package_sent 1 2 4096 80 0 8192) h')
       = Samples.heap1.
Proof.
  apply (metadata_through_queue Samples.queue_empty 1 2 4096 MoreSamples.bytes80
           80 0 1 0 8192 Samples.heap1).
  - vm_compute. repeat split; discriminate.
  - reflexivity.
  - intros H. discriminate H.
  - intros m Hne. done.
  - right. reflexivity.
Defined.

(** X12.  From the producer to the pipe: an item with data and no carrier,
    sent to the empty pipe queue, is what the next turn of the pipe thread
    takes; with the pipe open and its writes succeeding, the thread writes
    the item with the base64 text of the first [length] bytes of the data
    as they were when the item was sent, frees the copy, and leaves the
    queue empty and the heap as it was before the item was sent. *)
Theorem metadata_reaches_pipe
    (cfg : configuration) (E : pipe_env) (mem : Z -> list ascii) (q : pc_queue)
    (type code data : Z) (data_bytes : list ascii)
    (length block lock_rc malloc_ret : Z) (h : heap) (st : pipe_state) :
  well_formed q -> count q = 0 -> lock_taken block lock_rc ->
  metadata_enabled cfg <> 0 ->
  data <> 0 -> malloc_ret <> 0 -> bufs h !! malloc_ret = None ->
  0 < length <= Z.of_nat (List.length data_bytes) ->
  Z.of_nat (List.length data_bytes) < 2 ^ 62 ->
  0 <= fd st -> all_written E ->
  exists q1 h1 q2 st' b64,
    send_metadata_to_queue (Some q) type code data data_bytes length 0
      block lock_rc malloc_ret h = (0, Some q1, h1)
    /\ metadata_thread_turn cfg E mem q1 h1 st = Some (q2, h, st')
    /\ contents q2 = []
    /\ base64_encode_so (take (Z.to_nat length) data_bytes) (4 * ((length + 2) / 3))
       = (Some b64, 4 * ((length + 2) / 3))
    /\ exists out,
         writes st' = writes st ++ out
         /\ concat out
            = text (item_open type code length) ++ text data_open ++ b64
              ++ text "</data>" ++ text "</item>" ++ [CStr.LF].
Proof.
  intros Hwf Hempty Hlock Hen Hdata Hmalloc Hfresh Hlen Hbig Hfd Hw.
  destruct Hwf as (Hcap & Hwf). pose proof (conj Hcap Hwf) as Hwf0.
  destruct (send_then_cleanup q type code data data_bytes length 0 block lock_rc
              malloc_ret h Hwf0 ltac:(lia) Hlock)
    as (q1 & h1 & Hsend & Hwf1 & Hc1 & Hbuf & Hclean).
  { intros m Hm. done. }
  { by right. }
  assert (contents q = []) as Hnil by (unfold contents; by rewrite Hempty).
  rewrite Hnil in Hc1. cbn [app] in Hc1.
  specialize (Hbuf eq_refl Hdata Hmalloc).
  set (pack := package_sent type code data length 0 malloc_ret) in *.
  assert (0 < count q1) as Hpos.
  { rewrite <- (PcQueueFifoProps.contents_length q1 Hwf1), Hc1. cbn. lia. }
  destruct (PcQueueFifoProps.get_item_fifo q1 Hwf1 Hpos)
    as (x & q2 & Hget & Hwf2 & _ & Hc2).
  rewrite Hc1 in Hc2. injection Hc2 as <- Hq2.
  assert (mp_data pack = malloc_ret /\ mp_length pack = length
          /\ mp_type pack = type /\ mp_code pack = code) as (Hd & Hl & Ht & Hcd).
  { unfold pack, package_sent. cbn.
    apply Z.eqb_neq in Hdata. rewrite Hdata. done. }
  destruct (PipeProps.metadata_process_writes cfg E type code malloc_ret
              (take (Z.to_nat length) data_bytes) length st Hfd Hw)
    as (st' & b64 & Hrun & _ & Hb64 & out & Hout & Hcat).
  { rewrite length_take. lia. }
  { rewrite length_take. lia. }
  rewrite take_take, Nat.min_id in Hb64.
  exists q1, h1, q2, st', b64. split; [done|]. split.
  - unfold metadata_thread_turn. rewrite Hget.
    apply Z.eqb_neq in Hen. rewrite Hen. cbn [negb].
    unfold bytes_at. rewrite Hbuf, Hd, Hl, Ht, Hcd, Hrun, Hclean. done.
  - split; [done|]. split; [done|]. exists out. split; [done|].
    rewrite Hcat. apply Z.eqb_neq in Hmalloc. rewrite Hmalloc.
    assert ((0 <? length) = true) as -> by (apply Z.ltb_lt; lia).
    cbn [negb andb]. by rewrite <- !app_assoc.
Qed.

Lemma metadata_reaches_pipe_witness :
  exists q1 h1 q2 st' b64,
    send_metadata_to_queue (Some Samples.queue_empty) 1 2 4096 MoreSamples.bytes80
      80 0 1 0 8192 Samples.heap1 = (0, Some q1, h1)
    /\ metadata_thread_turn Samples.cfg0 MoreSamples.pipe_env0 (fun _ => []) q1 h1
         MoreSamples.pipe_open = Some (q2, Samples.heap1, st')
    /\ contents q2 = []
    /\ base64_encode_so (take (Z.to_nat 80) MoreSamples.bytes80) (4 * ((80 + 2) / 3))
       = (Some b64, 4 * ((80 + 2) / 3))
    /\ exists out,
         writes st' = writes MoreSamples.pipe_open ++ out
         /\ concat out
            = text (item_open 1 2 80) ++ text data_open ++ b64
              ++ text "</data>" ++ text "</item>" ++ [CStr.LF].
Proof.
  apply (metadata_reaches_pipe Samples.cfg0 MoreSamples.pipe_env0 (fun _ => [])
           Samples.queue_empty 1 2 4096 MoreSamples.bytes80 80 1 0 8192
           Samples.heap1 MoreSamples.pipe_open).
  - vm_compute. repeat split; discriminate.
  - reflexivity.
  - intros H. discriminate H.
  - vm_compute. discriminate.
  - discriminate.
  - discriminate.
  - reflexivity.
  - vm_compute. split; [reflexivity|discriminate].
  - vm_compute. reflexivity.
  - vm_compute. discriminate.
  - intros k. vm_compute. discriminate.
Defined.

End RefCountProps.
(* ================================================================== *)
(** * [send_metadata] and its sinks *)
(* ================================================================== *)

Module FanOutProps.
Import PcQueue Metadata PcQueueFifo RefCount FanOut.

Lemma send_with_carrier
    (q : pc_queue) (type code data : Z) (data_bytes : list ascii)
    (length carrier block lock_rc malloc_ret : Z) (h : heap) :
  carrier <> 0 -> well_formed q -> count q < capacity q ->
  lock_taken block lock_rc ->
  exists q',
    send_metadata_to_queue (Some q) type code data data_bytes length carrier
      block lock_rc malloc_ret h
    = (0, Some q', {| msgs := msg_retain carrier (msgs h); bufs := bufs h |})
    /\ contents q'
       = contents q ++ [{| mp_type := type; mp_code := code; mp_data := data;
                           mp_length := length; mp_carrier := carrier |}].
Proof.
  intros Hcar Hwf Hroom Hlock. unfold send_metadata_to_queue.
  apply Z.eqb_neq in Hcar. rewrite Hcar. cbn [negb].
  destruct (PcQueueFifoProps.add_item_fifo q
              {| mp_type := type; mp_code := code; mp_data := data;
                 mp_length := length; mp_carrier := carrier |}
              block lock_rc Hwf Hlock Hroom) as (q' & -> & _ & _ & Hc).
  exists q'. done.
Qed.

(** X24.  One call of [send_metadata] with a carrier serves every sink
    that is switched on, and only those.  When each of their queues has
    room, each gets the same package behind the items it holds, the
    carrier gains one reference per sink, and the call returns 0; the
    queues of the other sinks stay as they are.  With no sink switched on
    nothing changes and the value returned is the one the uninitialised
    [rc] happens to hold. *)
Theorem send_metadata_serves_each_sink
    (cfg : configuration) (env : sink -> sink_env) (rc_uninit : Z)
    (type code data : Z) (data_bytes : list ascii) (length carrier block : Z)
    (st : md_state) :
  carrier <> 0 ->
  (forall s, s ∈ sinks cfg ->
     well_formed (queue_of s st) /\ count (queue_of s st) < capacity (queue_of s st)
     /\ lock_taken block (lock_rc (env s))) ->
  let pack := {| mp_type := type; mp_code := code; mp_data := data;
                 mp_length := length; mp_carrier := carrier |} in
  exists st',
    send_metadata cfg env rc_uninit type code data data_bytes length carrier
      block st
    = (match sinks cfg with [] => rc_uninit | _ => 0 end, st')
    /\ (forall s, s ∈ sinks cfg ->
          contents (queue_of s st') = contents (queue_of s st) ++ [pack])
    /\ (forall s, s ∉ sinks cfg -> queue_of s st' = queue_of s st)
    /\ msgs (md_heap st')
       = msg_retain_times (List.length (sinks cfg)) carrier (msgs (md_heap st))
    /\ bufs (md_heap st') = bufs (md_heap st).
Proof.
  intros Hcar Hok pack. unfold send_metadata, sinks in *.
  destruct (negb (metadata_enabled cfg =? 0)) eqn:Hmd;
    destruct (CONFIG_METADATA_HUB cfg) eqn:Hhub;
    destruct (CONFIG_MQTT cfg) eqn:Hmqtt; cbn [app] in *;
  repeat match goal with
       | |- context [send_metadata_to_queue (Some ?q) _ _ _ _ _ _ _
                       (lock_rc (env ?s)) ?m ?h] =>
           let q' := fresh "q" in let Hs := fresh "Hs" in let Hc := fresh "Hc" in
           destruct (Hok s ltac:(apply list_elem_of_In; cbn; tauto))
             as (Hwf & Hroom & Hlock);
           destruct (send_with_carrier q type code data data_bytes length carrier
                       block (lock_rc (env s)) m h Hcar Hwf Hroom Hlock)
             as (q' & Hs & Hc);
           cbn [queue_of metadata_queue metadata_multicast_queue
                  metadata_hub_queue metadata_mqtt_queue md_heap] in Hs |- *;
           rewrite Hs; clear Hs Hwf Hroom Hlock;
           cbn [or_queue metadata_queue metadata_multicast_queue
                  metadata_hub_queue metadata_mqtt_queue md_heap msgs bufs]
       end;
  (eexists; split; [reflexivity|]);
  (split; [intros s Hin; apply list_elem_of_In in Hin; cbn in Hin;
               destruct s; cbn [queue_of metadata_queue metadata_multicast_queue
                                  metadata_hub_queue metadata_mqtt_queue];
               first [assumption | exfalso; intuition discriminate]|]);
  (split; [intros s Hin; destruct s;
               cbn [queue_of metadata_queue metadata_multicast_queue
                      metadata_hub_queue metadata_mqtt_queue];
               first [reflexivity
                     | exfalso; apply Hin, list_elem_of_In; cbn; tauto]|]);
  split; reflexivity.
Qed.

Lemma send_metadata_serves_each_sink_witness :
  exists st',
    send_metadata Samples.cfg0 (fun _ => {| lock_rc := 0; malloc_ret := 0 |}) 0
      1 2 4096 MoreSamples.bytes80 80 Samples.carrier1 1 MoreSamples.md_carrier
    = (match sinks Samples.cfg0 with [] => 0 | _ => 0 end, st')
    /\ (forall s, s ∈ sinks Samples.cfg0 ->
          contents (queue_of s st')
          = contents (queue_of s MoreSamples.md_carrier)
            ++ [{| mp_type := 1; mp_code := 2; mp_data := 4096; mp_length := 80;
                   mp_carrier := Samples.carrier1 |}])
    /\ (forall s, s ∉ sinks Samples.cfg0 ->
          queue_of s st' = queue_of s MoreSamples.md_carrier)
    /\ msgs (md_heap st')
       = msg_retain_times (List.length (sinks Samples.cfg0)) Samples.carrier1
           (msgs (md_heap MoreSamples.md_carrier))
    /\ bufs (md_heap st') = bufs (md_heap MoreSamples.md_carrier).
Proof.
  apply (send_metadata_serves_each_sink Samples.cfg0
           (fun _ => {| lock_rc := 0; malloc_ret := 0 |}) 0 1 2 4096
           MoreSamples.bytes80 80 Samples.carrier1 1 MoreSamples.md_carrier).
  - discriminate.
  - intros s _. split; [|split].
    + destruct s; vm_compute; repeat split; discriminate.
    + destruct s; vm_compute; reflexivity.
    + intros H. discriminate H.
Defined.

End FanOutProps.
(* ================================================================== *)
(** * Properties of the message codec *)
(* ================================================================== *)

Module CodecProps.
Import CStr Codec Reader Conversation CodecNotions.

Lemma append_cons x (a b : string) : String x a +:+ b = String x (a +:+ b).
Proof. reflexivity. Qed.

Lemma append_assoc (a b c : string) : (a +:+ b) +:+ c = a +:+ b +:+ c.
Proof. induction a as [|x a IH]; [done|]. by rewrite !append_cons, IH. Qed.

Lemma append_nil_r (a : string) : a +:+ EmptyString = a.
Proof. induction a as [|x a IH]; [done|]. by rewrite append_cons, IH. Qed.

Lemma length_append (a b : string) :
  String.length (a +:+ b) = (String.length a + String.length b)%nat.
Proof.
  induction a as [|x a IH]; [done|]. rewrite append_cons. cbn [String.length].
  by rewrite IH.
Qed.




Lemma cstr_idemp s : cstr (cstr s) = cstr s.
Proof.
  induction s as [|c s IH]; [done|]. cbn.
  destruct (Ascii.eqb c NUL) eqn:Hc; [done|]. cbn. by rewrite Hc, IH.
Qed.

Lemma strcaseeq_cstr_l a b : strcaseeq (cstr a) b = strcaseeq a b.
Proof. unfold strcaseeq. by rewrite cstr_idemp. Qed.

Lemma get_header_app hs1 hs2 name :
  get_header (hs1 ++ hs2) name
  = match get_header hs1 name with
    | Some v => Some v
    | None => get_header hs2 name
    end.
Proof.
  induction hs1 as [|[n v] hs1 IH]; [done|]. cbn.
  by destruct (strcaseeq n name).
Qed.

(** X14.  Adding a header and looking one up: with fewer than sixteen
    headers [msg_add_header] returns 0 and stores a copy at the end, so a
    later [msg_get_header] finds what it found before, and finds the new
    value only for a name that matched no header before and matches the
    new name without regard to case.  With sixteen headers it returns 1
    and the message is as it was. *)
Theorem msg_get_header_after_add
    (msg : rtsp_message) (name value name' : string) :
  (nheaders msg < 16 ->
     fst (msg_add_header msg name value) = 0
     /\ nheaders (snd (msg_add_header msg name value)) = nheaders msg + 1
     /\ msg_get_header (snd (msg_add_header msg name value)) name'
        = match msg_get_header msg name' with
          | Some v => Some v
          | None => if strcaseeq name name' then Some (cstr value) else None
          end)
  /\ (16 <= nheaders msg -> msg_add_header msg name value = (1, msg)).
Proof.
  unfold msg_add_header. split; intros Hn.
  - destruct (16 <=? nheaders msg) eqn:Hle; [lia|]. cbn [fst snd].
    split; [done|]. split.
    + unfold nheaders. cbn. rewrite length_app. cbn. lia.
    + unfold msg_get_header. cbn [headers set_headers].
      rewrite get_header_app. cbn. by rewrite strcaseeq_cstr_l.
  - destruct (16 <=? nheaders msg) eqn:Hle; [done|lia].
Qed.

Lemma slen_nonneg s : 0 <= slen s.
Proof. unfold slen. lia. Qed.





(** ** Reading a request *)

Local Ltac len :=
  rewrite ?length_append; change (String.length CRLF) with 2%nat;
  cbn [String.length length] in *; lia.

Local Ltac mem :=
  first
    [ by (apply list_elem_of_In; cbn; tauto)
    | by (let c := fresh in let H := fresh in
          intros c H; apply list_elem_of_In in H; apply list_elem_of_In;
          cbn in *; tauto)
    | by (let H := fresh in
          intros H; apply list_elem_of_In in H; cbn in H; intuition discriminate) ].

Lemma free_of_mono bad bad' s :
  (forall c, c ∈ bad' -> c ∈ bad) -> free_of bad s -> free_of bad' s.
Proof.
  intros Hsub. induction s as [|c s IH]; [done|]. cbn. intros [Hc Hs].
  split; [|by apply IH]. intros Hin. by apply Hc, Hsub.
Qed.

Lemma free_of_app bad a b : free_of bad a -> free_of bad b -> free_of bad (a +:+ b).
Proof.
  intros Ha Hb. induction a as [|c a IH]; [done|]. rewrite append_cons.
  destruct Ha as [Hc Ha]. split; [done|]. by apply IH.
Qed.

Lemma free_of_no_line_end s : free_of [CR; LF] s -> no_line_end s.
Proof.
  induction s as [|c s IH]; [done|]. cbn. intros [Hc Hs].
  split; [intros ->; apply Hc; mem|].
  split; [intros ->; apply Hc; mem|]. by apply IH.
Qed.

Lemma cstr_clean s t : free_of [NUL] s -> cstr (s +:+ String NUL t) = s.
Proof.
  induction s as [|c s IH]; [done|]. intros [Hc Hs]. rewrite append_cons.
  cbn [cstr]. destruct (Ascii.eqb c NUL) eqn:E.
  - apply Ascii.eqb_eq in E. subst c. exfalso. apply Hc. mem.
  - by rewrite IH.
Qed.

Lemma cstr_clean_whole s : free_of [NUL] s -> cstr s = s.
Proof.
  induction s as [|c s IH]; [done|]. intros [Hc Hs].
  cbn [cstr]. destruct (Ascii.eqb c NUL) eqn:E.
  - apply Ascii.eqb_eq in E. subst c. exfalso. apply Hc. mem.
  - by rewrite IH.
Qed.

Lemma nextline_crlf body rest inbuf :
  no_line_end body -> (String.length body + 2 <= inbuf)%nat ->
  nextline (body +:+ CRLF +:+ rest) inbuf = Some (body +:+ nuls 2, rest).
Proof.
  revert inbuf. induction body as [|c body IH]; intros inbuf Hb Hn.
  - destruct inbuf as [|[|n]]; [cbn in Hn; lia|cbn in Hn; lia|]. done.
  - destruct Hb as (Hcr & Hlf & Hb). destruct inbuf as [|n]; [cbn in Hn; lia|].
    rewrite !append_cons. cbn [nextline].
    apply Ascii.eqb_neq in Hcr, Hlf. rewrite Hcr, Hlf.
    rewrite IH; [done|done|]. cbn in Hn. lia.
Qed.

Lemma nextline_cr_at_end body inbuf :
  no_line_end body -> (String.length body + 1 <= inbuf)%nat ->
  nextline (body +:+ String CR EmptyString) inbuf
  = Some (body +:+ nuls 1, EmptyString).
Proof.
  revert inbuf. induction body as [|c body IH]; intros inbuf Hb Hn.
  - destruct inbuf as [|n]; [cbn in Hn; lia|]. done.
  - destruct Hb as (Hcr & Hlf & Hb). destruct inbuf as [|n]; [cbn in Hn; lia|].
    rewrite !append_cons. cbn [nextline].
    apply Ascii.eqb_neq in Hcr, Hlf. rewrite Hcr, Hlf.
    rewrite IH; [done|done|]. cbn in Hn. lia.
Qed.

Lemma strsep_fields_word w t :
  free_of [SP] w ->
  strsep_fields [SP] (w +:+ String SP t) = w :: strsep_fields [SP] t.
Proof.
  induction w as [|c w IH]; intros Hw.
  - change (EmptyString +:+ String SP t) with (String SP t). cbn [strsep_fields].
    rewrite bool_decide_eq_true_2 by mem. done.
  - destruct Hw as [Hc Hw]. rewrite append_cons. cbn [strsep_fields].
    rewrite bool_decide_eq_false_2 by done. by rewrite IH.
Qed.

Lemma request_line_tokens m u t :
  word m -> word u ->
  strtok_tokens (m +:+ " " +:+ u +:+ " RTSP/1.0" +:+ String NUL t)
  = [m; u; "RTSP/1.0"%string].
Proof.
  intros [Hm Hmf] [Hu Huf]. unfold strtok_tokens.
  assert (cstr (m +:+ " " +:+ u +:+ " RTSP/1.0" +:+ String NUL t)
          = m +:+ " " +:+ u +:+ " RTSP/1.0") as ->.
  { rewrite <- (cstr_clean (m +:+ " " +:+ u +:+ " RTSP/1.0") t).
    - by rewrite !append_assoc.
    - apply free_of_app; [eapply free_of_mono; [|exact Hmf]; mem|].
      change (" " +:+ u +:+ " RTSP/1.0") with (String SP (u +:+ " RTSP/1.0")).
      split; [mem|].
      apply free_of_app; [eapply free_of_mono; [|exact Huf]; mem|].
      cbn. repeat split; mem. }
  change (m +:+ " " +:+ u +:+ " RTSP/1.0")
    with (m +:+ String SP (u +:+ String SP "RTSP/1.0")).
  rewrite strsep_fields_word by (eapply free_of_mono; [|exact Hmf]; mem).
  rewrite strsep_fields_word by (eapply free_of_mono; [|exact Huf]; mem).
  assert (strsep_fields [SP] "RTSP/1.0" = ["RTSP/1.0"%string]) as ->
    by (vm_compute; reflexivity).
  rewrite !filter_cons, filter_nil.
  rewrite !decide_True by done. done.
Qed.

Lemma index_header n v :
  free_of [":"%char] n ->
  String.index 0 ": " (n +:+ ": " +:+ v) = Some (String.length n).
Proof.
  induction n as [|c n IH]; intros Hn.
  - change (EmptyString +:+ ": " +:+ v) with (String ":" (String " " v)).
    cbn [String.index String.length].
    assert (String.prefix ": " (String ":" (String " " v)) = true) as ->; [|done].
    apply String.prefix_correct. cbn. by destruct v.
  - destruct Hn as [Hc Hn]. rewrite append_cons.
    cbn [String.index String.length].
    assert (String.prefix ": " (String c (n +:+ ": " +:+ v)) = false) as ->.
    { cbn [String.prefix].
      destruct (ascii_dec ":" c) as [<-|_]; [exfalso; apply Hc; mem|done]. }
    by rewrite IH.
Qed.

Lemma stake_append a b : stake (String.length a) (a +:+ b) = a.
Proof. induction a as [|c a IH]; [by destruct b|]. rewrite append_cons. cbn. by rewrite IH. Qed.

Lemma sdrop_append a b : sdrop (String.length a) (a +:+ b) = b.
Proof. induction a as [|c a IH]; [done|]. rewrite append_cons. cbn. by rewrite IH. Qed.

(** A header line adds its header to the message. *)
Lemma msg_handle_line_header idx msg n v t :
  plain_header (n, v) -> nheaders msg < 16 ->
  msg_handle_line idx (Some msg) (n +:+ ": " +:+ v +:+ String NUL t)
  = (-1, Some (set_headers (headers msg ++ [(n, v)]) msg), idx).
Proof.
  intros [Hn Hv] Hroom. cbn [fst snd] in Hn, Hv. unfold msg_handle_line.
  assert (free_of [NUL] (n +:+ ": " +:+ v)) as Hclean.
  { apply free_of_app; [eapply free_of_mono; [|exact Hn]; mem|].
    change (": " +:+ v) with (String ":" (String " " v)).
    split; [mem|]. split; [mem|].
    eapply free_of_mono; [|exact Hv]. mem. }
  assert (cstr (n +:+ ": " +:+ v +:+ String NUL t) = n +:+ ": " +:+ v) as Hc.
  { rewrite <- (cstr_clean (n +:+ ": " +:+ v) t Hclean). by rewrite !append_assoc. }
  unfold strlen, strstr. rewrite Hc.
  assert (String.length (n +:+ ": " +:+ v) <> 0%nat) as Hne.
  { rewrite !length_append. cbn [String.length]. lia. }
  destruct (Z.of_nat (String.length (n +:+ ": " +:+ v)) =? 0) eqn:Hz; [lia|].
  cbn [negb].
  rewrite index_header by (eapply free_of_mono; [|exact Hn]; mem).
  rewrite stake_append.
  replace (String.length n + 2)%nat with (String.length (n +:+ ": ")).
  2:{ rewrite length_append. done. }
  rewrite <- append_assoc, sdrop_append.
  unfold msg_add_header. destruct (16 <=? nheaders msg) eqn:Hle; [lia|].
  cbn [snd].
  rewrite (cstr_clean_whole n) by (eapply free_of_mono; [|exact Hn]; mem).
  rewrite (cstr_clean_whole v) by (eapply free_of_mono; [|exact Hv]; mem).
  done.
Qed.

Lemma header_lines_length hs :
  (length hs <= String.length (header_lines hs))%nat.
Proof.
  induction hs as [|h hs IH]; [done|]. cbn [header_lines length].
  unfold header_line. rewrite !length_append. cbn. lia.
Qed.

Lemma header_line_end h : plain_header h -> no_line_end (fst h +:+ ": " +:+ snd h).
Proof.
  intros [Hn Hv]. apply free_of_no_line_end, free_of_app.
  - eapply free_of_mono; [|exact Hn]. mem.
  - change (": " +:+ snd h) with (String ":" (String " " (snd h))).
    split; [mem|]. split; [mem|].
    eapply free_of_mono; [|exact Hv]. mem.
Qed.

(** The lines of the headers and the empty line after them. *)
Lemma handle_lines_headers hs :
  forall fuel idx msg body,
    Forall plain_header hs ->
    nheaders msg + Z.of_nat (length hs) <= 16 ->
    0 <= declared_length (headers msg ++ hs) ->
    (length hs < fuel)%nat ->
    handle_lines fuel idx (header_lines hs +:+ CRLF +:+ body) (Some msg) (-1)
    = (false, body, Some (set_headers (headers msg ++ hs) msg),
       declared_length (headers msg ++ hs), idx).
Proof.
  induction hs as [|[n v] hs IH]; intros fuel idx msg body Hall Hroom Hdecl Hfuel.
  - destruct fuel as [|fuel]; [cbn in Hfuel; lia|].
    cbn [header_lines handle_lines]. change (-1 <? 0) with true. cbv iota.
    change (EmptyString +:+ CRLF +:+ body) with (EmptyString +:+ CRLF +:+ body).
    rewrite (nextline_crlf EmptyString body);
      [|done|len].
    change (EmptyString +:+ nuls 2) with (nuls 2).
    unfold msg_handle_line. change (strlen (nuls 2)) with 0. cbn [Z.eqb negb].
    rewrite app_nil_r in *. unfold declared_length in *. unfold msg_get_header.
    assert (set_headers (headers msg) msg = msg) as -> by (by destruct msg).
    destruct (get_header (headers msg) "Content-Length") as [cl|].
    + destruct fuel; cbn [handle_lines]; [done|].
      destruct (atoi cl <? 0) eqn:Hneg; [lia|done].
    + by destruct fuel.
  - destruct fuel as [|fuel]; [cbn in Hfuel; lia|].
    inversion Hall as [|? ? Hh Hall']; subst.
    cbn [header_lines handle_lines]. change (-1 <? 0) with true. cbv iota.
    assert ((header_line (n, v) +:+ header_lines hs) +:+ CRLF +:+ body
            = (n +:+ ": " +:+ v) +:+ CRLF +:+ (header_lines hs +:+ CRLF +:+ body))
      as -> by (unfold header_line; cbn [fst snd]; by rewrite !append_assoc).
    rewrite nextline_crlf; [|apply (header_line_end (n, v) Hh)|len].
    assert ((n +:+ ": " +:+ v) +:+ nuls 2
            = n +:+ ": " +:+ v +:+ String NUL (String NUL EmptyString))
      as -> by (by rewrite !append_assoc).
    rewrite msg_handle_line_header by (try done; cbn [length] in Hroom; lia).
    set (msg' := set_headers (headers msg ++ [(n, v)]) msg).
    assert (headers msg' ++ hs = headers msg ++ (n, v) :: hs) as Hhs
      by (unfold msg'; cbn [headers set_headers]; by rewrite <- app_assoc).
    assert (nheaders msg' + Z.of_nat (length hs) <= 16) as Hroom'.
    { unfold nheaders, msg' in *. cbn [headers set_headers length] in *.
      rewrite length_app. cbn [length] in *. lia. }
    assert (0 <= declared_length (headers msg' ++ hs)) as Hdecl'
      by (by rewrite Hhs).
    rewrite (IH fuel idx msg' body Hall' Hroom' Hdecl'
               ltac:(cbn [length] in Hfuel; lia)).
    rewrite Hhs. unfold msg'. by destruct msg.
Qed.

Lemma word_no_line_end m u :
  word m -> word u -> no_line_end (m +:+ " " +:+ u +:+ " RTSP/1.0").
Proof.
  intros [_ Hm] [_ Hu]. apply free_of_no_line_end, free_of_app.
  - eapply free_of_mono; [|exact Hm]. mem.
  - change (" " +:+ u +:+ " RTSP/1.0") with (String SP (u +:+ " RTSP/1.0")).
    split; [mem|]. apply free_of_app.
    + eapply free_of_mono; [|exact Hu]. mem.
    + cbn. repeat split; mem.
Qed.

Lemma msg_handle_line_request idx m u t :
  word m -> word u ->
  msg_handle_line idx None (m +:+ " " +:+ u +:+ " RTSP/1.0" +:+ String NUL t)
  = (-1, Some (set_method (stake 15 m) (fst (msg_init idx))), to_int (idx + 1)).
Proof.
  intros Hm Hu. unfold msg_handle_line. cbn [msg_init].
  by rewrite request_line_tokens.
Qed.

Lemma handle_lines_request fuel idx m u hs body :
  word m -> word u -> Forall plain_header hs ->
  Z.of_nat (length hs) <= 16 -> 0 <= declared_length hs ->
  (S (length hs) < fuel)%nat ->
  handle_lines fuel idx (request_text m u hs body) None (-1)
  = (false, body,
     Some {| index_number := idx; referenceCount := 1; headers := hs;
             contentlength := 0; content := None; method := stake 15 m;
             respcode := 0 |},
     declared_length hs, to_int (idx + 1)).
Proof.
  intros Hm Hu Hall Hn Hdecl Hfuel.
  destruct fuel as [|fuel]; [lia|].
  cbn [handle_lines]. change (-1 <? 0) with true. cbv iota.
  assert (request_text m u hs body
          = (m +:+ " " +:+ u +:+ " RTSP/1.0") +:+ CRLF
            +:+ (header_lines hs +:+ CRLF +:+ body)) as ->
    by (unfold request_text; by rewrite !append_assoc).
  rewrite nextline_crlf; [|by apply word_no_line_end|len].
  assert ((m +:+ " " +:+ u +:+ " RTSP/1.0") +:+ nuls 2
          = m +:+ " " +:+ u +:+ " RTSP/1.0" +:+ String NUL (String NUL EmptyString))
    as -> by (by rewrite !append_assoc).
  rewrite msg_handle_line_request by done.
  set (msg := set_method (stake 15 m) (fst (msg_init idx))).
  rewrite (handle_lines_headers hs fuel (to_int (idx + 1)) msg body Hall);
    [done| |done|lia].
  unfold nheaders, msg. cbn. lia.
Qed.

Lemma do_read_whole count bytes socket :
  (String.length bytes <= Z.to_nat count)%nat ->
  do_read count (Arrives bytes :: socket)
  = Some (Z.of_nat (String.length bytes), bytes, 0, socket).
Proof.
  intros Hn. unfold do_read.
  destruct (Z.to_nat count <? String.length bytes)%nat eqn:Hlt; [|done].
  apply Nat.ltb_lt in Hlt. lia.
Qed.

(** X16.  A request that arrives whole in one read of at most 4096 bytes
    (request line of two words and [RTSP/1.0], at most sixteen headers
    without colon in the name, an empty line, and a body at least as long
    as the [Content-Length] announces) is read as it was sent:
    [rtsp_read_request] returns [ok] with the method (its first fifteen
    characters), the headers in order, and as content everything that
    came after the empty line. *)
Theorem rtsp_read_request_parses
    (fuel : nat) (env : nat -> turn_env) (socket : list read_outcome)
    (msg_indexes : Z) (realloc_ok : bool) (now : Z)
    (m u : string) (hs : list (string * string)) (body : string) :
  word m -> word u -> Forall plain_header hs ->
  Z.of_nat (length hs) <= 16 ->
  0 <= declared_length hs <= Z.of_nat (String.length body) ->
  (String.length (request_text m u hs body) <= 4096)%nat ->
  stop_seen (env O) = 0 ->
  fuel <> O ->
  rtsp_read_request fuel env (Arrives (request_text m u hs body) :: socket)
    msg_indexes true realloc_ok now
  = Some {| reply := rtsp_read_request_response_ok;
            packet :=
              Some {| index_number := msg_indexes; referenceCount := 1;
                      headers := hs;
                      contentlength := Z.of_nat (String.length body);
                      content := Some body; method := stake 15 m;
                      respcode := 0 |};
            rr_socket := socket; rr_turn := 1;
            rr_msg_indexes := to_int (msg_indexes + 1);
            stal_sent := false |}.
Proof.
  intros Hm Hu Hall Hn Hdecl Hlen Hstop Hfuel.
  destruct fuel as [|fuel]; [done|].
  unfold rtsp_read_request. cbn [negb read_headers].
  change (-1 <? 0) with true. cbv iota. rewrite Hstop. cbn [Z.eqb negb].
  rewrite do_read_whole by (cbn; lia).
  assert (0 < String.length (request_text m u hs body))%nat as Hpos.
  { unfold request_text. destruct Hm as [Hm _]. destruct m; [done|].
    rewrite append_cons. cbn [String.length]. lia. }
  destruct (Z.of_nat (String.length (request_text m u hs body)) =? 0) eqn:Hz;
    [lia|].
  destruct (Z.of_nat (String.length (request_text m u hs body)) <? 0) eqn:Hneg;
    [lia|].
  change (EmptyString +:+ request_text m u hs body) with (request_text m u hs body).
  rewrite (handle_lines_request _ msg_indexes m u hs body Hm Hu Hall Hn
             (proj1 Hdecl)).
  2:{ pose proof (header_lines_length hs). unfold request_text.
      destruct Hm as [Hm _]. destruct m; [done|]. len. }
  destruct (declared_length hs <? 0) eqn:Hd; [lia|].
  destruct (4096 <? declared_length hs) eqn:Hd2.
  { apply Z.ltb_lt in Hd2. pose proof (length_append (m +:+ " ") u).
    assert (String.length body <= String.length (request_text m u hs body))%nat.
    { unfold request_text. len. }
    lia. }
  cbn [andb].
  destruct fuel; cbn [read_headers read_body];
    (destruct (declared_length hs <? 0) eqn:Hd3; [lia|]);
    rewrite Hd2; cbn [andb].
  - destruct (Z.of_nat (String.length body) <? declared_length hs) eqn:Hb; [lia|].
    done.
  - destruct (Z.of_nat (String.length body) <? declared_length hs) eqn:Hb; [lia|].
    done.
Qed.

Lemma rtsp_read_request_parses_witness :
  rtsp_read_request 1 MoreSamples.calm
    [Arrives (request_text "OPTIONS" "*" MoreSamples.options_headers "hello")]
    1 true true 0
  = Some {| reply := rtsp_read_request_response_ok;
            packet :=
              Some {| index_number := 1; referenceCount := 1;
                      headers := MoreSamples.options_headers;
                      contentlength := 5; content := Some "hello"%string;
                      method := "OPTIONS"; respcode := 0 |};
            rr_socket := []; rr_turn := 1; rr_msg_indexes := 2;
            stal_sent := false |}.
Proof.
  apply (rtsp_read_request_parses 1 MoreSamples.calm [] 1 true 0
           "OPTIONS" "*" MoreSamples.options_headers "hello").
  - split; [discriminate|]. cbn. repeat split; mem.
  - split; [discriminate|]. cbn. repeat split; mem.
  - repeat (apply Forall_cons_2; [split; cbn; repeat split; mem|]).
    apply Forall_nil_2.
  - vm_compute. discriminate.
  - vm_compute. split; discriminate.
  - vm_compute. lia.
  - reflexivity.
  - discriminate.
Defined.

(** X17.  A line end cut in two by the network: when the first read ends
    with the carriage return of the request line and the next one starts
    with its line feed, the line feed is taken for the empty line that
    ends the headers.  [rtsp_read_request] returns [ok] with no header at
    all, and whatever followed, headers included, is the content. *)
Theorem rtsp_read_request_split_line_end
    (fuel : nat) (env : nat -> turn_env) (socket : list read_outcome)
    (msg_indexes : Z) (realloc_ok : bool) (now : Z) (m u tail : string) :
  word m -> word u ->
  (String.length (m +:+ " " +:+ u +:+ " RTSP/1.0") < 4096)%nat ->
  (String.length tail < 4096)%nat ->
  stop_seen (env 0%nat) = 0 -> stop_seen (env 1%nat) = 0 ->
  (2 <= fuel)%nat ->
  rtsp_read_request fuel env
    (Arrives ((m +:+ " " +:+ u +:+ " RTSP/1.0") +:+ String CR EmptyString)
     :: Arrives (String LF tail) :: socket)
    msg_indexes true realloc_ok now
  = Some {| reply := rtsp_read_request_response_ok;
            packet :=
              Some {| index_number := msg_indexes; referenceCount := 1;
                      headers := [];
                      contentlength := Z.of_nat (String.length tail);
                      content := Some tail; method := stake 15 m;
                      respcode := 0 |};
            rr_socket := socket; rr_turn := 2;
            rr_msg_indexes := to_int (msg_indexes + 1);
            stal_sent := false |}.
Proof.
  intros Hm Hu Hlen Htail Hstop0 Hstop1 Hfuel.
  destruct fuel as [|[|fuel]]; [lia|lia|].
  set (line := m +:+ " " +:+ u +:+ " RTSP/1.0") in *.
  unfold rtsp_read_request. cbn [negb read_headers].
  change (-1 <? 0) with true. cbv iota. rewrite Hstop0. cbn [Z.eqb negb].
  rewrite do_read_whole by (rewrite length_append; cbn; lia).
  rewrite length_append. cbn [String.length].
  assert ((Z.of_nat (String.length line + 1) =? 0) = false) as ->
    by (apply Z.eqb_neq; lia).
  assert ((Z.of_nat (String.length line + 1) <? 0) = false) as ->
    by (apply Z.ltb_ge; lia).
  change (EmptyString +:+ line +:+ String CR EmptyString)
    with (line +:+ String CR EmptyString).
  rewrite length_append. cbn [String.length].
  replace (String.length line + 1)%nat with (S (String.length line)) by lia.
  cbn [handle_lines]. change (-1 <? 0) with true. cbv iota.
  rewrite nextline_cr_at_end;
    [|by apply word_no_line_end|rewrite length_append; cbn [String.length]; lia].
  assert (line +:+ nuls 1 = m +:+ " " +:+ u +:+ " RTSP/1.0" +:+ String NUL EmptyString)
    as -> by (unfold line; by rewrite !append_assoc).
  rewrite msg_handle_line_request by done.
  set (msg := set_method (stake 15 m) (fst (msg_init msg_indexes))).
  assert (handle_lines (String.length line) (to_int (msg_indexes + 1)) EmptyString
            (Some msg) (-1)
          = (false, EmptyString, Some msg, -1, to_int (msg_indexes + 1))) as ->
    by (by destruct (String.length line)).
  cbn [read_headers]. change (-1 <? 0) with true. cbv iota.
  rewrite Hstop1. cbn [Z.eqb negb].
  rewrite do_read_whole by (cbn; lia).
  cbn [String.length].
  assert ((Z.of_nat (S (String.length tail)) =? 0) = false) as ->
    by (apply Z.eqb_neq; lia).
  assert ((Z.of_nat (S (String.length tail)) <? 0) = false) as ->
    by (apply Z.ltb_ge; lia).
  change (EmptyString +:+ String LF tail) with (String LF tail).
  cbn [String.length handle_lines nextline].
  change (-1 <? 0) with true. cbv iota.
  change (Ascii.eqb LF CR) with false. change (Ascii.eqb LF LF) with true. cbv iota.
  assert (msg_handle_line (to_int (msg_indexes + 1)) (Some msg)
            (String NUL EmptyString)
          = (0, Some msg, to_int (msg_indexes + 1))) as -> by done.
  assert (handle_lines (String.length tail) (to_int (msg_indexes + 1)) tail
            (Some msg) 0
          = (false, tail, Some msg, 0, to_int (msg_indexes + 1))) as ->
    by (by destruct (String.length tail)).
  destruct fuel; cbn [read_headers read_body]; change (0 <? 0) with false;
    cbv iota; change (4096 <? 0) with false; cbn [andb];
    (assert ((Z.of_nat (String.length tail) <? 0) = false) as ->
       by (apply Z.ltb_ge; lia)); done.
Qed.

Lemma rtsp_read_request_split_line_end_witness :
  rtsp_read_request 2 MoreSamples.calm
    [Arrives (("OPTIONS" +:+ " " +:+ "*" +:+ " RTSP/1.0") +:+ String CR EmptyString);
     Arrives (String LF ("CSeq: 7" +:+ CRLF +:+ CRLF))]
    1 true true 0
  = Some {| reply := rtsp_read_request_response_ok;
            packet :=
              Some {| index_number := 1; referenceCount := 1; headers := [];
                      contentlength := 11;
                      content := Some ("CSeq: 7" +:+ CRLF +:+ CRLF);
                      method := "OPTIONS"; respcode := 0 |};
            rr_socket := []; rr_turn := 2; rr_msg_indexes := 2;
            stal_sent := false |}.
Proof.
  apply (rtsp_read_request_split_line_end 2 MoreSamples.calm [] 1 true 0
           "OPTIONS" "*" ("CSeq: 7" +:+ CRLF +:+ CRLF)).
  - split; [discriminate|]. cbn. repeat split; mem.
  - split; [discriminate|]. cbn. repeat split; mem.
  - vm_compute. lia.
  - vm_compute. lia.
  - reflexivity.
  - reflexivity.
  - lia.
Defined.

End CodecProps.
(* ================================================================== *)
(** * Properties of the authentication *)
(* ================================================================== *)

Module AuthProps.
Import CStr Codec Conn Handlers AppleChallenge Auth Conversation AuthNotions.

Lemma stake_all n s : (String.length s <= n)%nat -> stake n s = s.
Proof.
  revert n. induction s as [|c s IH]; intros [|n] Hn; cbn in *; try done; [lia|].
  rewrite IH; [done|lia].
Qed.

Lemma authenticate_spec nonce resp rc nonce' resp' :
  authenticate nonce resp = Some (rc, nonce', resp') ->
  rc = 1 /\ nonce' = nonce
  /\ exists n, nonce = Some n
       /\ resp' = snd (msg_add_header (set_respcode 401 resp) "WWW-Authenticate"
                         (challenge n)).
Proof.
  unfold authenticate. destruct nonce as [n|]; [|done]. intros [= <- <- <-].
  split; [done|]. split; [done|]. exists n. split; [done|].
  rewrite stake_all; [done|].
  unfold strlen, quote_after. rewrite !CodecProps.length_append. cbn [String.length].
  lia.
Qed.

Lemma rtsp_auth_spec X pw urandom nonce req resp rc nonce' resp' :
  rtsp_auth X (Some pw) urandom nonce req resp = Some (rc, nonce', resp') ->
  (rc = 0 /\ nonce' = nonce /\ resp' = resp
   /\ may_pass X (Some pw) nonce 0 req)
  \/ (rc = 1
      /\ exists n', nonce' = Some n'
           /\ (forall n, nonce = Some n -> n' = n)
           /\ resp' = snd (msg_add_header (set_respcode 401 resp)
                             "WWW-Authenticate" (challenge n'))).
Proof.
  assert (forall nonce0, (forall n, nonce = Some n -> nonce0 = Some n) ->
    authenticate nonce0 resp = Some (rc, nonce', resp') ->
    rc = 1
    /\ exists n', nonce' = Some n'
         /\ (forall n, nonce = Some n -> n' = n)
         /\ resp' = snd (msg_add_header (set_respcode 401 resp)
                           "WWW-Authenticate" (challenge n'))) as Hchal.
  { intros nonce0 Hsame H. apply authenticate_spec in H as (-> & -> & n & -> & ->).
    split; [done|]. exists n. split; [done|]. split; [|done].
    intros n0 Hn0. specialize (Hsame n0 Hn0). congruence. }
  unfold rtsp_auth. destruct nonce as [n|].
  2:{ destruct urandom as [random|]; [|done]. intros H. right.
      apply (Hchal (base64_enc X (bytes_n 8 random))); [done|exact H]. }
  assert (authenticate (Some n) resp = Some (rc, nonce', resp') ->
          rc = 1
          /\ exists n', nonce' = Some n'
               /\ (forall n0, Some n = Some n0 -> n' = n0)
               /\ resp' = snd (msg_add_header (set_respcode 401 resp)
                                 "WWW-Authenticate" (challenge n'))) as Hc
    by (apply Hchal; done).
  destruct (msg_get_header req "Authorization") as [hdr|] eqn:Hhdr;
    [|by right; apply Hc].
  destruct (has_prefix "Digest " hdr) eqn:Hpre; cbn [negb]; [|by right; apply Hc].
  unfold may_pass.
  destruct (strstr hdr (quote_after "realm=")) as [realm|] eqn:S1;
    [|by right; apply Hc].
  destruct (strstr hdr (quote_after "username=")) as [username|] eqn:S2;
    [|by right; apply Hc].
  destruct (strstr hdr (quote_after "response=")) as [response|] eqn:S3;
    [|by right; apply Hc].
  destruct (strstr hdr (quote_after "uri=")) as [uri|] eqn:S4;
    [|by right; apply Hc].
  destruct (quoted_field (cstr hdr) realm) as [| |realm1 b1] eqn:H1;
    [done|by right; apply Hc|].
  destruct (quoted_field b1 username) as [| |username1 b2] eqn:H2;
    [done|by right; apply Hc|].
  destruct (quoted_field b2 response) as [| |response1 b3] eqn:H3;
    [done|by right; apply Hc|].
  destruct (quoted_field b3 uri) as [| |uri1 b4] eqn:H4;
    [done|by right; apply Hc|].
  cbv zeta.
  destruct (streq _ _) eqn:Heq; [|by right; apply Hc].
  intros [= <- <- <-]. left. split; [done|]. split; [done|]. split; [done|].
  right. right.
  exists pw, n, hdr, (cstr (sdrop realm1 b4)), (cstr (sdrop username1 b4)),
    (cstr (sdrop response1 b4)), (cstr (sdrop uri1 b4)).
  split; [done|]. split; [done|]. split; [done|]. split; [done|].
  split; [|exact Heq].
  unfold auth_fields. by rewrite S1, S2, S3, S4, H1, H2, H3, H4.
Qed.

(** X18.  What [rtsp_auth] can answer when a password is set.  It returns
    0 only for a request whose [Authorization] value starts with
    ["Digest "] and carries a response equal to the digest of user name,
    realm, password, the connection's nonce, method and URI, and then it
    touches neither nonce nor response.  In every other case in which it
    returns, it returns 1 with the response set to 401 and a
    [WWW-Authenticate] header that names the nonce, which is the
    connection's nonce if it had one. *)
Theorem rtsp_auth_outcomes
    (X : externals) (pw : string) (urandom : option (list ascii))
    (nonce : option string) (req resp : rtsp_message)
    (rc : Z) (nonce' : option string) (resp' : rtsp_message) :
  rtsp_auth X (Some pw) urandom nonce req resp = Some (rc, nonce', resp') ->
  (rc = 0 /\ nonce' = nonce /\ resp' = resp
   /\ exists n hdr realm username response uri,
        nonce = Some n
        /\ msg_get_header req "Authorization" = Some hdr
        /\ has_prefix "Digest " hdr = true
        /\ auth_fields hdr = Some (realm, username, response, uri)
        /\ streq response
             (digest_response X pw n (method req) username realm uri) = true)
  \/ (rc = 1
      /\ exists n', nonce' = Some n'
           /\ (forall n, nonce = Some n -> n' = n)
           /\ resp' = snd (msg_add_header (set_respcode 401 resp)
                             "WWW-Authenticate" (challenge n'))).
Proof.
  intros H. apply rtsp_auth_spec in H as [(-> & -> & -> & Hpass)|H]; [left|by right].
  split; [done|]. split; [done|]. split; [done|].
  destruct Hpass as [?|[?|(pw0 & n & hdr & realm & username & response & uri & Hpw
                            & Hn & Hhdr & Hpre & Hf & Heq)]]; [done|done|].
  injection Hpw as <-. by exists n, hdr, realm, username, response, uri.
Qed.

Lemma rtsp_auth_outcomes_witness :
  rtsp_auth Samples.ext0 (Some "secret"%string) None (Some "Tm9uY2U"%string)
    MoreSamples.authorized_options Samples.resp0
  = Some (0, Some "Tm9uY2U"%string, Samples.resp0)
  /\ exists n hdr realm username response uri,
       Some "Tm9uY2U"%string = Some n
       /\ msg_get_header MoreSamples.authorized_options "Authorization" = Some hdr
       /\ has_prefix "Digest " hdr = true
       /\ auth_fields hdr = Some (realm, username, response, uri)
       /\ streq response
            (digest_response Samples.ext0 "secret" n
               (method MoreSamples.authorized_options) username realm uri) = true.
Proof.
  assert (rtsp_auth Samples.ext0 (Some "secret"%string) None (Some "Tm9uY2U"%string)
            MoreSamples.authorized_options Samples.resp0
          = Some (0, Some "Tm9uY2U"%string, Samples.resp0)) as Hrun
    by (vm_compute; reflexivity).
  split; [exact Hrun|].
  destruct (rtsp_auth_outcomes _ _ _ _ _ _ _ _ _ Hrun)
    as [(_ & _ & _ & H)|(H & _)]; [exact H|discriminate H].
Defined.

(** X19.  No handler without leave to pass: when a turn of the
    conversation loop calls a method handler, the request had been read
    whole, and either the connection was already authorised, or no
    password is set, or the request carried the digest that fits the
    password and the connection's nonce. *)
Theorem handler_runs_only_past_the_gate
    (conn : Z) (t : turn) (th th' : thread) :
  conversation_turn conn t th = Some th' ->
  dispatched th' <> dispatched th ->
  t_reply t = rtsp_read_request_response_ok
  /\ may_pass (ext (t_env t)) (password (cfg (t_env t)))
       (auth_nonce (h_conn (th_state th))) (authorized (h_conn (th_state th)))
       (t_req t).
Proof.
  unfold conversation_turn. intros Hrun Hlog.
  destruct (t_reply t) eqn:Hreply.
  2-6: exfalso; apply Hlog.
  2:{ by injection Hrun as <-. }
  2:{ by injection Hrun as <-. }
  2:{ destruct (negb (player_thread _ =? 0)); [|by injection Hrun as <-].
      cbv zeta in Hrun. destruct (to_int _ =? 0); by injection Hrun as <-. }
  2:{ destruct (negb (player_thread _ =? 0)); [|by injection Hrun as <-].
      cbv zeta in Hrun. destruct (to_int _ =? 0); by injection Hrun as <-. }
  2:{ by injection Hrun as <-. }
  split; [done|].
  destruct (apple_challenge _ _ _ _ _) as [resp|]; [|done]. cbv zeta in Hrun.
  unfold auth_gate in Hrun.
  destruct (authorized (h_conn (th_state th)) =? 1) eqn:Hauth.
  { left. by apply Z.eqb_eq. }
  destruct (rtsp_auth _ _ _ _ _ _) as [[[rc nonce'] resp']|] eqn:Hcall; [|done].
  destruct (rc =? 0) eqn:Hrc.
  - apply Z.eqb_eq in Hrc. subst rc.
    destruct (password (cfg (t_env t))) as [pw|] eqn:Hpw; [|by right; left].
    apply rtsp_auth_spec in Hcall as [(_ & _ & _ & Hpass)|(? & _)]; [|done].
    destruct Hpass as [?|[?|Hd]]; [done|done|]. right. right. exact Hd.
  - exfalso. apply Hlog. cbn in Hrun.
    destruct (stop _ =? 0); [|by injection Hrun as <-].
    destruct (msg_write_response _ _) as [err pkt].
    injection Hrun as <-. by destruct (negb (err =? 0)), pkt.
Qed.

Lemma handler_runs_only_past_the_gate_witness :
  t_reply MoreSamples.turn_authorized = rtsp_read_request_response_ok
  /\ may_pass (ext (t_env MoreSamples.turn_authorized))
       (password (cfg (t_env MoreSamples.turn_authorized)))
       (auth_nonce (h_conn (th_state MoreSamples.thread_challenged)))
       (authorized (h_conn (th_state MoreSamples.thread_challenged)))
       (t_req MoreSamples.turn_authorized).
Proof.
  apply (handler_runs_only_past_the_gate Samples.self MoreSamples.turn_authorized
           MoreSamples.thread_challenged
           (default MoreSamples.thread_challenged
              (conversation_turn Samples.self MoreSamples.turn_authorized
                 MoreSamples.thread_challenged))).
  - vm_compute. reflexivity.
  - vm_compute. discriminate.
Defined.

End AuthProps.
(* ================================================================== *)
(** * Further properties of the method handlers *)
(* ================================================================== *)

Module HandlerProps.
Import CStr Codec Reader Conn Metadata Multicast Handlers Conversation CodecNotions
  HandlerNotions.

Lemma setup_identity_frame E reqp req s :
  h_resp (setup_identity E reqp req s) = h_resp s
  /\ h_slot (setup_identity E reqp req s) = h_slot s
  /\ slot_writes (setup_identity E reqp req s) = slot_writes s.
Proof.
  unfold setup_identity.
  destruct (msg_get_header req "Active-Remote");
    destruct (msg_get_header req "DACP-ID");
    repeat (autorewrite with frame; cbn); done.
Qed.

Lemma release_slot_gives_up E k conn s :
  playing_conn (h_slot (release_slot E k conn s)) <> Some conn
  /\ h_resp (release_slot E k conn s) = h_resp s.
Proof.
  unfold release_slot, take_slot_lock, have_player.
  destruct (bool_decide _) eqn:Hb; cbn.
  - done.
  - split; [|done]. by apply bool_decide_eq_false in Hb.
Qed.

(** X20.  How a SETUP ends.  Either the answer is 200: then the
    connection held the player when [have_player] looked, the request had
    a [Transport] header with a control and a timing port, the audio port
    is not 0, and the handler left the slot alone.  Or the answer is 451:
    then no header was added to the response and the connection does not
    hold the player afterwards, the handler having released it if it held
    it. *)
Theorem handle_setup_outcome
    (E : handler_env) (conn reqp : Z) (req : rtsp_message) (s : hstate) :
  let s' := handle_setup E conn reqp req s in
  (respcode (h_resp s') = 200
   /\ playing_conn (interference E 0 (h_slot s)) = Some conn
   /\ local_audio_port (h_conn s') <> 0
   /\ (exists hdr c t,
         msg_get_header req "Transport" = Some hdr
         /\ port_after hdr "control_port=" = Some c
         /\ port_after hdr "timing_port=" = Some t)
   /\ h_slot s' = interference E 0 (h_slot s)
   /\ slot_writes s' = slot_writes s)
  \/ (respcode (h_resp s') = 451
      /\ headers (h_resp s') = headers (h_resp s)
      /\ playing_conn (h_slot s') <> Some conn).
Proof.
  unfold handle_setup. cbv zeta.
  set (s0 := take_slot_lock E 0 (with_resp (set_respcode 451 (h_resp s)) s)).
  assert (h_slot s0 = interference E 0 (h_slot s)) as Hslot0 by done.
  destruct (have_player (h_slot s0) conn) eqn:Hown.
  2:{ right. split; [done|]. split; [done|].
      unfold have_player in Hown. by apply bool_decide_eq_false in Hown. }
  unfold have_player in Hown. apply bool_decide_eq_true in Hown.
  destruct (setup_identity_frame E reqp req s0) as (Hr1 & Hs1 & Hw1).
  set (s1 := setup_identity E reqp req s0) in *.
  assert (forall s2, respcode (h_resp s2) = 451 -> headers (h_resp s2) = headers (h_resp s) ->
            let s3 := if negb (respcode (h_resp s2) =? 200)
                      then release_slot E 1 conn s2 else s2 in
            respcode (h_resp s3) = 451
            /\ headers (h_resp s3) = headers (h_resp s)
            /\ playing_conn (h_slot s3) <> Some conn) as Hfail.
  { intros s2 Hc Hh. rewrite Hc. cbn.
    destruct (release_slot_gives_up E 1 conn s2) as [Hrel ->]. done. }
  assert (respcode (h_resp s1) = 451 /\ headers (h_resp s1) = headers (h_resp s))
    as [Hc1 Hh1] by (rewrite Hr1; done).
  unfold setup_transport.
  destruct (msg_get_header req "Transport") as [hdr|] eqn:Hhdr;
    [|right; by apply Hfail].
  destruct (port_after hdr "control_port=") as [c|] eqn:Hcp;
    [|right; by apply Hfail].
  destruct (port_after hdr "timing_port=") as [t|] eqn:Htp;
    [|right; by apply Hfail].
  cbv zeta.
  set (s2 := if negb (rtp_running (h_conn s1) =? 0) then s1
             else log_rtp_setup c t (with_conn (rtp_setup (ext E) c t (h_conn s1)) s1)).
  assert (h_resp s2 = h_resp s1 /\ h_slot s2 = h_slot s1
          /\ slot_writes s2 = slot_writes s1) as (Hr2 & Hs2 & Hw2)
    by (unfold s2; by destruct (negb (rtp_running (h_conn s1) =? 0))).
  destruct (negb (local_audio_port (h_conn s2) =? 0)) eqn:Hport.
  - left. cbn. split; [done|]. split; [by rewrite <- Hslot0|].
    split; [by apply negb_true_iff, Z.eqb_neq in Hport|].
    split; [by exists hdr, c, t|].
    split; [by rewrite Hs2, Hs1|by rewrite Hw2, Hw1].
  - right. apply Hfail; by rewrite Hr2.
Qed.

Lemma prefix_append (a b : string) : String.prefix a (a +:+ b) = true.
Proof.
  induction a as [|c a IH]; [by destruct b|].
  rewrite CodecProps.append_cons. cbn [String.prefix].
  by destruct (ascii_dec c c).
Qed.

Lemma parameter_lines_volume E k v s :
  free_of [CR; LF; NUL] v ->
  parameter_lines (S (String.length ("volume: " +:+ v +:+ CRLF))) E k
    ("volume: " +:+ v +:+ CRLF) (slen ("volume: " +:+ v +:+ CRLF)) s
  = with_conn (player_volume (ext E) v (h_conn s)) s.
Proof.
  intros Hv.
  assert (free_of [CR; LF] ("volume: " +:+ v)) as Hle.
  { apply CodecProps.free_of_app.
    - cbn. repeat split; intros H%list_elem_of_In; cbn in H;
        intuition discriminate.
    - eapply CodecProps.free_of_mono; [|exact Hv].
      intros c H%list_elem_of_In. apply list_elem_of_In. cbn in *. tauto. }
  assert (free_of [NUL] ("volume: " +:+ v)) as Hnul.
  { apply CodecProps.free_of_app.
    - cbn. repeat split; intros H%list_elem_of_In; cbn in H;
        intuition discriminate.
    - eapply CodecProps.free_of_mono; [|exact Hv].
      intros c H%list_elem_of_In. apply list_elem_of_In. cbn in *. tauto. }
  assert ("volume: " +:+ v +:+ CRLF = ("volume: " +:+ v) +:+ CRLF +:+ EmptyString)
    as Hcp by (by rewrite CodecProps.append_assoc, CodecProps.append_nil_r).
  assert (String.length ("volume: " +:+ v +:+ CRLF)
          = (String.length ("volume: " +:+ v) + 2)%nat) as Hlen.
  { rewrite Hcp, !CodecProps.length_append. cbn. lia. }
  cbn [parameter_lines]. unfold slen. rewrite Hlen.
  assert ((Z.of_nat (String.length ("volume: " +:+ v) + 2) =? 0) = false) as ->
    by (apply Z.eqb_neq; lia).
  rewrite Nat2Z.id, Hcp, CodecProps.nextline_crlf;
    [|by apply CodecProps.free_of_no_line_end|lia].
  unfold has_prefix. change (nuls 2) with (String NUL (nuls 1)).
  rewrite (CodecProps.cstr_clean _ _ Hnul).
  rewrite prefix_append.
  change (sdrop 8 ("volume: " +:+ v)) with v. cbv iota beta.
  rewrite (CodecProps.length_append ("volume: " +:+ v)).
  change (String.length (String NUL (nuls 1))) with 2%nat.
  rewrite Z.sub_diag, Nat.add_comm. done.
Qed.

(** X21.  Who may drive the player.  For a connection that does not hold
    the player when the handler looks, SETUP, RECORD, FLUSH and TEARDOWN
    answer 451 and leave the connection as it was.  SET_PARAMETER does not
    look: a [text/parameters] body with the one line [volume: v] passes
    [v] to [player_volume] and answers 200. *)
Theorem only_set_parameter_skips_the_player_check
    (E : handler_env) (conn reqp : Z) (req : rtsp_message) (s : hstate)
    (v : string) :
  free_of [CR; LF; NUL] v ->
  msg_get_header req "Content-Type" = Some "text/parameters"%string ->
  content req = Some ("volume: " +:+ v +:+ CRLF) ->
  contentlength req = slen ("volume: " +:+ v +:+ CRLF) ->
  have_player (interference E 0 (h_slot s)) conn = false ->
  (forall h, h ∈ [handle_setup; handle_record; handle_flush; handle_teardown] ->
     respcode (h_resp (h E conn reqp req s)) = 451
     /\ h_conn (h E conn reqp req s) = h_conn s)
  /\ handle_set_parameter E conn reqp req s
     = Some (with_resp (set_respcode 200 (h_resp s))
               (with_conn (player_volume (ext E) v (h_conn s)) s)).
Proof.
  intros Hv Hct Hc Hcl Hown. split.
  - intros h Hh. apply list_elem_of_In in Hh. cbn in Hh.
    destruct Hh as [<-|[<-|[<-|[<-|[]]]]];
      unfold handle_setup, handle_record, handle_flush, handle_teardown;
      cbv zeta; cbn [take_slot_lock with_slot with_resp h_slot];
      rewrite Hown; done.
  - unfold handle_set_parameter. rewrite Hct.
    change (has_prefix "application/x-dmap-tagged" "text/parameters") with false.
    change (has_prefix "image" "text/parameters") with false.
    change (has_prefix "text/parameters" "text/parameters") with true.
    cbv iota beta. unfold handle_set_parameter_parameter.
    rewrite Hc, Hcl, parameter_lines_volume; done.
Qed.

Lemma only_set_parameter_skips_the_player_check_witness :
  (forall h, h ∈ [handle_setup; handle_record; handle_flush; handle_teardown] ->
     respcode (h_resp (h Samples.env0 7 90001 MoreSamples.volume_request
                         Samples.state0)) = 451
     /\ h_conn (h Samples.env0 7 90001 MoreSamples.volume_request Samples.state0)
        = h_conn Samples.state0)
  /\ handle_set_parameter Samples.env0 7 90001 MoreSamples.volume_request
       Samples.state0
     = Some (with_resp (set_respcode 200 (h_resp Samples.state0))
               (with_conn (player_volume (ext Samples.env0) "-20.5"
                             (h_conn Samples.state0)) Samples.state0)).
Proof.
  apply (only_set_parameter_skips_the_player_check Samples.env0 7 90001
           MoreSamples.volume_request Samples.state0 "-20.5").
  - cbn. repeat split; intros H%list_elem_of_In; cbn in H; intuition discriminate.
  - reflexivity.
  - reflexivity.
  - reflexivity.
  - reflexivity.
Defined.

Lemma dmap_items_wraps fuel E k reqp cp cl s :
  8 < cl -> ntohl_at cp 12 = 2 ^ 32 - 8 ->
  dmap_items fuel E k reqp cp cl 8 s = None.
Proof.
  intros Hcl Hvl. revert k s.
  induction fuel as [|fuel IH]; intros k s; cbn [dmap_items].
  - by destruct (8 <? cl) eqn:H; [|apply Z.ltb_ge in H; lia].
  - destruct (8 <? cl) eqn:H; [|apply Z.ltb_ge in H; lia].
    change (wrap32 (8 + 4)) with 12. change (wrap32 (12 + 4)) with 16.
    rewrite Hvl. change (wrap32 (16 + (2 ^ 32 - 8))) with 8. apply IH.
Qed.

(** X22.  A DMAP body that makes the item loop of
    [handle_set_parameter_metadata] run for ever.  The offset is an
    [unsigned int]; when the first item announces a length of 2^32 - 8,
    [off += vl] brings the offset back to 8, so for a content length above
    8 the loop has not ended after any number of turns, and SET_PARAMETER
    for such a [application/x-dmap-tagged] body does not return. *)
Theorem handle_set_parameter_metadata_offset_wraps
    (E : handler_env) (conn reqp : Z) (req : rtsp_message) (s : hstate)
    (body : string) :
  content req = Some body ->
  8 < wrap32 (contentlength req) ->
  ntohl_at body 12 = 2 ^ 32 - 8 ->
  (forall fuel k s0,
     dmap_items fuel E k reqp body (wrap32 (contentlength req)) 8 s0 = None)
  /\ (forall ct, msg_get_header req "Content-Type" = Some ct ->
        has_prefix "application/x-dmap-tagged" ct = true ->
        handle_set_parameter E conn reqp req s = None).
Proof.
  intros Hc Hcl Hvl. split.
  - intros fuel k s0. by apply dmap_items_wraps.
  - intros ct Hct Hpre. unfold handle_set_parameter. rewrite Hct, Hpre.
    unfold handle_set_parameter_metadata. rewrite Hc. cbn [default].
    by rewrite dmap_items_wraps.
Qed.

Lemma handle_set_parameter_metadata_offset_wraps_witness :
  (forall fuel k s0,
     dmap_items fuel Samples.env0 k 90001 MoreSamples.dmap_wrapping
       (wrap32 (contentlength MoreSamples.dmap_wrapping_request)) 8 s0 = None)
  /\ (forall ct,
        msg_get_header MoreSamples.dmap_wrapping_request "Content-Type" = Some ct ->
        has_prefix "application/x-dmap-tagged" ct = true ->
        handle_set_parameter Samples.env0 7 90001 MoreSamples.dmap_wrapping_request
          Samples.state0 = None).
Proof.
  apply (handle_set_parameter_metadata_offset_wraps Samples.env0 7 90001
           MoreSamples.dmap_wrapping_request Samples.state0
           MoreSamples.dmap_wrapping).
  - reflexivity.
  - vm_compute. reflexivity.
  - vm_compute. reflexivity.
Defined.

Lemma get_append_r (a b : string) (i : nat) :
  String.get (String.length a + i) (a +:+ b) = String.get i b.
Proof. induction a as [|c a IH]; [done|]. by rewrite CodecProps.append_cons. Qed.

Lemma code_byte_of z : code (byte_of z) = z mod 256.
Proof.
  unfold code, byte_of, nat_of_ascii.
  change 255 with (Z.ones 8). rewrite Z.land_ones by lia.
  change (2 ^ 8) with 256.
  pose proof (Z.mod_pos_bound z 256 ltac:(lia)) as Hb.
  rewrite N_ascii_embedding by lia. lia.
Qed.

Lemma be32_value x :
  0 <= x < 2 ^ 32 ->
  ((x / 16777216 mod 256 * 256 + x / 65536 mod 256) * 256 + x / 256 mod 256) * 256
  + x mod 256 = x.
Proof.
  intros Hx. change (2 ^ 32) with 4294967296 in Hx.
  pose proof (Z.div_mod x 256 ltac:(lia)) as H0.
  pose proof (Z.div_mod (x / 256) 256 ltac:(lia)) as H1.
  pose proof (Z.div_mod (x / 256 / 256) 256 ltac:(lia)) as H2.
  rewrite Z.div_div in H1, H2 by lia. rewrite Z.div_div in H2 by lia.
  change (256 * 256) with 65536 in *. change (65536 * 256) with 16777216 in *.
  assert (0 <= x / 16777216 < 256) as Hhi.
  { split; [apply Z.div_pos; lia|apply Z.div_lt_upper_bound; lia]. }
  rewrite (Z.mod_small (x / 16777216)) by lia. lia.
Qed.

Lemma ntohl_at_be32 pre x rest :
  0 <= x < 2 ^ 32 ->
  ntohl_at (pre +:+ be32 x +:+ rest) (slen pre) = x.
Proof.
  intros Hx. unfold ntohl_at, slen. rewrite Nat2Z.id. cbn [foldl].
  rewrite !get_append_r. unfold be32, htonl_bytes.
  cbn [String.string_of_list_ascii]. rewrite !CodecProps.append_cons.
  cbn -[byte_of code Z.mul Z.add Z.shiftr]. rewrite !code_byte_of, !Z.shiftr_div_pow2 by lia.
  change (2 ^ 24) with 16777216. change (2 ^ 16) with 65536.
  change (2 ^ 8) with 256. rewrite Z.mul_0_l, Z.add_0_l.
  by apply be32_value.
Qed.

Lemma length_be32 x : String.length (be32 x) = 4%nat.
Proof. done. Qed.

Lemma dmap_items_spec E reqp its :
  forall fuel k pre s,
    Forall (fun it => 0 <= fst it < 2 ^ 32) its ->
    slen (pre +:+ dmap_text its) < 2 ^ 32 ->
    (length its <= fuel)%nat ->
    dmap_items fuel E k reqp (pre +:+ dmap_text its)
      (slen (pre +:+ dmap_text its)) (slen pre) s
    = Some ((k + length its)%nat, send_items E k reqp its s).
Proof.
  induction its as [|[tag v] its IH]; intros fuel k pre s Hits Hlen Hfuel.
  - cbn [dmap_text length send_items]. rewrite CodecProps.append_nil_r.
    destruct fuel; cbn [dmap_items]; rewrite Z.ltb_irrefl, Nat.add_0_r; done.
  - apply Forall_cons in Hits as [Htag Hits]. cbn [fst] in Htag.
    destruct fuel as [|fuel]; [cbn in Hfuel; lia|]. cbn [length] in Hfuel.
    cbn [dmap_text send_items] in *. unfold dmap_item in *. cbn [fst snd] in *.
    set (cp := pre +:+ (be32 tag +:+ be32 (slen v) +:+ v) +:+ dmap_text its) in *.
    assert (slen cp = slen pre + 8 + slen v + slen (dmap_text its)) as Hcp.
    { unfold cp, slen. rewrite !CodecProps.length_append, !length_be32. lia. }
    pose proof (CodecProps.slen_nonneg pre) as Hp.
    pose proof (CodecProps.slen_nonneg v) as Hv.
    pose proof (CodecProps.slen_nonneg (dmap_text its)) as Hr.
    cbn [dmap_items].
    assert ((slen pre <? slen cp) = true) as -> by (apply Z.ltb_lt; lia).
    assert (forall z, 0 <= z <= slen cp -> wrap32 z = z) as Hw
      by (intros z Hz; unfold wrap32; apply Z.mod_small; lia).
    assert (cp = pre +:+ be32 tag +:+ (be32 (slen v) +:+ v +:+ dmap_text its)) as Hcp1
      by (unfold cp; by rewrite !CodecProps.append_assoc).
    assert (cp = (pre +:+ be32 tag) +:+ be32 (slen v) +:+ (v +:+ dmap_text its)) as Hcp2
      by (unfold cp; by rewrite !CodecProps.append_assoc).
    assert (cp = (pre +:+ be32 tag +:+ be32 (slen v) +:+ v) +:+ dmap_text its) as Hcp3
      by (unfold cp; by rewrite !CodecProps.append_assoc).
    assert (ntohl_at cp (slen pre) = tag) as ->
      by (rewrite Hcp1; by apply ntohl_at_be32).
    rewrite (Hw (slen pre + 4)) by lia.
    assert (slen pre + 4 = slen (pre +:+ be32 tag)) as Hoff4
      by (unfold slen; rewrite CodecProps.length_append, length_be32; lia).
    assert (ntohl_at cp (slen pre + 4) = slen v) as ->
      by (rewrite Hoff4, Hcp2; apply ntohl_at_be32; lia).
    rewrite (Hw (slen pre + 4 + 4)), (Hw (slen pre + 4 + 4 + slen v)) by lia.
    assert (Z.to_nat (slen pre + 4 + 4) = (String.length pre + 8)%nat) as ->
      by (unfold slen; lia).
    assert (slen pre + 4 + 4 + slen v
            = slen (pre +:+ be32 tag +:+ be32 (slen v) +:+ v)) as ->
      by (unfold slen; rewrite !CodecProps.length_append, !length_be32; lia).
    assert (sdrop (String.length pre + 8) cp = v +:+ dmap_text its) as ->.
    { assert (cp = (pre +:+ be32 tag +:+ be32 (slen v)) +:+ v +:+ dmap_text its) as ->
        by (unfold cp; by rewrite !CodecProps.append_assoc).
      assert ((String.length pre + 8)%nat
              = String.length (pre +:+ be32 tag +:+ be32 (slen v))) as ->
        by (rewrite !CodecProps.length_append, !length_be32; lia).
      apply CodecProps.sdrop_append. }
    rewrite Hcp3, IH; [|done|by rewrite <- Hcp3|lia].
    cbn [length].
    assert ((S k + length its)%nat = (k + S (length its))%nat) as -> by lia. done.
Qed.

(** X23.  A well-formed DMAP body is walked item by item.  When the body
    is eight bytes followed by items (tag, length, value) and is shorter
    than 2^32 bytes, [handle_set_parameter_metadata] ends, having made one
    [send_metadata] call per item, in order: the k-th call carries the
    k-th item's tag and length, with the address of the value inside the
    body and the request as carrier, or no data at all for an empty
    value. *)
Theorem handle_set_parameter_metadata_items
    (E : handler_env) (k : nat) (reqp : Z) (req : rtsp_message) (s : hstate)
    (head : string) (its : list (Z * string)) :
  String.length head = 8%nat ->
  Forall (fun it => 0 <= fst it < 2 ^ 32) its ->
  content req = Some (head +:+ dmap_text its) ->
  contentlength req = slen (head +:+ dmap_text its) ->
  contentlength req < 2 ^ 32 ->
  handle_set_parameter_metadata E k reqp req s
  = Some ((k + length its)%nat, send_items E k reqp its s).
Proof.
  intros Hhead Hits Hc Hcl Hsmall. unfold handle_set_parameter_metadata.
  rewrite Hc, Hcl in *. cbn [default].
  pose proof (CodecProps.slen_nonneg (head +:+ dmap_text its)) as Hnn.
  unfold wrap32. rewrite Z.mod_small by lia.
  assert (8 = slen head) as Hoff by (unfold slen; lia).
  rewrite Hoff.
  apply dmap_items_spec; [done|done|].
  assert (length its * 8 <= String.length (dmap_text its))%nat as Hlen.
  { clear. induction its as [|[tag v] its IH]; [done|].
    cbn [length dmap_text]. unfold dmap_item.
    rewrite !CodecProps.length_append, !length_be32. lia. }
  unfold slen. rewrite CodecProps.length_append. lia.
Qed.

Lemma handle_set_parameter_metadata_items_witness :
  handle_set_parameter_metadata Samples.env0 1 90001 MoreSamples.dmap_request
    Samples.state0
  = Some ((1 + length MoreSamples.dmap_two_items)%nat,
          send_items Samples.env0 1 90001 MoreSamples.dmap_two_items
            Samples.state0).
Proof.
  apply (handle_set_parameter_metadata_items Samples.env0 1 90001
           MoreSamples.dmap_request Samples.state0 ("mlit" +:+ be32 0)
           MoreSamples.dmap_two_items).
  - reflexivity.
  - unfold MoreSamples.dmap_two_items.
    repeat (apply Forall_cons_2; [vm_compute; split; [discriminate|reflexivity]|]).
    apply Forall_nil_2.
  - reflexivity.
  - reflexivity.
  - vm_compute. reflexivity.
Defined.

End HandlerProps.
(* ================================================================== *)
(** * Properties of the table of conversation threads *)
(* ================================================================== *)

Module ThreadsProps.
Import Threads.

Lemma to_int_small z : - 2 ^ 31 <= z < 2 ^ 31 -> to_int z = z.
Proof.
  intros Hz. unfold to_int.
  change (2 ^ 31) with 2147483648 in *. change (2 ^ 32) with 4294967296.
  rewrite Z.mod_small; lia.
Qed.

Lemma swap_remove (l : list Z) (i : nat) (c x : Z) :
  l !! i = Some c -> l ++ [x] ≡ₚ c :: <[i := x]> l.
Proof.
  revert i. induction l as [|a l IH]; intros [|i] Hi; try done.
  - cbn in Hi. injection Hi as ->. cbn.
    by rewrite (Permutation_app_comm l [x]).
  - cbn in Hi. cbn. rewrite (IH i Hi). apply perm_swap.
Qed.

Lemma tracked_remove (arr : list Z) (n i : nat) (c : Z) :
  (i < n <= length arr)%nat -> arr !! i = Some c ->
  take n arr
  ≡ₚ c :: take (n - 1)
            (if bool_decide (n - 1 = 0)%nat then arr
             else <[i := default 0 (arr !! (n - 1)%nat)]> arr).
Proof.
  intros Hn Hi.
  destruct (lookup_lt_is_Some_2 arr (n - 1)%nat ltac:(lia)) as [x Hx].
  assert (take n arr = take (n - 1) arr ++ [x]) as ->.
  { replace n with (S (n - 1)) at 1 by lia. by rewrite (take_S_r _ _ x). }
  rewrite Hx. cbn [default].
  destruct (decide (i = n - 1)%nat) as [->|Hne].
  - assert (x = c) as -> by congruence.
    rewrite list_insert_id by done.
    case_bool_decide; by rewrite (Permutation_app_comm _ [c]).
  - rewrite bool_decide_eq_false_2 by lia.
    rewrite take_insert_lt by lia.
    apply swap_remove. rewrite lookup_take_lt by lia. done.
Qed.

Lemma filter_all {A} (P : A -> Prop) `{forall x, Decision (P x)} (l : list A) :
  Forall P l -> filter P l = l.
Proof.
  induction 1 as [|x l Hx Hl IH]; [done|].
  by rewrite filter_cons_True, IH.
Qed.

Lemma filter_none {A} (P : A -> Prop) `{forall x, Decision (P x)} (l : list A) :
  Forall (fun x => ~ P x) l -> filter P l = [].
Proof.
  induction 1 as [|x l Hx Hl IH]; [done|].
  by rewrite filter_cons_False, IH.
Qed.

Lemma cleanup_loop_spec (running : nat -> Z -> Z) :
  (forall k c, running k c = running 0%nat c) ->
  forall fuel turn i t,
    0 <= i <= nconns t ->
    nconns t <= Z.of_nat (length (conns t)) ->
    Z.of_nat (length (conns t)) < 2 ^ 31 - 1 ->
    (Z.to_nat (nconns t - i) <= fuel)%nat ->
    Forall (fun c => running 0%nat c <> 0) (take (Z.to_nat i) (conns t)) ->
    exists t',
      cleanup_loop fuel running turn i t = Some t'
      /\ tracked t' ≡ₚ filter (fun c => running 0%nat c <> 0) (tracked t)
      /\ (exists gone,
            freed t' = freed t ++ gone
            /\ gone ≡ₚ filter (fun c => running 0%nat c = 0) (tracked t))
      /\ 0 <= nconns t' <= Z.of_nat (length (conns t'))
      /\ length (conns t') = length (conns t).
Proof.
  intros Hstable. induction fuel as [|fuel IH]; intros turn i t Hi Hn Hlen Hfuel Hpre.
  all: cbn [cleanup_loop]; destruct (i <? nconns t) eqn:Htest.
  all: try (apply Z.ltb_lt in Htest; lia).
  all: try (apply Z.ltb_ge in Htest;
            assert (i = nconns t) as -> by lia;
            exists t; split; [done|]; fold (tracked t) in Hpre;
            split; [by rewrite filter_all|];
            split; [|lia];
            exists []; rewrite app_nil_r; split; [done|];
            rewrite filter_none; [done|];
            eapply Forall_impl; [exact Hpre|]; cbn; intros c Hc Hc'; done).
  apply Z.ltb_lt in Htest.
  change (2 ^ 31) with 2147483648 in Hlen.
  destruct (lookup_lt_is_Some_2 (conns t) (Z.to_nat i) ltac:(lia)) as [c Hc].
  assert (entry (conns t) i = c) as Hentry by (unfold entry; by rewrite Hc).
  rewrite !Hentry, Hstable.
  destruct (running 0%nat c =? 0) eqn:Hrun.
  - apply Z.eqb_eq in Hrun.
    rewrite to_int_small by (change (2 ^ 31) with 2147483648; lia).
    set (arr := if negb (nconns t - 1 =? 0)
                then <[Z.to_nat i := entry (conns t) (nconns t - 1)]> (conns t)
                else conns t).
    assert (length arr = length (conns t)) as Harr
      by (unfold arr; destruct (negb _); by rewrite ?length_insert).
    assert (take (Z.to_nat i) arr = take (Z.to_nat i) (conns t)) as Htake
      by (unfold arr; destruct (negb _); by rewrite ?take_insert_ge by lia).
    destruct (IH (S turn) i {| conns := arr; nconns := nconns t - 1;
                               freed := freed t ++ [c] |})
      as (t' & Hrun' & Hkept & (gone & Hfreed & Hgone) & Hinv & Hlen');
      cbn [conns nconns freed]; [lia|lia|lia|lia|by rewrite Htake|].
    cbn [conns nconns freed] in *.
    assert (tracked t ≡ₚ c :: tracked {| conns := arr; nconns := nconns t - 1;
                                         freed := freed t ++ [c] |}) as Hperm.
    { unfold tracked. cbn [conns nconns].
      rewrite (tracked_remove (conns t) (Z.to_nat (nconns t)) (Z.to_nat i) c)
        by (done || lia).
      replace (Z.to_nat (nconns t - 1)) with (Z.to_nat (nconns t) - 1)%nat by lia.
      unfold arr, entry.
      replace (Z.to_nat (nconns t - 1)) with (Z.to_nat (nconns t) - 1)%nat by lia.
      destruct (nconns t - 1 =? 0) eqn:Hz.
      - apply Z.eqb_eq in Hz. rewrite bool_decide_eq_true_2 by lia. done.
      - apply Z.eqb_neq in Hz. rewrite bool_decide_eq_false_2 by lia. done. }
    exists t'. split; [done|]. split.
    { rewrite Hkept, Hperm, filter_cons_False; [done|]. intros H. done. }
    split.
    { exists (c :: gone). split; [by rewrite Hfreed, <- app_assoc|].
      rewrite Hgone, Hperm, filter_cons_True; done. }
    split; [lia|]. by rewrite Hlen'.
  - apply Z.eqb_neq in Hrun.
    rewrite to_int_small by (change (2 ^ 31) with 2147483648; lia).
    destruct (IH (S turn) (i + 1) t) as (t' & Hrun' & Hrest);
      [lia|lia|change (2 ^ 31) with 2147483648; lia|lia| |by exists t'].
    replace (Z.to_nat (i + 1)) with (S (Z.to_nat i)) by lia.
    rewrite (take_S_r _ _ c) by done.
    apply Forall_app. split; [done|]. by apply Forall_singleton.
Qed.

Lemma track_thread_appends (c : Z) (t : table) :
  0 <= nconns t <= Z.of_nat (length (conns t)) ->
  Z.of_nat (length (conns t)) < 2 ^ 31 - 1 ->
  tracked (track_thread c t) = tracked t ++ [c].
Proof.
  intros Hn Hlen. change (2 ^ 31) with 2147483648 in Hlen.
  unfold tracked, track_thread. cbn [conns nconns].
  rewrite to_int_small by (change (2 ^ 31) with 2147483648; lia).
  set (n := Z.to_nat (nconns t)).
  replace (Z.to_nat (nconns t + 1)) with (S n) by lia.
  set (block := take (S n) (conns t ++ replicate (S n - length (conns t)) 0)).
  assert (length block = S n) as Hblock.
  { unfold block. rewrite length_take, length_app, length_replicate. lia. }
  assert (take n block = take n (conns t)) as Hsame.
  { unfold block. rewrite take_take, Nat.min_l by lia.
    rewrite take_app_le by lia. done. }
  rewrite (take_S_r _ _ c).
  - by rewrite take_insert_ge, Hsame by lia.
  - apply list_lookup_insert_eq. lia.
Qed.

(** X25.  [cleanup_threads] keeps the connections that are running and
    frees the others.  For a table whose [nconns] entries lie within the
    array and whose flags do not change during the call, the loop ends;
    the entries in use afterwards are the running connections, each once,
    in some order; the records joined and freed are those of the
    connections that had ended, each once; and a connection tracked next
    comes after the ones kept. *)
Theorem cleanup_threads_keeps_the_running
    (running : nat -> Z -> Z) (t : table) :
  0 <= nconns t <= Z.of_nat (length (conns t)) ->
  Z.of_nat (length (conns t)) < 2 ^ 31 - 1 ->
  (forall k c, running k c = running 0%nat c) ->
  exists t',
    cleanup_threads running t = Some t'
    /\ tracked t' ≡ₚ filter (fun c => running 0%nat c <> 0) (tracked t)
    /\ (exists gone,
          freed t' = freed t ++ gone
          /\ gone ≡ₚ filter (fun c => running 0%nat c = 0) (tracked t))
    /\ forall c, tracked (track_thread c t') = tracked t' ++ [c].
Proof.
  intros Hn Hlen Hstable. unfold cleanup_threads.
  destruct (cleanup_loop_spec running Hstable (Z.to_nat (nconns t)) 0%nat 0 t)
    as (t' & Hrun & Hkept & Hgone & Hinv & Hlen'); [lia|lia|done|lia|done|].
  exists t'. split; [done|]. split; [done|]. split; [done|].
  intros c. apply track_thread_appends; [done|]. by rewrite Hlen'.
Qed.

Lemma cleanup_threads_keeps_the_running_witness :
  exists t',
    cleanup_threads MoreSamples.running14 MoreSamples.table4 = Some t'
    /\ tracked t' ≡ₚ filter (fun c => MoreSamples.running14 0%nat c <> 0)
                      (tracked MoreSamples.table4)
    /\ (exists gone,
          freed t' = freed MoreSamples.table4 ++ gone
          /\ gone ≡ₚ filter (fun c => MoreSamples.running14 0%nat c = 0)
                       (tracked MoreSamples.table4))
    /\ forall c, tracked (track_thread c t') = tracked t' ++ [c].
Proof.
  apply (cleanup_threads_keeps_the_running MoreSamples.running14 MoreSamples.table4).
  - vm_compute. split; discriminate.
  - vm_compute. reflexivity.
  - reflexivity.
Defined.

End ThreadsProps.
